(** * Compound wallet risk scoring: a shallow embedding and its properties

    The development follows the three modules of the scoring pipeline,

    - [compound_processor.py]: [process_wallet_data], [calculate_wallet_metrics],
      [_calculate_single_wallet_metrics];
    - [risk_analyzer.py]: the eight sub-scores, [calculate_risk_features],
      [detect_anomalies];
    - [score_calculator.py]: [_calculate_composite_score], [_categorize_risk],
      [calculate_scores].

    Numbers.  The Python code computes on binary64 values held in pandas and
    numpy containers.  Here a cell is an exact rational or the not-a-number
    value ([cell]); rounding error is not modelled, NaN is.  Arithmetic
    propagates NaN, every comparison with NaN is false, as in numpy.  A small
    module at the end of the definitions ([Binary64]) replays two constant
    computations on primitive binary64 values.  The infinities have no
    counterpart: the statements speak of tables whose cells are finite
    numbers or NaN.

    Tables.  A pandas [DataFrame] is a row count with named columns; looking up
    a column that is absent raises [KeyError].  Functions that can raise live in
    the [result] monad. *)

From Stdlib Require Import QArith ZArith List String Ascii Bool.
From Stdlib Require Import Qminmax Qround Lia Lqa Sorting Permutation.
From Stdlib Require Import Floats.
Import ListNotations.

Set Warnings "-inexact-float".

Open Scope string_scope.
Open Scope Z_scope.
Open Scope Q_scope.

(* ================================================================== *)
(** ** Exceptions and the result monad *)

Inductive exn : Type :=
| KeyError (key : string)
| TypeError (what : string)
| ValueError (what : string).

Inductive result (A : Type) : Type :=
| Ok (a : A)
| Raise (e : exn).

Arguments Ok {A} a.
Arguments Raise {A} e.

Definition bind {A B : Type} (m : result A) (k : A -> result B) : result B :=
  match m with
  | Ok a => k a
  | Raise e => Raise e
  end.

Notation "x <- m ;; k" := (bind m (fun x => k))
  (at level 61, m at next level, right associativity).

(* ================================================================== *)
(** ** Cells: rationals and NaN *)

Inductive cell : Type :=
| Num (q : Q)
| NaN.

Definition of_int (z : Z) : cell := Num (inject_Z z).

Definition fadd (a b : cell) : cell :=
  match a, b with Num x, Num y => Num (x + y) | _, _ => NaN end.

Definition fsub (a b : cell) : cell :=
  match a, b with Num x, Num y => Num (x - y) | _, _ => NaN end.

Definition fmul (a b : cell) : cell :=
  match a, b with Num x, Num y => Num (x * y) | _, _ => NaN end.

(** Division.  numpy gives NaN for 0/0.  A non-zero numerator over a zero
    denominator would be an infinity; the one division of the pipeline whose
    denominator can vanish is the min-max normalisation of [detect_anomalies],
    where the numerator vanishes with it, so that case is folded into NaN. *)
Definition fdiv (a b : cell) : cell :=
  match a, b with
  | Num x, Num y => if Qeq_bool y 0 then NaN else Num (x / y)
  | _, _ => NaN
  end.

Definition Qlt_bool (x y : Q) : bool := negb (Qle_bool y x).

Definition fgtb (a b : cell) : bool :=
  match a, b with Num x, Num y => Qlt_bool y x | _, _ => false end.

Definition fgeb (a b : cell) : bool :=
  match a, b with Num x, Num y => Qle_bool y x | _, _ => false end.

Definition fltb (a b : cell) : bool := fgtb b a.
Definition fleb (a b : cell) : bool := fgeb b a.

Definition feqb (a b : cell) : bool :=
  match a, b with Num x, Num y => Qeq_bool x y | _, _ => false end.

(** [np.clip(x, lo, hi)] is [minimum(maximum(x, lo), hi)]. *)
Definition clip (x : cell) (lo hi : Q) : cell :=
  match x with
  | Num q => Num (Qmin (Qmax q lo) hi)
  | NaN => NaN
  end.

Definition is_nan (x : cell) : bool :=
  match x with NaN => true | Num _ => false end.

(** [Series.fillna(v)]. *)
Definition fillna (v : Q) (x : cell) : Q :=
  match x with Num q => q | NaN => v end.

(** Rounding to the nearest integer, ties to the even one ([Series.round(0)]
    followed by the cast to int of an integral value). *)
Definition round_half_even (q : Q) : Z :=
  let f := Qfloor q in
  let r := q - inject_Z f in
  if Qlt_bool r (1 # 2) then f
  else if Qlt_bool (1 # 2) r then (f + 1)%Z
  else if Z.even f then f else (f + 1)%Z.

(* ================================================================== *)
(** ** Series: element-wise operations *)

Fixpoint zip_with {A B C : Type} (f : A -> B -> C) (l : list A) (l' : list B)
  : list C :=
  match l, l' with
  | a :: t, b :: t' => f a b :: zip_with f t t'
  | _, _ => []
  end.

Definition zeros (n : nat) : list cell := repeat (Num 0) n.
Definition ones (n : nat) : list cell := repeat (Num 1) n.

Definition vadd : list cell -> list cell -> list cell := zip_with fadd.
Definition vsub : list cell -> list cell -> list cell := zip_with fsub.

(** [v * c], [c - v] and [v - c] for a scalar [c]. *)
Definition vscale (v : list cell) (c : Q) : list cell :=
  map (fun x => fmul x (Num c)) v.
Definition rsub (c : Q) (v : list cell) : list cell :=
  map (fun x => fsub (Num c) x) v.
Definition vsubc (v : list cell) (c : Q) : list cell :=
  map (fun x => fsub x (Num c)) v.
Definition vdivc (v : list cell) (c : Q) : list cell :=
  map (fun x => fdiv x (Num c)) v.
Definition vclip (v : list cell) (lo hi : Q) : list cell :=
  map (fun x => clip x lo hi) v.

(** Boolean masks from comparisons with a scalar. *)
Definition mask_gt (v : list cell) (c : cell) : list bool :=
  map (fun x => fgtb x c) v.
Definition mask_ge (v : list cell) (c : cell) : list bool :=
  map (fun x => fgeb x c) v.
Definition mask_lt (v : list cell) (c : cell) : list bool :=
  map (fun x => fltb x c) v.
Definition mask_le (v : list cell) (c : cell) : list bool :=
  map (fun x => fleb x c) v.
Definition mask_eq (v : list cell) (c : cell) : list bool :=
  map (fun x => feqb x c) v.
Definition mask_and : list bool -> list bool -> list bool := zip_with andb.
Definition mask_not : list bool -> list bool := map negb.

(** [score[mask] += c], [score[mask] -= c] and [score[mask] = c]. *)
Definition add_where (mask : list bool) (c : Q) (score : list cell)
  : list cell :=
  zip_with (fun (b : bool) x => if b then fadd x (Num c) else x) mask score.
Definition sub_where (mask : list bool) (c : Q) (score : list cell)
  : list cell :=
  zip_with (fun (b : bool) x => if b then fsub x (Num c) else x) mask score.
Definition set_where (mask : list bool) (c : Q) (score : list cell)
  : list cell :=
  zip_with (fun (b : bool) x => if b then Num c else x) mask score.

(* ================================================================== *)
(** ** Sorting and reductions *)

Section StableSort.
Context {A : Type}.
Variable leb : A -> A -> bool.

(** The new element goes in front of the first element it is not greater
    than, so it stays ahead of the equal elements that followed it in the
    input. *)
Fixpoint insert_sorted (x : A) (l : list A) : list A :=
  match l with
  | [] => [x]
  | y :: t => if leb x y then x :: y :: t else y :: insert_sorted x t
  end.

Definition stable_sort (l : list A) : list A :=
  fold_right insert_sorted [] l.

End StableSort.

Definition Qsum (l : list Q) : Q := fold_right Qplus 0 l.

Definition dropna (v : list cell) : list Q :=
  flat_map (fun x => match x with Num q => [q] | NaN => [] end) v.

(** [Series.mean()] of values without NaN; NaN on the empty series. *)
Definition mean (l : list Q) : cell :=
  match l with
  | [] => NaN
  | _ => Num (Qsum l / inject_Z (Z.of_nat (List.length l)))
  end.

(** [Series.var()]: the sample variance (one delta degree of freedom), NaN
    below two observations. *)
Definition var (l : list Q) : cell :=
  match l with
  | [] | [_] => NaN
  | _ =>
      let n := inject_Z (Z.of_nat (List.length l)) in
      let m := Qsum l / n in
      Num (Qsum (map (fun x => (x - m) * (x - m)) l) / (n - 1))
  end.

(** [Series.max()]: NaN cells are skipped, NaN when nothing is left. *)
Definition Qmaximum (l : list Q) : cell :=
  match l with
  | [] => NaN
  | x :: t => Num (fold_left Qmax t x)
  end.

Definition series_max (v : list cell) : cell := Qmaximum (dropna v).

(** [Series.quantile(p)] with the default linear interpolation: on the sorted
    values without NaN, position [p * (n - 1)], interpolated between its two
    neighbours. *)
Definition quantile (v : list cell) (p : Q) : cell :=
  let s := stable_sort Qle_bool (dropna v) in
  match s with
  | [] => NaN
  | x0 :: _ =>
      let pos := p * inject_Z (Z.of_nat (List.length s) - 1) in
      let lo := Qfloor pos in
      let frac := pos - inject_Z lo in
      let a := nth (Z.to_nat lo) s x0 in
      let b := nth (Z.to_nat (Qceiling pos)) s x0 in
      Num (a + (b - a) * frac)
  end.

(* ================================================================== *)
(** ** DataFrame *)

Inductive column : Type :=
| NumCol (v : list cell)
| IntCol (v : list Z)
| StrCol (v : list string).

Record DataFrame : Type := mkDataFrame {
  nrows : nat;
  columns : list (string * column)
}.

(** [pd.DataFrame()]: no rows, no columns. *)
Definition empty_frame : DataFrame := mkDataFrame 0 [].

Fixpoint assoc {V : Type} (k : string) (l : list (string * V)) : option V :=
  match l with
  | [] => None
  | (k', v) :: t => if String.eqb k k' then Some v else assoc k t
  end.

(** [df[key]]. *)
Definition getitem (df : DataFrame) (key : string) : result column :=
  match assoc key (columns df) with
  | Some c => Ok c
  | None => Raise (KeyError key)
  end.

(** [df[key]] used in arithmetic or in a comparison with a number. *)
Definition getnum (df : DataFrame) (key : string) : result (list cell) :=
  c <- getitem df key ;;
  match c with
  | NumCol v => Ok v
  | IntCol v => Ok (map of_int v)
  | StrCol _ => Raise (TypeError key)
  end.

(** [key in df.columns]. *)
Definition has_column (df : DataFrame) (key : string) : bool :=
  match assoc key (columns df) with Some _ => true | None => false end.

Fixpoint set_assoc {V : Type} (k : string) (v : V) (l : list (string * V))
  : list (string * V) :=
  match l with
  | [] => [(k, v)]
  | (k', v') :: t =>
      if String.eqb k k' then (k, v) :: t else (k', v') :: set_assoc k v t
  end.

(** [df[key] = col]. *)
Definition setitem (df : DataFrame) (key : string) (c : column) : DataFrame :=
  mkDataFrame (nrows df) (set_assoc key c (columns df)).

(** [df.get(key, 0)] assigned to a column: the column when present, the scalar
    0 broadcast over the rows otherwise. *)
Definition get_or_zero (df : DataFrame) (key : string) : column :=
  match assoc key (columns df) with
  | Some c => c
  | None => IntCol (repeat 0%Z (nrows df))
  end.

(* ================================================================== *)
(** ** compound_processor.py: the transaction normaliser *)

(** A raw transaction is a dictionary read with [tx.get(key, default)]: every
    key may be absent.  Numeric values are held as the integer that [int(...)]
    or [float(...)] reads from them. *)
Record RawTransaction : Type := mkRawTransaction {
  raw_hash : option string;
  raw_blockNumber : option Z;
  raw_timeStamp : option Z;
  raw_from : option string;
  raw_to : option string;
  raw_value : option Z;
  raw_gasUsed : option Z;
  raw_gasPrice : option Z;
  raw_compound_action : option string;
  raw_isError : option Z;
  raw_type : option string;
  raw_tokenDecimal : option Z;
  raw_tokenSymbol : option string;
  raw_contractAddress : option string
}.

(** One entry of [wallet_data]: [wallet['address']] and
    [wallet.get('transactions', [])]. *)
Record Wallet : Type := mkWallet {
  address : string;
  transactions : option (list RawTransaction)
}.

(** [d.get(key, default)]. *)
Definition dict_get {A : Type} (v : option A) (default : A) : A :=
  match v with Some a => a | None => default end.

Definition lower_ascii (c : ascii) : ascii :=
  let n := nat_of_ascii c in
  if (65 <=? n)%nat && (n <=? 90)%nat then ascii_of_nat (n + 32) else c.

(** [str.lower()] on the ASCII letters. *)
Fixpoint lower (s : string) : string :=
  match s with
  | EmptyString => EmptyString
  | String c t => String (lower_ascii c) (lower t)
  end.

(** A row of the normalised table.  The three token fields are present for
    token transfers only; [tx_date] is the day number since the epoch,
    [tx_day_of_week] counts from Monday = 0. *)
Record NormalizedTransaction : Type := mkNormalizedTransaction {
  tx_wallet_address : string;
  tx_hash : string;
  tx_block_number : Z;
  tx_timestamp : Z;
  tx_from_address : string;
  tx_to_address : string;
  tx_value : Q;
  tx_gas_used : Z;
  tx_gas_price : Z;
  tx_fee : Q;
  tx_compound_action : string;
  tx_is_error : Z;
  tx_type : string;
  tx_token_value : option Q;
  tx_token_symbol : option string;
  tx_token_address : option string;
  tx_date : Z;
  tx_hour : Z;
  tx_day_of_week : Z
}.

Definition wei : Q := 1e18.

Definition is_token (tx : RawTransaction) : bool :=
  match raw_type tx with Some t => String.eqb t "token" | None => false end.

(** The body of the inner loop of [process_wallet_data], with the datetime
    columns that the function derives from the timestamp afterwards
    (1970-01-01 was a Thursday). *)
Definition processed_tx (addr : string) (tx : RawTransaction)
  : NormalizedTransaction :=
  let ts := dict_get (raw_timeStamp tx) 0%Z in
  let token := is_token tx in
  {| tx_wallet_address := addr;
     tx_hash := dict_get (raw_hash tx) "";
     tx_block_number := dict_get (raw_blockNumber tx) 0%Z;
     tx_timestamp := ts;
     tx_from_address := lower (dict_get (raw_from tx) "");
     tx_to_address := lower (dict_get (raw_to tx) "");
     tx_value := inject_Z (dict_get (raw_value tx) 0%Z) / wei;
     tx_gas_used := dict_get (raw_gasUsed tx) 0%Z;
     tx_gas_price := dict_get (raw_gasPrice tx) 0%Z;
     tx_fee :=
       inject_Z (dict_get (raw_gasUsed tx) 0 * dict_get (raw_gasPrice tx) 0)%Z
       / wei;
     tx_compound_action := dict_get (raw_compound_action tx) "unknown";
     tx_is_error := dict_get (raw_isError tx) 0%Z;
     tx_type := dict_get (raw_type tx) "regular";
     tx_token_value :=
       if token
       then Some (inject_Z (dict_get (raw_value tx) 0%Z)
                  / Qpower 10 (dict_get (raw_tokenDecimal tx) 18%Z))
       else None;
     tx_token_symbol :=
       if token then Some (dict_get (raw_tokenSymbol tx) "") else None;
     tx_token_address :=
       if token then Some (lower (dict_get (raw_contractAddress tx) ""))
       else None;
     tx_date := (ts / 86400)%Z;
     tx_hour := ((ts mod 86400) / 3600)%Z;
     tx_day_of_week := ((ts / 86400 + 3) mod 7)%Z |}.

(** The sort key [['wallet_address', 'timestamp']]: lexicographic, strings by
    code point. *)
Definition sort_key (t : NormalizedTransaction) : string * Z :=
  (tx_wallet_address t, tx_timestamp t).

Definition key_leb (k1 k2 : string * Z) : bool :=
  match String.compare (fst k1) (fst k2) with
  | Lt => true
  | Eq => (snd k1 <=? snd k2)%Z
  | Gt => false
  end.

Definition tx_leb (t1 t2 : NormalizedTransaction) : bool :=
  key_leb (sort_key t1) (sort_key t2).

(** [df.sort_values(['wallet_address', 'timestamp'])]: pandas sorts on several
    keys with a lexicographic sort that keeps equal keys in their order. *)
Definition sort_values (df : list NormalizedTransaction)
  : list NormalizedTransaction :=
  stable_sort tx_leb df.

Definition all_transactions (wallet_data : list Wallet)
  : list NormalizedTransaction :=
  flat_map
    (fun w => map (processed_tx (address w)) (dict_get (transactions w) []))
    wallet_data.

Definition process_wallet_data (wallet_data : list Wallet)
  : list NormalizedTransaction :=
  let df := all_transactions wallet_data in
  if (0 <? List.length df)%nat then sort_values df else df.

(* ================================================================== *)
(** ** compound_processor.py: the wallet metrics aggregator *)

(** [df.groupby('wallet_address')]: one group per distinct address, in
    ascending order of address, the rows of a group in the order of [df]. *)
Definition unique_sorted (l : list string) : list string :=
  stable_sort String.leb (nodup string_dec l).

Definition groupby_wallet_address (df : list NormalizedTransaction)
  : list (string * list NormalizedTransaction) :=
  map (fun a => (a, filter (fun t => String.eqb (tx_wallet_address t) a) df))
      (unique_sorted (map tx_wallet_address df)).

(** The dictionary built by [_calculate_single_wallet_metrics], keys in the
    order of insertion. *)
Record WalletMetrics : Type := mkWalletMetrics {
  wallet_address : string;
  total_transactions : Z;
  successful_transactions : Z;
  failed_transactions : Z;
  success_rate : cell;
  first_tx_date : Z;
  last_tx_date : Z;
  account_age_days : cell;
  avg_tx_interval_days : cell;
  mint_count : Z;
  redeem_count : Z;
  redeemUnderlying_count : Z;
  borrow_count : Z;
  repayBorrow_count : Z;
  liquidateBorrow_count : Z;
  supply_ratio : cell;
  withdraw_ratio : cell;
  borrow_ratio : cell;
  repay_ratio : cell;
  liquidation_count : Z;
  has_liquidations : Z;
  liquidation_rate : cell;
  total_gas_spent : cell;
  avg_gas_per_tx : cell;
  total_eth_value : cell;
  avg_eth_per_tx : cell;
  avg_time_between_txs : cell;
  std_time_between_txs : cell;
  activity_regularity : cell;
  action_diversity : Z;
  weekend_activity_ratio : cell;
  night_activity_ratio : cell;
  repay_to_borrow_ratio : cell;
  max_daily_transactions : Z;
  avg_daily_transactions : cell;
  daily_activity_variance : cell
}.

Definition len {A : Type} (l : list A) : Z := Z.of_nat (List.length l).

(** Python's [a / b] on integers: the quotient as a float. *)
Definition true_div (a b : Z) : cell := fdiv (of_int a) (of_int b).

(** [action_counts.get(action, 0)]. *)
Definition count_action (action : string) (txs : list NormalizedTransaction)
  : Z :=
  len (filter (fun t => String.eqb (tx_compound_action t) action) txs).

(** [Series.diff().dropna()]: the differences of consecutive rows. *)
Fixpoint diff (l : list Z) : list Z :=
  match l with
  | x :: (y :: _) as t => (y - x)%Z :: diff t
  | _ => []
  end.

(** [txs.groupby('date').size()]: the number of rows of each distinct date. *)
Definition daily_tx_counts (txs : list NormalizedTransaction) : list Z :=
  map (fun d => len (filter (fun t => Z.eqb (tx_date t) d) txs))
      (stable_sort Z.leb (nodup Z.eq_dec (map tx_date txs))).

Definition Zmaximum (l : list Z) (default : Z) : Z :=
  match l with [] => default | x :: t => fold_left Z.max t x end.

Definition Zminimum (l : list Z) (default : Z) : Z :=
  match l with [] => default | x :: t => fold_left Z.min t x end.

Section Metrics.

(** The binary64 square root used by [Series.std()]; it has no rational
    counterpart and stays a parameter. *)
Variable sqrt : Q -> Q.

(** [Series.std()]: the square root of the sample variance. *)
Definition std (l : list Q) : cell :=
  match var l with Num v => Num (sqrt v) | NaN => NaN end.

(** The table that reaches this function comes from [process_wallet_data]
    and is not empty, so it carries the [date], [hour] and [day_of_week]
    columns: the two tests [... in txs.columns] hold and their else branches
    are not modelled. *)
Definition _calculate_single_wallet_metrics
  (address : string) (txs : list NormalizedTransaction) : WalletMetrics :=
  let total := len txs in
  let successful_txs := filter (fun t => Z.eqb (tx_is_error t) 0) txs in
  let successful := len successful_txs in
  let failed := len (filter (fun t => Z.eqb (tx_is_error t) 1) txs) in
  (* Time-based metrics *)
  let stamps := map tx_timestamp txs in
  let first := if (0 <? total)%Z then Zminimum stamps 0 else 0%Z in
  let last := if (0 <? total)%Z then Zmaximum stamps 0 else 0%Z in
  let age :=
    if (0 <? total)%Z then true_div (last - first) 86400 else Num 0 in
  let avg_interval :=
    if (0 <? total)%Z then fdiv age (of_int (Z.max (total - 1) 1))
    else Num 0 in
  (* Action-based metrics *)
  let mint := count_action "mint" txs in
  let redeem := count_action "redeem" txs in
  let redeemUnderlying := count_action "redeemUnderlying" txs in
  let borrow := count_action "borrow" txs in
  let repayBorrow := count_action "repayBorrow" txs in
  let liquidateBorrow := count_action "liquidateBorrow" txs in
  let total_actions :=
    (mint + redeem + redeemUnderlying + borrow + repayBorrow)%Z in
  let ratio (n : Z) : cell :=
    if (0 <? total_actions)%Z then true_div n total_actions else Num 0 in
  (* Financial metrics *)
  let some_success := (0 <? successful)%Z in
  let fees := map tx_fee successful_txs in
  let values := map tx_value successful_txs in
  (* Behavioral patterns *)
  let time_diffs := map (fun d => inject_Z d / 3600) (diff stamps) in
  let several := (1 <? total)%Z in
  (* High-frequency activity *)
  let daily := daily_tx_counts txs in
  {| wallet_address := address;
     total_transactions := total;
     successful_transactions := successful;
     failed_transactions := failed;
     success_rate := true_div successful (Z.max total 1);
     first_tx_date := first;
     last_tx_date := last;
     account_age_days := age;
     avg_tx_interval_days := avg_interval;
     mint_count := mint;
     redeem_count := redeem;
     redeemUnderlying_count := redeemUnderlying;
     borrow_count := borrow;
     repayBorrow_count := repayBorrow;
     liquidateBorrow_count := liquidateBorrow;
     supply_ratio := ratio mint;
     withdraw_ratio := ratio (redeem + redeemUnderlying)%Z;
     borrow_ratio := ratio borrow;
     repay_ratio := ratio repayBorrow;
     liquidation_count := liquidateBorrow;
     has_liquidations := if (0 <? liquidateBorrow)%Z then 1%Z else 0%Z;
     liquidation_rate := true_div liquidateBorrow (Z.max total 1);
     total_gas_spent := if some_success then Num (Qsum fees) else Num 0;
     avg_gas_per_tx := if some_success then mean fees else Num 0;
     total_eth_value := if some_success then Num (Qsum values) else Num 0;
     avg_eth_per_tx := if some_success then mean values else Num 0;
     avg_time_between_txs := if several then mean time_diffs else Num 0;
     std_time_between_txs := if several then std time_diffs else Num 0;
     activity_regularity :=
       if several then
         if fgtb (mean time_diffs) (Num 0)
         then fdiv (std time_diffs) (mean time_diffs)
         else Num 0
       else Num 0;
     action_diversity :=
       len (nodup string_dec (map tx_compound_action txs));
     weekend_activity_ratio :=
       true_div
         (len (filter (fun t => Z.eqb (tx_day_of_week t) 5
                                || Z.eqb (tx_day_of_week t) 6) txs))
         (Z.max total 1);
     night_activity_ratio :=
       true_div
         (len (filter (fun t => (0 <=? tx_hour t)%Z && (tx_hour t <=? 6)%Z)
                      txs))
         (Z.max total 1);
     repay_to_borrow_ratio := true_div repayBorrow (Z.max borrow 1);
     max_daily_transactions :=
       if (0 <? total)%Z then Zmaximum daily 0 else 0%Z;
     avg_daily_transactions :=
       if (0 <? total)%Z then mean (map inject_Z daily) else Num 0;
     daily_activity_variance :=
       if (0 <? total)%Z then
         if (1 <? len daily)%Z then var (map inject_Z daily) else Num 0
       else Num 0 |}.

(** [pd.DataFrame(wallet_metrics)] on the list of dictionaries: one column per
    key.  The list is not empty when [calculate_wallet_metrics] builds the
    table, since it returns before on a table without rows; on the empty list
    pandas builds a table without columns, which is [empty_frame] and not the
    value of this function. *)
Definition DataFrame_of_metrics (ms : list WalletMetrics) : DataFrame :=
  let num (f : WalletMetrics -> cell) := NumCol (map f ms) in
  let int (f : WalletMetrics -> Z) := IntCol (map f ms) in
  mkDataFrame (List.length ms)
    [ ("wallet_address", StrCol (map wallet_address ms));
      ("total_transactions", int total_transactions);
      ("successful_transactions", int successful_transactions);
      ("failed_transactions", int failed_transactions);
      ("success_rate", num success_rate);
      ("first_tx_date", int first_tx_date);
      ("last_tx_date", int last_tx_date);
      ("account_age_days", num account_age_days);
      ("avg_tx_interval_days", num avg_tx_interval_days);
      ("mint_count", int mint_count);
      ("redeem_count", int redeem_count);
      ("redeemUnderlying_count", int redeemUnderlying_count);
      ("borrow_count", int borrow_count);
      ("repayBorrow_count", int repayBorrow_count);
      ("liquidateBorrow_count", int liquidateBorrow_count);
      ("supply_ratio", num supply_ratio);
      ("withdraw_ratio", num withdraw_ratio);
      ("borrow_ratio", num borrow_ratio);
      ("repay_ratio", num repay_ratio);
      ("liquidation_count", int liquidation_count);
      ("has_liquidations", int has_liquidations);
      ("liquidation_rate", num liquidation_rate);
      ("total_gas_spent", num total_gas_spent);
      ("avg_gas_per_tx", num avg_gas_per_tx);
      ("total_eth_value", num total_eth_value);
      ("avg_eth_per_tx", num avg_eth_per_tx);
      ("avg_time_between_txs", num avg_time_between_txs);
      ("std_time_between_txs", num std_time_between_txs);
      ("activity_regularity", num activity_regularity);
      ("action_diversity", int action_diversity);
      ("weekend_activity_ratio", num weekend_activity_ratio);
      ("night_activity_ratio", num night_activity_ratio);
      ("repay_to_borrow_ratio", num repay_to_borrow_ratio);
      ("max_daily_transactions", int max_daily_transactions);
      ("avg_daily_transactions", num avg_daily_transactions);
      ("daily_activity_variance", num daily_activity_variance) ].

Definition wallet_metrics (df : list NormalizedTransaction)
  : list WalletMetrics :=
  map (fun g => _calculate_single_wallet_metrics (fst g) (snd g))
      (groupby_wallet_address df).

Definition calculate_wallet_metrics (df : list NormalizedTransaction)
  : DataFrame :=
  if (List.length df =? 0)%nat then empty_frame
  else DataFrame_of_metrics (wallet_metrics df).

End Metrics.

(* ================================================================== *)
(** ** risk_analyzer.py: the eight sub-scores *)

Fixpoint foldM {A S : Type} (step : A -> S -> result S) (l : list A) (s : S)
  : result S :=
  match l with
  | [] => Ok s
  | a :: t => s' <- step a s ;; foldM step t s'
  end.

Fixpoint mapM {A B : Type} (f : A -> result B) (l : list A)
  : result (list B) :=
  match l with
  | [] => Ok []
  | a :: t => b <- f a ;; bs <- mapM f t ;; Ok (b :: bs)
  end.

(** Liquidation-based risk score (0-1, higher = more risky). *)
Definition _calculate_liquidation_risk (df : DataFrame)
  : result (list cell) :=
  let liquidation_score := zeros (nrows df) in
  (* Direct liquidation events *)
  count <- getnum df "liquidation_count" ;;
  let liquidation_score := vadd liquidation_score (vscale count 0.5) in
  (* Liquidation rate *)
  rate <- getnum df "liquidation_rate" ;;
  let liquidation_score := vadd liquidation_score (vscale rate 0.3) in
  (* Has liquidations (binary indicator) *)
  has <- getnum df "has_liquidations" ;;
  let liquidation_score := vadd liquidation_score (vscale has 0.2) in
  Ok (vclip liquidation_score 0 1).

(** Behavioral risk patterns (0-1, higher = more risky). *)
Definition _calculate_behavioral_risk (df : DataFrame)
  : result (list cell) :=
  let behavioral_score := zeros (nrows df) in
  (* High failure rate *)
  success <- getnum df "success_rate" ;;
  let behavioral_score := vadd behavioral_score (vscale (rsub 1 success) 0.3) in
  (* Irregular activity patterns *)
  regularity <- getnum df "activity_regularity" ;;
  let high_variance_mask := mask_gt regularity (quantile regularity 0.8) in
  let behavioral_score := add_where high_variance_mask 0.2 behavioral_score in
  (* Excessive weekend/night activity *)
  weekend <- getnum df "weekend_activity_ratio" ;;
  let behavioral_score :=
    vadd behavioral_score (vscale (vclip (vsubc weekend 0.3) 0 1) 0.2) in
  night <- getnum df "night_activity_ratio" ;;
  let behavioral_score :=
    vadd behavioral_score (vscale (vclip (vsubc night 0.2) 0 1) 0.3) in
  Ok (vclip behavioral_score 0 1).

(** Financial health score (0-1, higher = better health). *)
Definition _calculate_financial_health (df : DataFrame)
  : result (list cell) :=
  let health_score := ones (nrows df) in
  (* Poor repayment behavior *)
  ratio <- getnum df "repay_to_borrow_ratio" ;;
  let health_score := sub_where (mask_lt ratio (Num 0.8)) 0.4 health_score in
  (* Low transaction diversity *)
  diversity <- getnum df "action_diversity" ;;
  let health_score := sub_where (mask_le diversity (Num 2)) 0.2 health_score in
  (* Very new accounts (less than 30 days) *)
  age <- getnum df "account_age_days" ;;
  let health_score := sub_where (mask_lt age (Num 30)) 0.2 health_score in
  (* High gas spending relative to activity *)
  gas <- getnum df "avg_gas_per_tx" ;;
  let health_score :=
    if fgtb (series_max gas) (Num 0)
    then sub_where (mask_gt gas (quantile gas 0.9)) 0.2 health_score
    else health_score in
  Ok (vclip health_score 0 1).

(** Activity pattern risk (0-1, higher = more risky). *)
Definition _calculate_activity_pattern_risk (df : DataFrame)
  : result (list cell) :=
  let activity_risk := zeros (nrows df) in
  (* Burst activity (high variance in daily transactions) *)
  variance <- getnum df "daily_activity_variance" ;;
  let activity_risk :=
    if fgtb (series_max variance) (Num 0)
    then add_where (mask_gt variance (quantile variance 0.8)) 0.3 activity_risk
    else activity_risk in
  (* Excessive daily transactions *)
  daily <- getnum df "max_daily_transactions" ;;
  let activity_risk :=
    if fgtb (series_max daily) (Num 0)
    then add_where (mask_gt daily (quantile daily 0.9)) 0.4 activity_risk
    else activity_risk in
  (* Very regular intervals (potential bot) *)
  regularity <- getnum df "activity_regularity" ;;
  total <- getnum df "total_transactions" ;;
  let very_regular_mask :=
    mask_and (mask_lt regularity (Num 0.1)) (mask_gt total (Num 5)) in
  let activity_risk := add_where very_regular_mask 0.3 activity_risk in
  Ok (vclip activity_risk 0 1).

(** Repayment behavior score (0-1, higher = better). *)
Definition _calculate_repayment_behavior (df : DataFrame)
  : result (list cell) :=
  let repayment_score := zeros (nrows df) in
  (* Good repayment ratio *)
  ratio <- getnum df "repay_to_borrow_ratio" ;;
  let good_repayment_mask := mask_ge ratio (Num 1.0) in
  let repayment_score := add_where good_repayment_mask 0.5 repayment_score in
  (* Moderate repayment *)
  let moderate_repayment_mask :=
    mask_and (mask_ge ratio (Num 0.8)) (mask_lt ratio (Num 1.0)) in
  let repayment_score :=
    add_where moderate_repayment_mask 0.3 repayment_score in
  (* Has borrowing activity (needed for repayment evaluation) *)
  borrow <- getnum df "borrow_count" ;;
  let has_borrowing_mask := mask_gt borrow (Num 0) in
  let repayment_score :=
    add_where (mask_not has_borrowing_mask) 0.2 repayment_score in
  (* No liquidations *)
  liquidations <- getnum df "liquidation_count" ;;
  let no_liquidation_mask := mask_eq liquidations (Num 0) in
  let repayment_score := add_where no_liquidation_mask 0.3 repayment_score in
  Ok (vclip repayment_score 0 1).

(** An edge of [age_bins]: a number or [float('inf')]. *)
Inductive bin_edge : Type :=
| Edge (q : Q)
| PosInf.

Definition gt_edge (x : cell) (e : bin_edge) : bool :=
  match e with
  | Edge q => fgtb x (Num q)
  | PosInf => false
  end.

Definition le_edge (x : cell) (e : bin_edge) : bool :=
  match e with
  | Edge q => fleb x (Num q)
  | PosInf => negb (is_nan x)
  end.

Definition age_bins : list bin_edge :=
  [Edge 0; Edge 30; Edge 90; Edge 180; Edge 365; PosInf].

Definition age_scores : list Q := [0.1; 0.3; 0.5; 0.7; 1.0].

(** One turn of the loop over the bins:
    [mask = (age > age_bins[i]) & (age <= age_bins[i + 1])], then
    [experience_score[mask] = age_scores[i]]. *)
Definition age_bin_step (df : DataFrame) (i : nat)
  (experience_score : list cell) : result (list cell) :=
  age <- getnum df "account_age_days" ;;
  let mask :=
    mask_and (map (fun x => gt_edge x (nth i age_bins PosInf)) age)
             (map (fun x => le_edge x (nth (i + 1) age_bins PosInf)) age) in
  Ok (set_where mask (nth i age_scores 0) experience_score).

(** The account age scoring of [_calculate_experience_score]: the score as it
    stands after the loop, before the two bonuses. *)
Definition account_age_scoring (df : DataFrame) : result (list cell) :=
  foldM (age_bin_step df) (seq 0 (List.length age_bins - 1))
        (zeros (nrows df)).

(** Experience/maturity score (0-1, higher = more experienced). *)
Definition _calculate_experience_score (df : DataFrame)
  : result (list cell) :=
  (* Account age scoring *)
  experience_score <- account_age_scoring df ;;
  (* Transaction volume bonus *)
  total <- getnum df "total_transactions" ;;
  let high_volume_mask := mask_gt total (quantile total 0.7) in
  let experience_score := add_where high_volume_mask 0.2 experience_score in
  (* Consistent activity bonus *)
  regularity <- getnum df "activity_regularity" ;;
  let consistent_activity_mask :=
    mask_and (mask_gt regularity (Num 0.1)) (mask_lt regularity (Num 1.0)) in
  let experience_score :=
    add_where consistent_activity_mask 0.1 experience_score in
  Ok (vclip experience_score 0 1).

(** [np.maximum]: the larger of two cells, NaN when either is. *)
Definition fmax (a b : cell) : cell :=
  match a, b with Num x, Num y => Num (Qmax x y) | _, _ => NaN end.

(** Diversification score (0-1, higher = more diversified). *)
Definition _calculate_diversification_score (df : DataFrame)
  : result (list cell) :=
  let diversification_score := zeros (nrows df) in
  (* Action diversity scoring *)
  diversity <- getnum df "action_diversity" ;;
  let diversification_score :=
    vadd diversification_score (vclip (vdivc diversity 5) 0 0.6) in
  (* Balanced activity (not over-concentrated in one action) *)
  supply <- getnum df "supply_ratio" ;;
  withdraw <- getnum df "withdraw_ratio" ;;
  borrow <- getnum df "borrow_ratio" ;;
  repay <- getnum df "repay_ratio" ;;
  let largest :=
    zip_with fmax (zip_with fmax (zip_with fmax supply withdraw) borrow)
             repay in
  let balance_score := rsub 1 largest in
  let diversification_score :=
    vadd diversification_score (vscale balance_score 0.4) in
  Ok (vclip diversification_score 0 1).

(** Bot-like behavior score (0-1, higher = more bot-like). *)
Definition _calculate_bot_behavior_score (df : DataFrame)
  : result (list cell) :=
  let bot_score := zeros (nrows df) in
  (* Very regular timing *)
  regularity <- getnum df "activity_regularity" ;;
  total <- getnum df "total_transactions" ;;
  let very_regular_mask :=
    mask_and (mask_lt regularity (Num 0.05)) (mask_gt total (Num 10)) in
  let bot_score := add_where very_regular_mask 0.4 bot_score in
  (* High night activity *)
  night <- getnum df "night_activity_ratio" ;;
  let bot_score := add_where (mask_gt night (Num 0.5)) 0.3 bot_score in
  (* Excessive transactions per day *)
  daily <- getnum df "max_daily_transactions" ;;
  let bot_score :=
    if fgtb (series_max daily) (Num 0)
    then add_where (mask_gt daily (Num 50)) 0.3 bot_score
    else bot_score in
  Ok (vclip bot_score 0 1).

Definition calculate_risk_features (wallet_metrics : DataFrame)
  : result DataFrame :=
  let risk_features := wallet_metrics in
  s1 <- _calculate_liquidation_risk wallet_metrics ;;
  let risk_features :=
    setitem risk_features "liquidation_risk_score" (NumCol s1) in
  s2 <- _calculate_behavioral_risk wallet_metrics ;;
  let risk_features :=
    setitem risk_features "behavioral_risk_score" (NumCol s2) in
  s3 <- _calculate_financial_health wallet_metrics ;;
  let risk_features :=
    setitem risk_features "financial_health_score" (NumCol s3) in
  s4 <- _calculate_activity_pattern_risk wallet_metrics ;;
  let risk_features :=
    setitem risk_features "activity_pattern_risk" (NumCol s4) in
  s5 <- _calculate_repayment_behavior wallet_metrics ;;
  let risk_features :=
    setitem risk_features "repayment_behavior_score" (NumCol s5) in
  s6 <- _calculate_experience_score wallet_metrics ;;
  let risk_features := setitem risk_features "experience_score" (NumCol s6) in
  s7 <- _calculate_diversification_score wallet_metrics ;;
  let risk_features :=
    setitem risk_features "diversification_score" (NumCol s7) in
  s8 <- _calculate_bot_behavior_score wallet_metrics ;;
  let risk_features :=
    setitem risk_features "bot_behavior_score" (NumCol s8) in
  Ok risk_features.

(* ================================================================== *)
(** ** risk_analyzer.py: the anomaly detector *)

Definition numerical_features : list string :=
  [ "total_transactions"; "success_rate"; "account_age_days";
    "liquidation_count"; "repay_to_borrow_ratio"; "action_diversity";
    "activity_regularity"; "max_daily_transactions" ].

(** [ndarray.min()] and [ndarray.max()], which raise on an empty array. *)
Definition amin (l : list Q) : result Q :=
  match l with
  | [] => Raise (ValueError "zero-size array to reduction operation minimum")
  | x :: t => Ok (fold_left Qmin t x)
  end.

Definition amax (l : list Q) : result Q :=
  match l with
  | [] => Raise (ValueError "zero-size array to reduction operation maximum")
  | x :: t => Ok (fold_left Qmax t x)
  end.

(** The normalisation of the decision scores to the 0-1 range:
    [(d - d.min()) / (d.max() - d.min())]. *)
Definition normalize_scores (anomaly_decision_scores : list Q)
  : result (list cell) :=
  lo <- amin anomaly_decision_scores ;;
  hi <- amax anomaly_decision_scores ;;
  lo' <- amin anomaly_decision_scores ;;
  Ok (map (fun d => fdiv (Num (d - lo)) (Num (hi - lo')))
          anomaly_decision_scores).

(** The features of [numerical_features] that exist in the dataframe. *)
Definition available_features (risk_features : DataFrame) : list string :=
  filter (has_column risk_features) numerical_features.

(** [X = risk_features[available_features].fillna(0)], a matrix held as the
    list of its columns. *)
Definition prepare_data (risk_features : DataFrame)
  : result (list (list Q)) :=
  mapM (fun f => c <- getnum risk_features f ;; Ok (map (fillna 0) c))
       (available_features risk_features).

Section AnomalyDetector.

(** The two scikit-learn estimators are parameters: [StandardScaler] with its
    [fit_transform] and [IsolationForest] (contamination 0.1, seed 42) with
    the [decision_function] of the model once fitted by [fit_predict], whose
    own result only feeds a log line. *)
Variable scaler_fit_transform : list (list Q) -> result (list (list Q)).
Variable anomaly_detector_decision_function :
  list (list Q) -> result (list Q).

Definition detect_anomalies (risk_features : DataFrame)
  : result (list cell) :=
  if (List.length (available_features risk_features) =? 0)%nat
  then Ok (zeros (nrows risk_features))
  else
    (* Prepare data *)
    X <- prepare_data risk_features ;;
    (* Scale features *)
    X_scaled <- scaler_fit_transform X ;;
    (* Detect anomalies *)
    anomaly_decision_scores <- anomaly_detector_decision_function X_scaled ;;
    (* Normalize decision scores to 0-1 range (higher = less anomalous) *)
    normalize_scores anomaly_decision_scores.

End AnomalyDetector.

(* ================================================================== *)
(** ** score_calculator.py *)

(** [self.weights]. *)
Definition weights : list (string * Q) :=
  [ ("liquidation_risk", 0.25);
    ("behavioral_risk", 0.15);
    ("financial_health", 0.20);
    ("activity_pattern_risk", 0.10);
    ("repayment_behavior", 0.15);
    ("experience", 0.10);
    ("diversification", 0.05) ].

Definition weights_getitem (key : string) : result Q :=
  match assoc key weights with
  | Some w => Ok w
  | None => Raise (KeyError key)
  end.

(** A turn of the loop over [risk_components.items()]. *)
Definition risk_component_step (risk_features : DataFrame)
  (item : string * Q) (composite_score : list cell) : result (list cell) :=
  let (component, weight) := item in
  if has_column risk_features component then
    c <- getnum risk_features component ;;
    Ok (vadd composite_score
             (vscale (map (fun x => Num (fillna 0 x)) c) weight))
  else Ok composite_score.

(** A turn of the loop over [positive_components.items()]. *)
Definition positive_component_step (risk_features : DataFrame)
  (item : string * Q) (composite_score : list cell) : result (list cell) :=
  let (component, weight) := item in
  if has_column risk_features component then
    c <- getnum risk_features component ;;
    Ok (vadd composite_score
             (vscale (rsub 1 (map (fun x => Num (fillna 0 x)) c)) weight))
  else Ok composite_score.

(** Weighted composite risk score (0-1, higher = more risky). *)
Definition _calculate_composite_score (risk_features : DataFrame)
  : result (list cell) :=
  let composite_score := zeros (nrows risk_features) in
  (* Risk components (higher values = more risky) *)
  w_liquidation <- weights_getitem "liquidation_risk" ;;
  w_behavioral <- weights_getitem "behavioral_risk" ;;
  w_activity <- weights_getitem "activity_pattern_risk" ;;
  let risk_components :=
    [ ("liquidation_risk_score", w_liquidation);
      ("behavioral_risk_score", w_behavioral);
      ("activity_pattern_risk", w_activity) ] in
  composite_score <-
    foldM (risk_component_step risk_features) risk_components
          composite_score ;;
  (* Positive components (higher values = lower risk) *)
  w_health <- weights_getitem "financial_health" ;;
  w_repayment <- weights_getitem "repayment_behavior" ;;
  w_experience <- weights_getitem "experience" ;;
  w_diversification <- weights_getitem "diversification" ;;
  let positive_components :=
    [ ("financial_health_score", w_health);
      ("repayment_behavior_score", w_repayment);
      ("experience_score", w_experience);
      ("diversification_score", w_diversification) ] in
  composite_score <-
    foldM (positive_component_step risk_features) positive_components
          composite_score ;;
  Ok (vclip composite_score 0 1).

Definition categorize (score : cell) : string :=
  if fgeb score (Num 800) then "Low Risk"
  else if fgeb score (Num 600) then "Medium-Low Risk"
  else if fgeb score (Num 400) then "Medium Risk"
  else if fgeb score (Num 200) then "High Risk"
  else "Very High Risk".

(** Categorize risk levels based on scores. *)
Definition _categorize_risk (scores : list cell) : list string :=
  map categorize scores.

(** [Series.round(0).astype(int)]: the cast refuses NaN. *)
Definition round_astype_int (v : list cell) : result (list Z) :=
  mapM (fun x =>
          match x with
          | Num q => Ok (round_half_even q)
          | NaN =>
              Raise (ValueError "Cannot convert non-finite values to integer")
          end) v.

(** A Series with the default index reindexed to the labels [0 .. n-1]: the
    labels that it lacks hold NaN.  An arithmetic operation of pandas reindexes
    both operands to the union of their indexes in this way. *)
Definition reindex (n : nat) (v : list cell) : list cell :=
  v ++ repeat NaN (n - List.length v).

(** The anomaly adjustment and [final_risk_score] of [calculate_scores], on
    operands that carry the same index. *)
Definition final_risk (composite_score anomaly_scores : list cell)
  : list cell :=
  let anomaly_adjustment := vscale (rsub 1 anomaly_scores) 0.1 in
  let final_risk_score := vsub composite_score anomaly_adjustment in
  vclip final_risk_score 0 1.

(** Final risk scores (0-1000 scale). *)
Definition calculate_scores (risk_features : DataFrame)
  (anomaly_scores : list cell) : result DataFrame :=
  let scores_df := mkDataFrame (nrows risk_features) [] in
  wallet_id <- getitem risk_features "wallet_address" ;;
  let scores_df := setitem scores_df "wallet_id" wallet_id in
  (* Calculate composite risk score *)
  composite_score <- _calculate_composite_score risk_features ;;
  (* Incorporate anomaly scores; final score calculation: the subtraction
     aligns the two Series on the union of their indexes *)
  let index :=
    Nat.max (List.length composite_score) (List.length anomaly_scores) in
  let final_risk_score :=
    final_risk (reindex index composite_score)
               (reindex index anomaly_scores) in
  (* Convert risk score to credit score (inverse relationship) *)
  let credit_scores := vscale (rsub 1 final_risk_score) 1000 in
  score <- round_astype_int credit_scores ;;
  let scores_df := setitem scores_df "score" (IntCol score) in
  let scores_df :=
    setitem scores_df "risk_category"
            (StrCol (_categorize_risk credit_scores)) in
  (* Add component scores for transparency *)
  let copy (scores_df : DataFrame) (target source : string) : DataFrame :=
    setitem scores_df target (get_or_zero risk_features source) in
  let scores_df :=
    copy scores_df "liquidation_risk_component" "liquidation_risk_score" in
  let scores_df :=
    copy scores_df "behavioral_risk_component" "behavioral_risk_score" in
  let scores_df :=
    copy scores_df "financial_health_component" "financial_health_score" in
  let scores_df :=
    copy scores_df "repayment_behavior_component"
         "repayment_behavior_score" in
  let scores_df := copy scores_df "experience_component" "experience_score" in
  let scores_df := setitem scores_df "anomaly_score" (NumCol anomaly_scores) in
  (* Additional metrics for analysis *)
  let scores_df := copy scores_df "total_transactions" "total_transactions" in
  let scores_df := copy scores_df "account_age_days" "account_age_days" in
  let scores_df := copy scores_df "liquidation_count" "liquidation_count" in
  let scores_df := copy scores_df "success_rate" "success_rate" in
  Ok scores_df.

(** The interpretation bands of [explain_score], read on the integer score
    of the row. *)
Definition interpretation (score : Z) : string :=
  if (800 <=? score)%Z then "Excellent risk profile with strong track record"
  else if (600 <=? score)%Z then "Good risk profile with minor concerns"
  else if (400 <=? score)%Z
       then "Moderate risk with careful monitoring needed"
  else if (200 <=? score)%Z then "High risk requiring strict oversight"
  else "Very high risk, consider limiting exposure".

(* ================================================================== *)
(** ** Binary64 replay of two constant computations *)

Module Binary64.

(** A decimal literal [n / 10^k] read as a binary64 value: numerator and
    denominator are exact below 2^53 and the division rounds once, to the
    nearest value, as the parser of the literal does. *)
Definition of_Q (q : Q) : PrimFloat.float :=
  (PrimFloat.of_uint63 (Uint63.of_Z (Qnum q))
   / PrimFloat.of_uint63 (Uint63.of_Z (Zpos (Qden q))))%float.

(** The seven weights summed in the order of the dictionary. *)
Definition weights_sum : PrimFloat.float :=
  fold_left PrimFloat.add (map (fun kv => of_Q (snd kv)) weights) 0%float.

(** The three increments of [_calculate_repayment_behavior] that a wallet
    without borrowing, with a repayment and without liquidation receives,
    added to the initial zero in the order of the code. *)
Definition repayment_full : PrimFloat.float :=
  fold_left PrimFloat.add (map of_Q [0.5; 0.2; 0.3]) 0%float.

End Binary64.

(* ================================================================== *)
(** ** Vocabulary of the statements *)

(** Equality of cells up to the representation of the rational. *)
Definition cell_eq (a b : cell) : Prop :=
  match a, b with
  | Num x, Num y => x == y
  | NaN, NaN => True
  | _, _ => False
  end.

(** The order of the sort, stated on its own: a smaller address, or the same
    address and a timestamp that is not larger. *)
Definition key_le (k1 k2 : string * Z) : Prop :=
  String.compare (fst k1) (fst k2) = Lt
  \/ (fst k1 = fst k2 /\ (snd k1 <= snd k2)%Z).

Definition tx_le (t1 t2 : NormalizedTransaction) : Prop :=
  key_le (sort_key t1) (sort_key t2).

Definition key_eqb (k1 k2 : string * Z) : bool :=
  String.eqb (fst k1) (fst k2) && Z.eqb (snd k1) (snd k2).

(** The rows of a table that carry a given (address, timestamp) pair. *)
Definition rows_at (k : string * Z) (df : list NormalizedTransaction)
  : list NormalizedTransaction :=
  filter (fun t => key_eqb (sort_key t) k) df.

(** The transactions of a wallet entry, as the normaliser reads them. *)
Definition wallet_transactions (w : Wallet) : list RawTransaction :=
  dict_get (transactions w) [].

(** The bin of an account age as the loop of [_calculate_experience_score]
    leaves it: the bins are open on the left, so an age that is not above 0
    keeps the initial 0. *)
Definition age_bin (x : cell) : cell :=
  match x with
  | NaN => Num 0
  | Num q =>
      if Qle_bool q 0 then Num 0
      else if Qle_bool q 30 then Num 0.1
      else if Qle_bool q 90 then Num 0.3
      else if Qle_bool q 180 then Num 0.5
      else if Qle_bool q 365 then Num 0.7
      else Num 1.0
  end.

(* ================================================================== *)
(** ** Sample inputs *)

(** A square root on rationals, exact to 53 fractional bits, to instantiate
    the parameter of the metrics on concrete batches. *)
Definition Qsqrt53 (q : Q) : Q :=
  inject_Z (Z.sqrt (Qnum q * 4 ^ 53 / Zpos (Qden q))) / inject_Z (2 ^ 53).

Definition sample_tx (stamp : Z) (action : string) : RawTransaction :=
  {| raw_hash := Some "0x5e";
     raw_blockNumber := Some 7710760%Z;
     raw_timeStamp := Some stamp;
     raw_from := Some "0xA1";
     raw_to := Some "0xC0";
     raw_value := Some 0%Z;
     raw_gasUsed := Some 21000%Z;
     raw_gasPrice := Some 1000000000%Z;
     raw_compound_action := Some action;
     raw_isError := Some 0%Z;
     raw_type := Some "regular";
     raw_tokenDecimal := None;
     raw_tokenSymbol := None;
     raw_contractAddress := None |}.

(** A batch whose only wallet has no transaction. *)
Definition idle_only : list Wallet := [ mkWallet "0xa" (Some []) ].

(** The wallet of the worked example: a mint at 0 and a repayment a day
    later. *)
Definition mint_then_repay : list Wallet :=
  [ mkWallet "0xb"
      (Some [sample_tx 0 "mint"; sample_tx 86400 "repayBorrow"]) ].

(** A wallet liquidated twice. *)
Definition liquidated_twice : list Wallet :=
  [ mkWallet "0xd"
      (Some [sample_tx 10 "borrow"; sample_tx 20 "liquidateBorrow";
             sample_tx 30 "liquidateBorrow"]) ].

(** A risk-feature table from its seven sub-score columns. *)
Definition risk_frame (ids : list string)
  (liquidation behavioral health activity repayment experience
   diversification : list Q) : DataFrame :=
  mkDataFrame (List.length ids)
    [ ("wallet_address", StrCol ids);
      ("liquidation_risk_score", NumCol (map Num liquidation));
      ("behavioral_risk_score", NumCol (map Num behavioral));
      ("financial_health_score", NumCol (map Num health));
      ("activity_pattern_risk", NumCol (map Num activity));
      ("repayment_behavior_score", NumCol (map Num repayment));
      ("experience_score", NumCol (map Num experience));
      ("diversification_score", NumCol (map Num diversification)) ].

(** Two wallets with the same sub-scores, hence the same composite 0.5. *)
Definition twin_wallets : DataFrame :=
  risk_frame ["0x01"; "0x02"] [0.5; 0.5] [0.5; 0.5] [0.5; 0.5] [0.5; 0.5]
             [0.5; 0.5] [0.5; 0.5] [0.5; 0.5].

(** A wallet whose composite is 0.226; with anomaly score 0.742 its credit
    score is 799.8. *)
Definition borderline_wallet : DataFrame :=
  risk_frame ["0x03"] [0] [0.24] [0.6] [0] [1] [0.1] [0.6].

(** Stand-ins for the two estimators: the identity scaling and a forest
    that returns the same decision score for every row. *)
Definition identity_scaler (X : list (list Q)) : result (list (list Q)) :=
  Ok X.

Definition flat_forest (d : Q) (X : list (list Q)) : result (list Q) :=
  Ok (map (fun _ => d) (hd [] X)).

(* ================================================================== *)
(** ** data_fetcher.py: classification and filtering *)

(** [self.compound_v2_contracts] and [self.compound_v3_contracts]. *)
Definition compound_v2_contracts : list (string * string) :=
  [ ("comptroller", "0x3d9819210a31b4961b30ef54be2aed79b9c9cd3b");
    ("ceth", "0x4ddc2d193948926d02f9b1fe9e1daa0718270ed5");
    ("cdai", "0x5d3a536e4d6dbd6114cc1ead35777bab948e3643");
    ("cusdc", "0x39aa39c021dfbae8fac545936693ac917d5e7563");
    ("cwbtc", "0xc11b1268c1a384e55c48c2391d8d480264a3a7f4") ].

Definition compound_v3_contracts : list (string * string) :=
  [ ("cusdc_v3", "0xc3d688b66703497daa19211eedff47f25384cae7");
    ("ceth_v3", "0xa17581a9e3356d9a858b789d68b4d866e593ae94") ].

(** The elements of the set [compound_addresses]. *)
Definition compound_addresses : list string :=
  map snd compound_v2_contracts ++ map snd compound_v3_contracts.

(** [method_signatures]. *)
Definition method_signatures : list (string * string) :=
  [ ("0xa0712d68", "mint");
    ("0x1249c58b", "mint");
    ("0x6c540baf", "mint");
    ("0xdb006a75", "redeem");
    ("0x852a12e3", "redeemUnderlying");
    ("0xc5ebeaec", "borrow");
    ("0x0e752702", "repayBorrow");
    ("0x4e4d9fea", "repayBorrow");
    ("0x2608f818", "repayBorrowBehalf");
    ("0x47ef3b3b", "liquidateBorrow");
    ("0x317b0b77", "enterMarkets");
    ("0xede4edd0", "exitMarket") ].

(** Classify a Compound transaction by its method signature, the first ten
    characters of the input data. *)
Definition _classify_compound_action (input_data : string)
  (tx : RawTransaction) : string :=
  if String.eqb input_data "" || String.eqb input_data "0x" then "unknown"
  else
    let method_sig := substring 0 10 input_data in
    let action := dict_get (assoc method_sig method_signatures) "unknown" in
    (* Additional classification based on value *)
    if String.eqb action "unknown" then
      let value := dict_get (raw_value tx) 0%Z in
      if (0 <? value)%Z then "supply_eth" else "interact"
    else action.

(** A transaction as the explorer returns it and as
    [filter_compound_transactions] annotates it: the keys that the normaliser
    reads later, the input data, and the [wallet_address] key that the filter
    adds. *)
Record EtherscanTransaction : Type := mkEtherscanTransaction {
  etx_fields : RawTransaction;
  etx_input : option string;
  etx_wallet_address : option string
}.

(** [tx['compound_action'] = action]. *)
Definition set_compound_action (tx : RawTransaction) (action : string)
  : RawTransaction :=
  {| raw_hash := raw_hash tx;
     raw_blockNumber := raw_blockNumber tx;
     raw_timeStamp := raw_timeStamp tx;
     raw_from := raw_from tx;
     raw_to := raw_to tx;
     raw_value := raw_value tx;
     raw_gasUsed := raw_gasUsed tx;
     raw_gasPrice := raw_gasPrice tx;
     raw_compound_action := Some action;
     raw_isError := raw_isError tx;
     raw_type := raw_type tx;
     raw_tokenDecimal := raw_tokenDecimal tx;
     raw_tokenSymbol := raw_tokenSymbol tx;
     raw_contractAddress := raw_contractAddress tx |}.

(** [x in [addr.lower() for addr in compound_addresses]]. *)
Definition is_compound_address (x : string) : bool :=
  existsb (String.eqb x) (map lower compound_addresses).

(** The test of the loop of [filter_compound_transactions]. *)
Definition involves_compound (tx : EtherscanTransaction) : bool :=
  let to_address := lower (dict_get (raw_to (etx_fields tx)) "") in
  let from_address := lower (dict_get (raw_from (etx_fields tx)) "") in
  let contract_address :=
    lower (dict_get (raw_contractAddress (etx_fields tx)) "") in
  is_compound_address to_address
  || is_compound_address from_address
  || is_compound_address contract_address.

(** The two assignments made on a transaction that is kept. *)
Definition annotate (wallet_address : string) (tx : EtherscanTransaction)
  : EtherscanTransaction :=
  let input_data := dict_get (etx_input tx) "" in
  {| etx_fields :=
       set_compound_action (etx_fields tx)
         (_classify_compound_action input_data (etx_fields tx));
     etx_input := etx_input tx;
     etx_wallet_address := Some (lower wallet_address) |}.

(** Filter the transactions related to the Compound protocol. *)
Fixpoint filter_compound_transactions
  (transactions : list EtherscanTransaction) (wallet_address : string)
  : list EtherscanTransaction :=
  match transactions with
  | [] => []
  | tx :: rest =>
      if involves_compound tx
      then annotate wallet_address tx
           :: filter_compound_transactions rest wallet_address
      else filter_compound_transactions rest wallet_address
  end.

(** The two keys of the dictionary built by [fetch_wallet_data] that
    [process_wallet_data] reads, from the transactions that
    [fetch_etherscan_transactions] returned for the address. *)
Definition fetched_wallet (wallet_address : string)
  (all_transactions : list EtherscanTransaction) : Wallet :=
  let compound_transactions :=
    filter_compound_transactions all_transactions wallet_address in
  {| address := wallet_address;
     transactions := Some (map etx_fields compound_transactions) |}.

(* ================================================================== *)
(** ** score_calculator.py: distribution and explanation *)

(** A cell of a table, as [row[key]] returns it. *)
Inductive value : Type :=
| VNum (x : cell)
| VInt (z : Z)
| VStr (s : string).

Definition value_at (c : column) (i : nat) : option value :=
  match c with
  | NumCol v => option_map VNum (nth_error v i)
  | IntCol v => option_map VInt (nth_error v i)
  | StrCol v => option_map VStr (nth_error v i)
  end.

(** [row[key]] on the [i]-th row of a table. *)
Definition row_getitem (df : DataFrame) (i : nat) (key : string)
  : result value :=
  c <- getitem df key ;;
  match value_at c i with
  | Some v => Ok v
  | None => Raise (KeyError key)
  end.

(** [float(v)]. *)
Definition to_float (v : value) : result cell :=
  match v with
  | VNum x => Ok x
  | VInt z => Ok (of_int z)
  | VStr _ => Raise (ValueError "could not convert string to float")
  end.

(** Truncation toward zero. *)
Definition Qtruncate (q : Q) : Z :=
  if Qle_bool 0 q then Qfloor q else Qceiling q.

(** [int(v)]. *)
Definition to_int (v : value) : result Z :=
  match v with
  | VNum (Num q) => Ok (Qtruncate q)
  | VNum NaN => Raise (ValueError "cannot convert float NaN to integer")
  | VInt z => Ok z
  | VStr _ => Raise (ValueError "invalid literal for int()")
  end.

(** [len(scores[(scores >= lo) & (scores < hi)])]. *)
Definition count_between (scores : list Z) (lo hi : Z) : Z :=
  len (filter (fun s => (lo <=? s)%Z && (s <? hi)%Z) scores).

(** The ten entries of [score_ranges]; the last range is closed at 1000. *)
Definition score_ranges_of (scores : list Z) : list (string * Z) :=
  [ ("0-100", count_between scores 0 100);
    ("100-200", count_between scores 100 200);
    ("200-300", count_between scores 200 300);
    ("300-400", count_between scores 300 400);
    ("400-500", count_between scores 400 500);
    ("500-600", count_between scores 500 600);
    ("600-700", count_between scores 600 700);
    ("700-800", count_between scores 700 800);
    ("800-900", count_between scores 800 900);
    ("900-1000",
     len (filter (fun s => (900 <=? s)%Z && (s <=? 1000)%Z) scores)) ].

(** [Series.value_counts().to_dict()]: the number of rows of each distinct
    value.  The keys are listed in the order of their first occurrence; the
    order pandas gives them (by decreasing count) is not modelled. *)
Definition value_counts (l : list string) : list (string * Z) :=
  map (fun k => (k, len (filter (String.eqb k) l)))
      (rev (nodup string_dec (rev l))).

(** [Series.median()] of integers. *)
Definition median (l : list Z) : cell :=
  let s := stable_sort Z.leb l in
  let n := List.length s in
  match n with
  | O => NaN
  | _ =>
      if Nat.even n
      then Num ((inject_Z (nth (n / 2 - 1) s 0%Z)
                 + inject_Z (nth (n / 2) s 0%Z)) / 2)
      else Num (inject_Z (nth (n / 2) s 0%Z))
  end.

(** [int(Series.min())] and [int(Series.max())]: the reduction of an empty
    series is NaN, which [int] refuses. *)
Definition int_min (l : list Z) : result Z :=
  match l with
  | [] => Raise (ValueError "cannot convert float NaN to integer")
  | x :: t => Ok (fold_left Z.min t x)
  end.

Definition int_max (l : list Z) : result Z :=
  match l with
  | [] => Raise (ValueError "cannot convert float NaN to integer")
  | x :: t => Ok (fold_left Z.max t x)
  end.

Record Distribution : Type := mkDistribution {
  total_wallets : Z;
  mean_score : cell;
  median_score : cell;
  std_score : cell;
  min_score : Z;
  max_score : Z;
  score_ranges : list (string * Z);
  risk_categories : list (string * Z)
}.

(** The [score] column of a table written by [calculate_scores], which
    stores it as integers. *)
Definition score_column (df : DataFrame) : result (list Z) :=
  c <- getitem df "score" ;;
  match c with
  | IntCol v => Ok v
  | NumCol _ | StrCol _ => Raise (TypeError "score")
  end.

Definition category_column (df : DataFrame) : result (list string) :=
  c <- getitem df "risk_category" ;;
  match c with
  | StrCol v => Ok v
  | NumCol _ | IntCol _ => Raise (TypeError "risk_category")
  end.

Section Reports.

Variable sqrt : Q -> Q.

(** Distribution statistics of the calculated scores; [scores] is
    [self.scores], [None] until [calculate_scores] has run. *)
Definition get_score_distribution (self_scores : option DataFrame)
  : result Distribution :=
  match self_scores with
  | None => Raise (ValueError "Scores must be calculated first")
  | Some df =>
      scores <- score_column df ;;
      lo <- int_min scores ;;
      hi <- int_max scores ;;
      categories <- category_column df ;;
      Ok {| total_wallets := len scores;
            mean_score := mean (map inject_Z scores);
            median_score := median scores;
            std_score := std sqrt (map inject_Z scores);
            min_score := lo;
            max_score := hi;
            score_ranges := score_ranges_of scores;
            risk_categories := value_counts categories |}
  end.

End Reports.

Record Explanation : Type := mkExplanation {
  ex_wallet_id : string;
  ex_score : Z;
  ex_risk_category : value;
  ex_liquidation_risk : cell;
  ex_behavioral_risk : cell;
  ex_financial_health : cell;
  ex_repayment_behavior : cell;
  ex_experience_level : cell;
  ex_anomaly_score : cell;
  ex_total_transactions : Z;
  ex_account_age_days : Z;
  ex_liquidation_count : Z;
  ex_success_rate : cell;
  ex_interpretation : string
}.

(** The position of the first [true] of a mask. *)
Fixpoint first_true (mask : list bool) : option nat :=
  match mask with
  | [] => None
  | true :: _ => Some O
  | false :: t => option_map S (first_true t)
  end.

(** [self.scores['wallet_id'] == key]: a cell that is not that string does
    not match. *)
Definition mask_is (c : column) (key : string) : list bool :=
  match c with
  | StrCol v => map (fun s => String.eqb s key) v
  | NumCol v => map (fun _ => false) v
  | IntCol v => map (fun _ => false) v
  end.

(** The score interpretation of [explain_score], on the value of the
    [score] cell. *)
Definition interpret (score : value) : result string :=
  match score with
  | VInt z => Ok (interpretation z)
  | VNum (Num q) => Ok (interpretation (if Qle_bool 800 q then 800
                                        else if Qle_bool 600 q then 600
                                        else if Qle_bool 400 q then 400
                                        else if Qle_bool 200 q then 200
                                        else 0))
  | VNum NaN => Ok (interpretation 0)
  | VStr _ => Raise (TypeError "score")
  end.

(** Detailed explanation of a wallet's score. *)
Definition explain_score (self_scores : option DataFrame)
  (wallet_address : string) : result Explanation :=
  match self_scores with
  | None => Raise (ValueError "Scores must be calculated first")
  | Some df =>
      ids <- getitem df "wallet_id" ;;
      match first_true (mask_is ids (lower wallet_address)) with
      | None =>
          Raise (ValueError ("Wallet " ++ wallet_address ++ " not found"))
      | Some i =>
          score <- row_getitem df i "score" ;;
          score_int <- to_int score ;;
          category <- row_getitem df i "risk_category" ;;
          v1 <- row_getitem df i "liquidation_risk_component" ;;
          liquidation <- to_float v1 ;;
          v2 <- row_getitem df i "behavioral_risk_component" ;;
          behavioral <- to_float v2 ;;
          v3 <- row_getitem df i "financial_health_component" ;;
          health <- to_float v3 ;;
          v4 <- row_getitem df i "repayment_behavior_component" ;;
          repayment <- to_float v4 ;;
          v5 <- row_getitem df i "experience_component" ;;
          experience <- to_float v5 ;;
          v6 <- row_getitem df i "anomaly_score" ;;
          anomaly <- to_float v6 ;;
          v7 <- row_getitem df i "total_transactions" ;;
          total <- to_int v7 ;;
          v8 <- row_getitem df i "account_age_days" ;;
          age <- to_int v8 ;;
          v9 <- row_getitem df i "liquidation_count" ;;
          liquidations <- to_int v9 ;;
          v10 <- row_getitem df i "success_rate" ;;
          success <- to_float v10 ;;
          text <- interpret score ;;
          Ok {| ex_wallet_id := wallet_address;
                ex_score := score_int;
                ex_risk_category := category;
                ex_liquidation_risk := liquidation;
                ex_behavioral_risk := behavioral;
                ex_financial_health := health;
                ex_repayment_behavior := repayment;
                ex_experience_level := experience;
                ex_anomaly_score := anomaly;
                ex_total_transactions := total;
                ex_account_age_days := age;
                ex_liquidation_count := liquidations;
                ex_success_rate := success;
                ex_interpretation := text |}
      end
  end.

(* ================================================================== *)
(** ** main.py: steps 3 to 5 *)

Section Pipeline.

Variable sqrt : Q -> Q.
Variable scaler_fit_transform : list (list Q) -> result (list (list Q)).
Variable anomaly_detector_decision_function :
  list (list Q) -> result (list Q).

(** From the fetched wallet data to the table of final scores. *)
Definition score_wallets (wallet_data : list Wallet) : result DataFrame :=
  (* Step 3: Process transaction data *)
  let transaction_df := process_wallet_data wallet_data in
  let wallet_metrics := calculate_wallet_metrics sqrt transaction_df in
  (* Step 4: Risk analysis *)
  risk_features <- calculate_risk_features wallet_metrics ;;
  anomaly_scores <-
    detect_anomalies scaler_fit_transform anomaly_detector_decision_function
                     risk_features ;;
  (* Step 5: Calculate final scores *)
  calculate_scores risk_features anomaly_scores.

End Pipeline.

(* ================================================================== *)
(** ** Vocabulary of the further statements *)

(** A number between 0 and 1. *)
Definition in_unit (x : cell) : Prop :=
  match x with
  | Num q => 0 <= q <= 1
  | NaN => False
  end.

Definition is_num (x : cell) : Prop :=
  match x with
  | Num _ => True
  | NaN => False
  end.

(** The columns of a table all have one cell per row. *)
Definition column_length (c : column) : nat :=
  match c with
  | NumCol v => List.length v
  | IntCol v => List.length v
  | StrCol v => List.length v
  end.

Definition well_formed (df : DataFrame) : Prop :=
  Forall (fun kc => column_length (snd kc) = nrows df) (columns df).

(** The labels that [_classify_compound_action] can return. *)
Definition action_labels : list string :=
  [ "unknown"; "mint"; "redeem"; "redeemUnderlying"; "borrow"; "repayBorrow";
    "repayBorrowBehalf"; "liquidateBorrow"; "enterMarkets"; "exitMarket";
    "supply_eth"; "interact" ].

(** The five risk categories. *)
Definition risk_labels : list string :=
  [ "Low Risk"; "Medium-Low Risk"; "Medium Risk"; "High Risk";
    "Very High Risk" ].

(** The eight columns that [calculate_risk_features] adds. *)
Definition score_names : list string :=
  [ "liquidation_risk_score"; "behavioral_risk_score";
    "financial_health_score"; "activity_pattern_risk";
    "repayment_behavior_score"; "experience_score";
    "diversification_score"; "bot_behavior_score" ].

Definition Zsum (l : list Z) : Z := fold_right Z.add 0%Z l.

Definition unit_or_nan (x : cell) : Prop := x = NaN \/ in_unit x.

(** The eight sub-score functions under the names of their columns. *)
Definition sub_scores : list (string * (DataFrame -> result (list cell))) :=
  [ ("liquidation_risk_score", _calculate_liquidation_risk);
    ("behavioral_risk_score", _calculate_behavioral_risk);
    ("financial_health_score", _calculate_financial_health);
    ("activity_pattern_risk", _calculate_activity_pattern_risk);
    ("repayment_behavior_score", _calculate_repayment_behavior);
    ("experience_score", _calculate_experience_score);
    ("diversification_score", _calculate_diversification_score);
    ("bot_behavior_score", _calculate_bot_behavior_score) ].

(** Two wallets with transactions. *)
Definition two_active : list Wallet :=
  [ mkWallet "0xb"
      (Some [sample_tx 0 "mint"; sample_tx 86400 "repayBorrow"]);
    mkWallet "0xd"
      (Some [sample_tx 10 "borrow"; sample_tx 20 "liquidateBorrow";
             sample_tx 30 "liquidateBorrow"]) ].

(** A stand-in for the forest that gives row [i] the decision score [i]. *)
Definition ramp_forest (X : list (list Q)) : result (list Q) :=
  Ok (map (fun i => inject_Z (Z.of_nat i)) (seq 0 (List.length (hd [] X)))).

(** Stand-ins for estimators that refuse every input. *)
Definition failing_scaler (X : list (list Q)) : result (list (list Q)) :=
  Raise (ValueError "scaler").

Definition failing_forest (X : list (list Q)) : result (list Q) :=
  Raise (ValueError "forest").

(** A wallet whose address is spelled with upper-case letters. *)
Definition mixed_case_wallet : DataFrame :=
  risk_frame ["0xAB"] [0] [0] [1] [0] [1] [1] [1].

(** A table of risk features without any wallet. *)
Definition no_wallet : DataFrame := risk_frame [] [] [] [] [] [] [] [].


(** The number of samples of a matrix held as the list of its columns. *)
Definition n_samples (X : list (list Q)) : nat := List.length (hd [] X).

(** A call of mint on cETH with its address in mixed case, and a transfer
    between two accounts that are not Compound contracts. *)
Definition ceth_mint : EtherscanTransaction :=
  {| etx_fields :=
       {| raw_hash := Some "0x5e";
          raw_blockNumber := Some 7710760%Z;
          raw_timeStamp := Some 1557192000%Z;
          raw_from := Some "0xA1";
          raw_to := Some "0x4Ddc2D193948926D02f9B1fE9e1daa0718270ED5";
          raw_value := Some 1000000000000000000%Z;
          raw_gasUsed := Some 21000%Z;
          raw_gasPrice := Some 1000000000%Z;
          raw_compound_action := None;
          raw_isError := Some 0%Z;
          raw_type := None;
          raw_tokenDecimal := None;
          raw_tokenSymbol := None;
          raw_contractAddress := Some "" |};
     etx_input := Some "0x1249c58b";
     etx_wallet_address := None |}.

Definition plain_transfer : EtherscanTransaction :=
  {| etx_fields := sample_tx 0 "mint";
     etx_input := Some "0x";
     etx_wallet_address := None |}.

(** An address of the batch that comes with at least one transaction. *)
Definition active (wallet_data : list Wallet) (a : string) : Prop :=
  exists w, In w wallet_data /\ address w = a /\ wallet_transactions w <> [].

(** Three wallets with transactions, and the same batch with a wallet that
    has none. *)
Definition three_active : list Wallet :=
  two_active ++ [ mkWallet "0xe" (Some [sample_tx 5 "mint"]) ].

Definition idle_among_active : list Wallet :=
  mkWallet "0xa" (Some []) :: three_active.

(** The number of actions that the four action ratios are taken of. *)
Definition counted_actions (m : WalletMetrics) : Z :=
  (mint_count m + redeem_count m + redeemUnderlying_count m + borrow_count m
   + repayBorrow_count m)%Z.

(** The seven columns that [_calculate_composite_score] reads. *)
Definition composite_components : list string :=
  [ "liquidation_risk_score"; "behavioral_risk_score";
    "activity_pattern_risk"; "financial_health_score";
    "repayment_behavior_score"; "experience_score";
    "diversification_score" ].
(* ================================================================== *)
(** * Properties *)

(** ** The stable sort *)

Section StableSortFacts.
Context {A : Type}.
Variable leb : A -> A -> bool.
Hypothesis leb_total : forall x y, leb x y = true \/ leb y x = true.

Lemma insert_sorted_perm (x : A) (l : list A) :
  Permutation (x :: l) (insert_sorted leb x l).
Proof.
  induction l as [|y t IH]; simpl.
  - apply Permutation_refl.
  - destruct (leb x y).
    + apply Permutation_refl.
    + eapply perm_trans; [apply perm_swap|].
      now apply perm_skip.
Qed.

Lemma stable_sort_perm (l : list A) : Permutation l (stable_sort leb l).
Proof.
  induction l as [|x t IH]; simpl.
  - constructor.
  - eapply perm_trans; [|apply insert_sorted_perm].
    now apply perm_skip.
Qed.

Lemma insert_sorted_hd (x a : A) (l : list A) :
  leb a x = true ->
  HdRel (fun u v => leb u v = true) a l ->
  HdRel (fun u v => leb u v = true) a (insert_sorted leb x l).
Proof.
  intros Hax Hal.
  destruct l as [|y t]; simpl.
  - now constructor.
  - destruct (leb x y); constructor; trivial.
    now inversion Hal.
Qed.

Lemma insert_sorted_sorted (x : A) (l : list A) :
  Sorted (fun u v => leb u v = true) l ->
  Sorted (fun u v => leb u v = true) (insert_sorted leb x l).
Proof.
  induction 1 as [|y t Ht IH Hy]; simpl.
  - repeat constructor.
  - destruct (leb x y) eqn:E.
    + constructor; [now constructor|now constructor].
    + constructor; trivial.
      apply insert_sorted_hd; trivial.
      destruct (leb_total x y) as [H|H]; congruence.
Qed.

Lemma stable_sort_sorted (l : list A) :
  Sorted (fun u v => leb u v = true) (stable_sort leb l).
Proof.
  induction l as [|x t IH]; simpl.
  - constructor.
  - now apply insert_sorted_sorted.
Qed.

(** Stability: when a predicate that holds of [x] fails on every element
    that the insertion lets pass ahead of [x], it selects the same sublist
    after the insertion as before. *)
Lemma insert_sorted_filter (p : A -> bool) (x : A) (l : list A) :
  (forall y, leb x y = false -> p x = true -> p y = false) ->
  filter p (insert_sorted leb x l) = filter p (x :: l).
Proof.
  intros Hp.
  induction l as [|y t IH]; simpl; trivial.
  destruct (leb x y) eqn:E; simpl; trivial.
  rewrite IH. simpl.
  destruct (p x) eqn:Px; trivial.
  now rewrite (Hp y E eq_refl).
Qed.

Lemma stable_sort_filter (p : A -> bool) (l : list A) :
  (forall x y, leb x y = false -> p x = true -> p y = false) ->
  filter p (stable_sort leb l) = filter p l.
Proof.
  intros Hp.
  induction l as [|x t IH]; simpl; trivial.
  rewrite insert_sorted_filter by (apply Hp).
  simpl. now rewrite IH.
Qed.

End StableSortFacts.

(** ** The order on sort keys *)

Lemma ascii_compare_trans (a b c : ascii) :
  Ascii.compare a b = Lt -> Ascii.compare b c = Lt -> Ascii.compare a c = Lt.
Proof.
  unfold Ascii.compare. rewrite !N.compare_lt_iff. apply N.lt_trans.
Qed.

Lemma ascii_compare_eq (a b : ascii) : Ascii.compare a b = Eq -> a = b.
Proof. apply Ascii.compare_eq_iff. Qed.

Lemma ascii_compare_refl (a : ascii) : Ascii.compare a a = Eq.
Proof. unfold Ascii.compare. apply N.compare_refl. Qed.

Lemma string_compare_refl (s : string) : String.compare s s = Eq.
Proof.
  induction s as [|c s IH]; simpl; trivial.
  now rewrite ascii_compare_refl.
Qed.

Lemma string_compare_lt_trans (s1 s2 s3 : string) :
  String.compare s1 s2 = Lt -> String.compare s2 s3 = Lt ->
  String.compare s1 s3 = Lt.
Proof.
  revert s2 s3.
  induction s1 as [|c1 s1 IH]; intros [|c2 s2] [|c3 s3]; simpl;
    try congruence.
  destruct (Ascii.compare c1 c2) eqn:E12; try congruence;
    destruct (Ascii.compare c2 c3) eqn:E23; try congruence; intros H1 H2.
  - apply ascii_compare_eq in E12, E23. subst.
    rewrite ascii_compare_refl. eauto.
  - apply ascii_compare_eq in E12. subst. now rewrite E23.
  - apply ascii_compare_eq in E23. subst. now rewrite E12.
  - now rewrite (ascii_compare_trans _ _ _ E12 E23).
Qed.

Lemma key_leb_spec (k1 k2 : string * Z) :
  key_leb k1 k2 = true <-> key_le k1 k2.
Proof.
  unfold key_leb, key_le.
  destruct (String.compare (fst k1) (fst k2)) eqn:E.
  - apply String.compare_eq_iff in E. rewrite Z.leb_le.
    split; [now right|]. intros [H|[_ H]]; [discriminate|trivial].
  - split; [now left|trivial].
  - split; [discriminate|].
    intros [H|[H _]]; [discriminate|].
    rewrite H, string_compare_refl in E. discriminate.
Qed.

Lemma key_leb_total (k1 k2 : string * Z) :
  key_leb k1 k2 = true \/ key_leb k2 k1 = true.
Proof.
  unfold key_leb.
  rewrite (String.compare_antisym (fst k2) (fst k1)).
  destruct (String.compare (fst k1) (fst k2)); simpl; auto.
  rewrite !Z.leb_le. lia.
Qed.

Lemma key_le_trans (k1 k2 k3 : string * Z) :
  key_le k1 k2 -> key_le k2 k3 -> key_le k1 k3.
Proof.
  unfold key_le.
  intros [H1|[E1 L1]] [H2|[E2 L2]].
  - left. eapply string_compare_lt_trans; eauto.
  - left. now rewrite <- E2.
  - left. now rewrite E1.
  - right. split; [congruence|lia].
Qed.

Lemma key_leb_false_neq (k1 k2 : string * Z) :
  key_leb k1 k2 = false -> k1 <> k2.
Proof.
  intros H E. subst.
  destruct (key_leb_total k2 k2); congruence.
Qed.

Lemma key_le_tx_trans : Relations_1.Transitive tx_le.
Proof. intros x y z. apply key_le_trans. Qed.

Lemma key_eqb_eq (k1 k2 : string * Z) : key_eqb k1 k2 = true <-> k1 = k2.
Proof.
  destruct k1 as [a1 t1], k2 as [a2 t2]. unfold key_eqb. simpl.
  rewrite andb_true_iff, String.eqb_eq, Z.eqb_eq.
  split; [intros [-> ->]; trivial | intros [= -> ->]; auto].
Qed.

Lemma sort_values_perm (df : list NormalizedTransaction) :
  Permutation df (sort_values df).
Proof. apply stable_sort_perm. Qed.

Lemma sort_values_sorted (df : list NormalizedTransaction) :
  StronglySorted tx_le (sort_values df).
Proof.
  apply Sorted_StronglySorted; [exact key_le_tx_trans|].
  pose proof (stable_sort_sorted tx_leb
                (fun x y => key_leb_total (sort_key x) (sort_key y)) df) as H.
  unfold sort_values.
  induction H as [|t l Hl IH Ht]; constructor; trivial.
  destruct Ht as [|u l Hu]; constructor.
  now apply key_leb_spec.
Qed.

Lemma sort_values_stable (k : string * Z) (df : list NormalizedTransaction) :
  rows_at k (sort_values df) = rows_at k df.
Proof.
  apply stable_sort_filter.
  intros x y Hxy Hx.
  apply key_eqb_eq in Hx.
  apply key_leb_false_neq in Hxy.
  destruct (key_eqb (sort_key y) k) eqn:E; trivial.
  apply key_eqb_eq in E. congruence.
Qed.

Lemma process_wallet_data_unfold (wallet_data : list Wallet) :
  process_wallet_data wallet_data = sort_values (all_transactions wallet_data).
Proof.
  unfold process_wallet_data.
  destruct (all_transactions wallet_data) as [|t l] eqn:E; reflexivity.
Qed.

(** C8. The table returned by [process_wallet_data] holds the transactions of
    the input, each once, in ascending order of (wallet_address, timestamp);
    the rows that share a wallet address and a timestamp stand in the order
    they had in the input. *)
Theorem process_wallet_data_sorted_stable (wallet_data : list Wallet) :
  Permutation (all_transactions wallet_data) (process_wallet_data wallet_data)
  /\ StronglySorted tx_le (process_wallet_data wallet_data)
  /\ forall k : string * Z,
       rows_at k (process_wallet_data wallet_data)
       = rows_at k (all_transactions wallet_data).
Proof.
  rewrite process_wallet_data_unfold.
  split; [apply sort_values_perm|].
  split; [apply sort_values_sorted|].
  intros k. apply sort_values_stable.
Qed.

(** ** Wallets, rows and groups *)

Lemma all_transactions_addresses (wallet_data : list Wallet) (a : string) :
  In a (map tx_wallet_address (all_transactions wallet_data))
  <-> exists w, In w wallet_data /\ address w = a
                /\ wallet_transactions w <> [].
Proof.
  unfold all_transactions, wallet_transactions.
  rewrite in_map_iff. split.
  - intros (t & Ha & Ht). apply in_flat_map in Ht.
    destruct Ht as (w & Hw & Ht). apply in_map_iff in Ht.
    destruct Ht as (r & Hr & Hin). exists w. subst. simpl.
    repeat split; trivial.
    intros E. rewrite E in Hin. contradiction.
  - intros (w & Hw & Ha & Hne).
    destruct (dict_get (transactions w) []) as [|r l] eqn:E; [congruence|].
    exists (processed_tx (address w) r). split; [now subst|].
    apply in_flat_map. exists w. split; trivial.
    rewrite E. now left.
Qed.

Lemma unique_sorted_In (l : list string) (a : string) :
  In a (unique_sorted l) <-> In a l.
Proof.
  unfold unique_sorted. rewrite <- (nodup_In string_dec l a). split.
  - apply Permutation_in, Permutation_sym, stable_sort_perm.
  - apply Permutation_in, stable_sort_perm.
Qed.

Section MetricsFacts.
Variable sqrt : Q -> Q.

Lemma wallet_metrics_addresses (df : list NormalizedTransaction) :
  map wallet_address (wallet_metrics sqrt df)
  = unique_sorted (map tx_wallet_address df).
Proof.
  unfold wallet_metrics, groupby_wallet_address.
  rewrite !map_map. simpl. apply map_id.
Qed.

Lemma calculate_wallet_metrics_empty :
  calculate_wallet_metrics sqrt [] = empty_frame.
Proof. reflexivity. Qed.

Lemma calculate_wallet_metrics_rows (df : list NormalizedTransaction) :
  df <> [] ->
  calculate_wallet_metrics sqrt df
  = DataFrame_of_metrics (wallet_metrics sqrt df).
Proof. destruct df; [congruence|reflexivity]. Qed.

Lemma wallet_address_column (ms : list WalletMetrics) :
  getitem (DataFrame_of_metrics ms) "wallet_address"
  = Ok (StrCol (map wallet_address ms)).
Proof. reflexivity. Qed.

Lemma metrics_of_no_transaction (a : string) :
  total_transactions (_calculate_single_wallet_metrics sqrt a []) = 0%Z
  /\ cell_eq (success_rate (_calculate_single_wallet_metrics sqrt a []))
             (Num 0).
Proof. split; reflexivity. Qed.

End MetricsFacts.

(** ** The empty batch *)

Lemma no_transaction_no_row (wallet_data : list Wallet) :
  (forall w, In w wallet_data -> wallet_transactions w = []) ->
  process_wallet_data wallet_data = [].
Proof.
  intros H.
  assert (E : all_transactions wallet_data = []).
  { unfold all_transactions.
    induction wallet_data as [|w l IH]; simpl; trivial.
    rewrite IH by (intros; apply H; now right).
    unfold wallet_transactions in H. rewrite (H w) by now left.
    reflexivity. }
  unfold process_wallet_data. now rewrite E.
Qed.

Lemma risk_features_of_empty_frame :
  calculate_risk_features empty_frame = Raise (KeyError "liquidation_count").
Proof. reflexivity. Qed.

(** C6. On a batch without any transaction (no wallet, or wallets whose
    lists are empty) the normaliser and the metrics aggregator return their
    empty tables, and [calculate_risk_features] raises KeyError on the
    column-less table it is handed: the stage fails instead of returning an
    empty result. *)
Theorem empty_batch_raises (sqrt : Q -> Q) (wallet_data : list Wallet) :
  (forall w, In w wallet_data -> wallet_transactions w = []) ->
  process_wallet_data wallet_data = []
  /\ calculate_wallet_metrics sqrt (process_wallet_data wallet_data)
     = empty_frame
  /\ calculate_risk_features
       (calculate_wallet_metrics sqrt (process_wallet_data wallet_data))
     = Raise (KeyError "liquidation_count").
Proof.
  intros H. rewrite (no_transaction_no_row _ H).
  repeat split.
Qed.

(** C6, on the batch whose only wallet has no transaction. *)
Lemma empty_batch_raises_witness :
  (forall w, In w idle_only -> wallet_transactions w = [])
  /\ calculate_risk_features
       (calculate_wallet_metrics Qsqrt53 (process_wallet_data idle_only))
     = Raise (KeyError "liquidation_count").
Proof.
  assert (H : forall w, In w idle_only -> wallet_transactions w = []).
  { intros w [<-|[]]. reflexivity. }
  split; [exact H|].
  exact (proj2 (proj2 (empty_batch_raises Qsqrt53 idle_only H))).
Defined.

(** ** Series, row by row *)

Lemma nth_error_zip_with {A B C : Type} (f : A -> B -> C)
  (l : list A) (l' : list B) (i : nat) :
  nth_error (zip_with f l l') i
  = match nth_error l i, nth_error l' i with
    | Some a, Some b => Some (f a b)
    | _, _ => None
    end.
Proof.
  revert l' i.
  induction l as [|a t IH]; intros [|b t'] [|i]; simpl; trivial.
  now destruct (nth_error t i).
Qed.

Lemma length_zip_with {A B C : Type} (f : A -> B -> C)
  (l : list A) (l' : list B) :
  List.length (zip_with f l l') = Nat.min (List.length l) (List.length l').
Proof.
  revert l'. induction l as [|a t IH]; intros [|b t']; simpl; auto.
Qed.

Lemma nth_error_zeros (n i : nat) :
  (i < n)%nat -> nth_error (zeros n) i = Some (Num 0).
Proof. apply nth_error_repeat. Qed.

Create HintDb series discriminated.
#[local] Hint Unfold vclip vadd vsub vscale rsub vsubc vdivc zeros ones
  mask_gt mask_ge mask_lt mask_le mask_eq mask_and mask_not
  add_where sub_where set_where : series.

(** Reads the [i]-th cell of an expression built from the columns of a
    metrics table, given the row [H : nth_error ms i = Some m]. *)
Ltac row_of H :=
  autounfold with series;
  repeat (rewrite nth_error_zip_with || rewrite nth_error_map);
  rewrite ?(nth_error_repeat _ (proj1 (nth_error_Some _ _)
                                  ltac:(rewrite H; discriminate)));
  rewrite ?H; cbn [option_map].

Ltac series_length :=
  autounfold with series;
  repeat (rewrite length_zip_with || rewrite length_map
          || rewrite repeat_length || rewrite Nat.min_id);
  trivial.

(** ** Arithmetic of cells *)

Lemma true_div_pos (a b : Z) :
  (0 < b)%Z -> true_div a b = Num (inject_Z a / inject_Z b).
Proof.
  intros Hb. unfold true_div, of_int, fdiv.
  destruct (Qeq_bool (inject_Z b) 0) eqn:E; trivial.
  apply Qeq_bool_eq in E. unfold Qeq in E. simpl in E. lia.
Qed.

Lemma Qdiv_nonneg (a b : Z) :
  (0 <= a)%Z -> (0 < b)%Z -> 0 <= inject_Z a / inject_Z b.
Proof.
  intros Ha Hb. apply Qle_shift_div_l.
  - change 0 with (inject_Z 0). rewrite <- Zlt_Qlt. trivial.
  - rewrite Qmult_0_l. change 0 with (inject_Z 0). now rewrite <- Zle_Qle.
Qed.

Lemma clip_above (q : Q) : 1 < q -> clip (Num q) 0 1 = Num 1.
Proof.
  intros H. unfold clip, Qmax, Qmin, GenericMinMax.gmax, GenericMinMax.gmin.
  assert (H0 : (q ?= 0) = Gt) by (apply Qgt_alt; lra).
  rewrite H0.
  assert (H1 : (q ?= 1) = Gt) by (now apply Qgt_alt).
  now rewrite H1.
Qed.

Lemma clip_unit (q : Q) : q == 1 -> cell_eq (clip (Num q) 0 1) (Num 1).
Proof.
  intros H. simpl. rewrite H.
  rewrite Q.max_l by lra. apply Q.min_id.
Qed.

Lemma len_nonneg {A : Type} (l : list A) : (0 <= len l)%Z.
Proof. unfold len. lia. Qed.

(** ** The columns of a metrics table *)

Section Rows.
Variable sqrt : Q -> Q.


Lemma metrics_liquidation (a : string) (txs : list NormalizedTransaction) :
  liquidation_rate (_calculate_single_wallet_metrics sqrt a txs)
  = true_div (liquidation_count (_calculate_single_wallet_metrics sqrt a txs))
             (Z.max (total_transactions (_calculate_single_wallet_metrics sqrt a txs)) 1)
  /\ has_liquidations (_calculate_single_wallet_metrics sqrt a txs)
     = (if (0 <? liquidation_count (_calculate_single_wallet_metrics sqrt a txs))%Z then 1 else 0)%Z
  /\ (0 <= total_transactions (_calculate_single_wallet_metrics sqrt a txs))%Z.
Proof. repeat split. apply len_nonneg. Qed.

Lemma metrics_repay_to_borrow (a : string)
  (txs : list NormalizedTransaction) :
  repay_to_borrow_ratio (_calculate_single_wallet_metrics sqrt a txs)
  = true_div (repayBorrow_count (_calculate_single_wallet_metrics sqrt a txs))
             (Z.max (borrow_count (_calculate_single_wallet_metrics sqrt a txs)) 1).
Proof. reflexivity. Qed.

Lemma liquidation_risk_columns (ms : list WalletMetrics) :
  _calculate_liquidation_risk (DataFrame_of_metrics ms)
  = Ok (vclip
          (vadd
             (vadd
                (vadd (zeros (List.length ms))
                      (vscale (map of_int (map liquidation_count ms)) 0.5))
                (vscale (map liquidation_rate ms) 0.3))
             (vscale (map of_int (map has_liquidations ms)) 0.2))
          0 1).
Proof. reflexivity. Qed.

(** C10. On the metrics of any batch, [_calculate_liquidation_risk] returns
    one score per wallet, and the score of every wallet with
    liquidation_count >= 2 is exactly 1. *)
Theorem liquidation_risk_saturates
  (groups : list (string * list NormalizedTransaction)) :
  exists scores,
    _calculate_liquidation_risk
      (DataFrame_of_metrics (map (fun g => _calculate_single_wallet_metrics sqrt (fst g) (snd g)) groups))
    = Ok scores
    /\ List.length scores = List.length groups
    /\ forall (i : nat) (m : WalletMetrics),
         nth_error (map (fun g => _calculate_single_wallet_metrics sqrt (fst g) (snd g)) groups) i = Some m ->
         (2 <= liquidation_count m)%Z ->
         nth_error scores i = Some (Num 1).
Proof.
  set (ms := map _ groups).
  eexists. split; [apply liquidation_risk_columns|].
  split; [subst ms; series_length|].
  intros i m Hm Hc.
  row_of Hm.
  subst ms.
  assert (Hg : exists g, m = _calculate_single_wallet_metrics sqrt (fst g) (snd g)).
  { rewrite nth_error_map in Hm.
    destruct (nth_error groups i) as [g|]; [|discriminate].
    injection Hm as <-. now exists g. }
  destruct Hg as (g & ->).
  destruct (metrics_liquidation (fst g) (snd g)) as (Hr & Hh & Ht).
  rewrite Hr, Hh.
  set (n := liquidation_count (_calculate_single_wallet_metrics sqrt (fst g) (snd g))) in *.
  set (t := total_transactions (_calculate_single_wallet_metrics sqrt (fst g) (snd g))) in *.
  assert (Hpos : (0 <? n)%Z = true) by (apply Z.ltb_lt; lia).
  rewrite Hpos, true_div_pos by lia.
  f_equal. unfold of_int. cbn [fmul fadd].
  apply clip_above.
  pose proof (Qdiv_nonneg n (Z.max t 1) ltac:(lia) ltac:(lia)) as Hq.
  assert (Hn : 2 <= inject_Z n).
  { change 2 with (inject_Z 2). now rewrite <- Zle_Qle. }
  set (r := inject_Z n / inject_Z (Z.max t 1)) in *.
  change (inject_Z 1) with 1. lra.
Qed.

Lemma repayment_behavior_columns (ms : list WalletMetrics) :
  _calculate_repayment_behavior (DataFrame_of_metrics ms)
  = Ok (vclip
          (add_where
             (mask_eq (map of_int (map liquidation_count ms)) (Num 0)) 0.3
             (add_where
                (mask_not
                   (mask_gt (map of_int (map borrow_count ms)) (Num 0))) 0.2
                (add_where
                   (mask_and
                      (mask_ge (map repay_to_borrow_ratio ms) (Num 0.8))
                      (mask_lt (map repay_to_borrow_ratio ms) (Num 1.0)))
                   0.3
                   (add_where
                      (mask_ge (map repay_to_borrow_ratio ms) (Num 1.0)) 0.5
                      (zeros (List.length ms))))))
          0 1).
Proof. reflexivity. Qed.

(** C4. On the metrics of any batch, [_calculate_repayment_behavior] returns
    one score per wallet; for a wallet with borrow_count = 0,
    repayBorrow_count >= 1 and liquidation_count = 0 the ratio is
    repayBorrow_count / max(0, 1) >= 1 and the score is the sum of the three
    increments 0.5 + 0.2 + 0.3, that is 1 after clipping.  The same three
    additions on binary64 values give 1.0 as well. *)
Theorem repayment_buckets_add_up
  (groups : list (string * list NormalizedTransaction)) :
  exists scores,
    _calculate_repayment_behavior
      (DataFrame_of_metrics
         (map (fun g => _calculate_single_wallet_metrics sqrt (fst g) (snd g))
              groups))
    = Ok scores
    /\ List.length scores = List.length groups
    /\ Binary64.repayment_full = 1%float
    /\ forall (i : nat) (m : WalletMetrics),
         nth_error
           (map (fun g => _calculate_single_wallet_metrics sqrt (fst g) (snd g))
                groups) i = Some m ->
         borrow_count m = 0%Z ->
         (1 <= repayBorrow_count m)%Z ->
         liquidation_count m = 0%Z ->
         (exists r,
             repay_to_borrow_ratio m = Num r
             /\ r == inject_Z (repayBorrow_count m) / inject_Z (Z.max 0 1)
             /\ 1 <= r)
         /\ (exists s,
                nth_error scores i = Some (Num s)
                /\ s == 0.5 + 0.2 + 0.3
                /\ s == 1).
Proof.
  set (ms := map _ groups).
  eexists. split; [apply repayment_behavior_columns|].
  split; [subst ms; series_length|].
  split; [reflexivity|].
  intros i m Hm Hb Hr Hl.
  row_of Hm.
  subst ms.
  assert (Hg : exists g, m = _calculate_single_wallet_metrics sqrt (fst g) (snd g)).
  { rewrite nth_error_map in Hm.
    destruct (nth_error groups i) as [g|]; [|discriminate].
    injection Hm as <-. now exists g. }
  destruct Hg as (g & ->).
  rewrite metrics_repay_to_borrow, Hb, Hl.
  set (n := repayBorrow_count _) in *.
  change (Z.max 0 1) with 1%Z.
  rewrite true_div_pos by lia.
  set (r := inject_Z n / inject_Z 1).
  assert (Hr1 : 1 <= r).
  { unfold r, Qdiv. change (/ inject_Z 1) with 1. rewrite Qmult_1_r.
    change 1 with (inject_Z 1). now rewrite <- Zle_Qle. }
  assert (Hge : fgeb (Num r) (Num 1.0) = true)
    by (apply Qle_bool_iff; lra).
  assert (Hlt : fltb (Num r) (Num 1.0) = false).
  { unfold fltb, fgtb, Qlt_bool.
    change (Qle_bool 1.0 r) with (fgeb (Num r) (Num 1.0)).
    now rewrite Hge. }
  rewrite Hge, Hlt, andb_false_r.
  change (feqb (of_int 0) (Num 0)) with true.
  change (fgtb (of_int 0) (Num 0)) with false.
  cbn [negb fadd].
  split.
  - exists r. split; [reflexivity|]. split; [reflexivity|exact Hr1].
  - eexists. split; [reflexivity|]. split; now vm_compute.
Qed.

End Rows.

(** ** The account age bins *)

Lemma Qle_bool_false (x y : Q) : Qle_bool x y = false -> y < x.
Proof.
  intros H. apply Qnot_le_lt. intros Hle.
  apply Qle_bool_iff in Hle. congruence.
Qed.

Lemma age_bin_loop (x : cell) :
  (let s0 := Num 0 in
   let bin (lo hi : bin_edge) (v : Q) (s : cell) :=
     if gt_edge x lo && le_edge x hi then Num v else s in
   bin (Edge 365) PosInf 1.0
     (bin (Edge 180) (Edge 365) 0.7
        (bin (Edge 90) (Edge 180) 0.5
           (bin (Edge 30) (Edge 90) 0.3
              (bin (Edge 0) (Edge 30) 0.1 s0)))))
  = age_bin x.
Proof.
  destruct x as [q|]; [|reflexivity].
  cbv [gt_edge le_edge fgtb fleb fgeb Qlt_bool is_nan age_bin].
  destruct (Qle_bool q 0) eqn:E0, (Qle_bool q 30) eqn:E30,
    (Qle_bool q 90) eqn:E90, (Qle_bool q 180) eqn:E180,
    (Qle_bool q 365) eqn:E365;
    try reflexivity; exfalso;
    repeat match goal with
      | H : Qle_bool _ _ = true |- _ => apply Qle_bool_iff in H
      | H : Qle_bool _ _ = false |- _ => apply Qle_bool_false in H
      end; lra.
Qed.

Lemma age_bins_pointwise (ages : list cell) :
  set_where
    (mask_and (map (fun x => gt_edge x (Edge 365)) ages)
              (map (fun x => le_edge x PosInf) ages)) 1.0
    (set_where
       (mask_and (map (fun x => gt_edge x (Edge 180)) ages)
                 (map (fun x => le_edge x (Edge 365)) ages)) 0.7
       (set_where
          (mask_and (map (fun x => gt_edge x (Edge 90)) ages)
                    (map (fun x => le_edge x (Edge 180)) ages)) 0.5
          (set_where
             (mask_and (map (fun x => gt_edge x (Edge 30)) ages)
                       (map (fun x => le_edge x (Edge 90)) ages)) 0.3
             (set_where
                (mask_and (map (fun x => gt_edge x (Edge 0)) ages)
                          (map (fun x => le_edge x (Edge 30)) ages)) 0.1
                (zeros (List.length ages))))))
  = map age_bin ages.
Proof.
  induction ages as [|x t IH]; [reflexivity|].
  unfold set_where, mask_and, zeros in *.
  cbn [zip_with map repeat List.length].
  rewrite IH. f_equal. apply (age_bin_loop x).
Qed.

(** What the loop over the bins computes: the bin of each account age, 0 for
    an age that is not above 0. *)
Lemma account_age_scoring_bins (df : DataFrame) (ages : list cell) :
  getnum df "account_age_days" = Ok ages ->
  List.length ages = nrows df ->
  account_age_scoring df = Ok (map age_bin ages).
Proof.
  intros H Hlen. unfold account_age_scoring.
  change (seq 0 (List.length age_bins - 1)) with [0; 1; 2; 3; 4]%nat.
  cbn [foldM]. unfold age_bin_step. rewrite H. cbn [bind].
  cbn [nth age_bins age_scores Nat.add].
  rewrite <- Hlen. f_equal. apply age_bins_pointwise.
Qed.

(** The bins above 0, as the documentation of the score reads them. *)
Lemma age_bin_positive (q : Q) :
  0 < q ->
  age_bin (Num q)
  = if Qle_bool q 30 then Num 0.1
    else if Qle_bool q 90 then Num 0.3
    else if Qle_bool q 180 then Num 0.5
    else if Qle_bool q 365 then Num 0.7
    else Num 1.0.
Proof.
  intros H. unfold age_bin.
  destruct (Qle_bool q 0) eqn:E; trivial.
  apply Qle_bool_iff in E. lra.
Qed.

(** C7. A wallet with a single transaction has account_age_days = 0, and the
    account age scoring leaves its base experience score at 0: the first bin
    is open at 0, so the age 0 falls in no bin and does not get 0.1. *)
Theorem single_transaction_age_score (sqrt : Q -> Q) (a : string)
  (t : NormalizedTransaction) :
  cell_eq (account_age_days (_calculate_single_wallet_metrics sqrt a [t]))
          (Num 0)
  /\ account_age_scoring
       (DataFrame_of_metrics [_calculate_single_wallet_metrics sqrt a [t]])
     = Ok [Num 0].
Proof.
  assert (E : account_age_days (_calculate_single_wallet_metrics sqrt a [t])
              = Num (inject_Z 0 / inject_Z 86400)).
  { change (account_age_days (_calculate_single_wallet_metrics sqrt a [t]))
      with (true_div (tx_timestamp t - tx_timestamp t) 86400).
    rewrite Z.sub_diag. reflexivity. }
  split; [rewrite E; reflexivity|].
  rewrite (account_age_scoring_bins _
             [account_age_days (_calculate_single_wallet_metrics sqrt a [t])])
    by reflexivity.
  rewrite E. reflexivity.
Qed.

(** ** Witnesses on concrete batches *)

(** C10, on a wallet that was liquidated twice. *)
Lemma liquidation_risk_saturates_witness :
  exists scores,
    _calculate_liquidation_risk
      (DataFrame_of_metrics
         (wallet_metrics Qsqrt53 (process_wallet_data liquidated_twice)))
    = Ok scores
    /\ nth_error scores 0 = Some (Num 1).
Proof.
  destruct (liquidation_risk_saturates Qsqrt53
              (groupby_wallet_address (process_wallet_data liquidated_twice)))
    as (scores & H & _ & Hrow).
  exists scores. split; [exact H|].
  eapply (Hrow 0%nat); [reflexivity|].
  vm_compute. discriminate.
Defined.

(** C4, on the wallet of the worked example. *)
Lemma repayment_buckets_add_up_witness :
  exists scores s,
    _calculate_repayment_behavior
      (DataFrame_of_metrics
         (wallet_metrics Qsqrt53 (process_wallet_data mint_then_repay)))
    = Ok scores
    /\ nth_error scores 0 = Some (Num s)
    /\ s == 1.
Proof.
  destruct (repayment_buckets_add_up Qsqrt53
              (groupby_wallet_address (process_wallet_data mint_then_repay)))
    as (scores & H & _ & _ & Hrow).
  destruct (Hrow 0%nat _ eq_refl) as (_ & s & Hs & _ & Hs1).
  - reflexivity.
  - vm_compute. discriminate.
  - reflexivity.
  - exists scores, s. split; [exact H|]. split; [exact Hs|exact Hs1].
Defined.

(** ** The min-max normalisation of the anomaly detector *)

Lemma fold_Qmin_const (d : Q) (t : list Q) (x : Q) :
  x == d -> Forall (fun y => y == d) t -> fold_left Qmin t x == d.
Proof.
  revert x. induction t as [|y t IH]; intros x Hx Ht; simpl; trivial.
  inversion Ht as [|? ? Hy Ht']; subst.
  apply IH; trivial.
  rewrite Hx, Hy. apply Q.min_id.
Qed.

Lemma fold_Qmax_const (d : Q) (t : list Q) (x : Q) :
  x == d -> Forall (fun y => y == d) t -> fold_left Qmax t x == d.
Proof.
  revert x. induction t as [|y t IH]; intros x Hx Ht; simpl; trivial.
  inversion Ht as [|? ? Hy Ht']; subst.
  apply IH; trivial.
  rewrite Hx, Hy. apply Q.max_id.
Qed.

Lemma map_const_repeat {A B : Type} (f : A -> B) (b : B) (l : list A) :
  (forall a, f a = b) -> map f l = repeat b (List.length l).
Proof.
  intros H. induction l as [|a t IH]; simpl; [trivial|].
  now rewrite H, IH.
Qed.

(** When all the decision scores are equal the range [max - min] is 0 and
    every normalised score is the NaN of 0/0. *)
Lemma normalize_scores_constant (d : Q) (ds : list Q) :
  ds <> [] ->
  Forall (fun x => x == d) ds ->
  normalize_scores ds = Ok (repeat NaN (List.length ds)).
Proof.
  intros Hne Hall.
  destruct ds as [|x t]; [congruence|].
  inversion Hall as [|? ? Hx Ht]; subst.
  unfold normalize_scores, amin, amax. cbn [bind].
  f_equal. apply map_const_repeat.
  intros v. unfold fdiv.
  replace (Qeq_bool (fold_left Qmax t x - fold_left Qmin t x) 0) with true;
    trivial.
  symmetry. apply Qeq_bool_iff.
  rewrite (fold_Qmin_const d), (fold_Qmax_const d); trivial. ring.
Qed.

Lemma normalize_scores_single (d : Q) : normalize_scores [d] = Ok [NaN].
Proof.
  apply (normalize_scores_constant d [d]); [discriminate|].
  constructor; [reflexivity|constructor].
Qed.

(** C3. When the decision scores of a non-empty batch are all equal,
    [detect_anomalies] returns NaN for every wallet: the normalisation divides
    0 by 0, no fallback applies and no score lies in [0, 1]. *)
Theorem detect_anomalies_constant_scores
  (scaler_fit_transform : list (list Q) -> result (list (list Q)))
  (decision_function : list (list Q) -> result (list Q))
  (risk_features : DataFrame) (X X_scaled : list (list Q))
  (decision_scores : list Q) (d : Q) :
  available_features risk_features <> [] ->
  prepare_data risk_features = Ok X ->
  scaler_fit_transform X = Ok X_scaled ->
  decision_function X_scaled = Ok decision_scores ->
  decision_scores <> [] ->
  Forall (fun x => x == d) decision_scores ->
  detect_anomalies scaler_fit_transform decision_function risk_features
  = Ok (repeat NaN (List.length decision_scores)).
Proof.
  intros Hav HX Hs Hd Hne Hall.
  unfold detect_anomalies.
  destruct (available_features risk_features) as [|f l] eqn:E;
    [congruence|].
  cbn [List.length Nat.eqb].
  rewrite HX. cbn [bind]. rewrite Hs. cbn [bind]. rewrite Hd. cbn [bind].
  now apply (normalize_scores_constant d).
Qed.

(** C3, on a batch of a single wallet. *)
Lemma detect_anomalies_constant_scores_witness :
  exists risk_features,
    calculate_risk_features
      (calculate_wallet_metrics Qsqrt53 (process_wallet_data mint_then_repay))
    = Ok risk_features
    /\ nrows risk_features = 1%nat
    /\ detect_anomalies identity_scaler (flat_forest 0) risk_features
       = Ok [NaN].
Proof.
  eexists. split; [vm_compute; reflexivity|].
  split; [reflexivity|].
  eapply (detect_anomalies_constant_scores identity_scaler (flat_forest 0)
            _ _ _ [0] 0).
  - vm_compute. discriminate.
  - vm_compute. reflexivity.
  - reflexivity.
  - vm_compute. reflexivity.
  - discriminate.
  - constructor; [reflexivity|constructor].
Defined.

(** ** The score calculator *)

(** The risk left after the anomaly adjustment does not decrease when the
    anomaly score grows: the adjustment [(1 - anomaly) * 0.1] is taken away
    from the composite risk. *)
Lemma final_risk_nondecreasing (c a1 a2 : Q) :
  a1 <= a2 ->
  exists r1 r2,
    final_risk [Num c] [Num a1] = [Num r1]
    /\ final_risk [Num c] [Num a2] = [Num r2]
    /\ r1 <= r2.
Proof.
  intros H. do 2 eexists. split; [reflexivity|]. split; [reflexivity|].
  apply Q.min_le_compat_r, Q.max_le_compat_r. lra.
Qed.

(** C1. Two wallets with the same sub-scores, hence the same composite risk:
    the one with anomaly score 0 (least normal) gets a final risk strictly
    below the one with anomaly score 1, and the higher credit score, 600
    against 500. *)
Theorem less_normal_twin_gets_lower_risk :
  exists c r0 r1 out,
    _calculate_composite_score twin_wallets = Ok [Num c; Num c]
    /\ final_risk [Num c; Num c] [Num 0; Num 1] = [Num r0; Num r1]
    /\ r0 < r1
    /\ calculate_scores twin_wallets [Num 0; Num 1] = Ok out
    /\ getitem out "score" = Ok (IntCol [600; 500]%Z).
Proof.
  do 4 eexists.
  split; [vm_compute; reflexivity|].
  split; [vm_compute; reflexivity|].
  split; [vm_compute; reflexivity|].
  split; [vm_compute; reflexivity|].
  vm_compute. reflexivity.
Qed.

Lemma categorize_labels (score : cell) :
  In (categorize score)
     ["Low Risk"; "Medium-Low Risk"; "Medium Risk"; "High Risk";
      "Very High Risk"].
Proof.
  unfold categorize.
  destruct (fgeb score (Num 800)); [simpl; tauto|].
  destruct (fgeb score (Num 600)); [simpl; tauto|].
  destruct (fgeb score (Num 400)); [simpl; tauto|].
  destruct (fgeb score (Num 200)); simpl; tauto.
Qed.

(** The bands of [_categorize_risk] on the score it is given. *)
Lemma categorize_bands (q : Q) :
  (800 <= q -> categorize (Num q) = "Low Risk")
  /\ (600 <= q < 800 -> categorize (Num q) = "Medium-Low Risk")
  /\ (400 <= q < 600 -> categorize (Num q) = "Medium Risk")
  /\ (200 <= q < 400 -> categorize (Num q) = "High Risk")
  /\ (q < 200 -> categorize (Num q) = "Very High Risk").
Proof.
  unfold categorize, fgeb.
  destruct (Qle_bool 800 q) eqn:E8, (Qle_bool 600 q) eqn:E6,
    (Qle_bool 400 q) eqn:E4, (Qle_bool 200 q) eqn:E2;
    repeat match goal with
      | H : Qle_bool _ _ = true |- _ => apply Qle_bool_iff in H
      | H : Qle_bool _ _ = false |- _ => apply Qle_bool_false in H
      end;
    repeat split; intros; trivial; exfalso; lra.
Qed.

(** C2. A wallet with composite risk 0.226 and anomaly score 0.742 has the
    credit score 799.8: the row reports the integer score 800 and the
    category 'Medium-Low Risk', because the category is read on the score
    before rounding.  [explain_score] reads the same thresholds on the
    integer score and calls this row excellent; a score of exactly 800 given
    to [_categorize_risk] is 'Low Risk'. *)
Theorem reported_800_is_medium_low :
  exists out,
    calculate_scores borderline_wallet [Num 0.742] = Ok out
    /\ getitem out "score" = Ok (IntCol [800%Z])
    /\ getitem out "risk_category" = Ok (StrCol ["Medium-Low Risk"])
    /\ interpretation 800
       = "Excellent risk profile with strong track record"
    /\ _categorize_risk [Num 800] = ["Low Risk"].
Proof.
  eexists.
  split; [vm_compute; reflexivity|].
  repeat split.
Qed.

(** C9. The seven weights of the score calculator, under their seven names,
    sum to 1: exactly as rationals, and exactly again when the binary64
    values are added in the order of the dictionary. *)
Theorem weights_sum_to_one :
  map fst weights
  = [ "liquidation_risk"; "behavioral_risk"; "financial_health";
      "activity_pattern_risk"; "repayment_behavior"; "experience";
      "diversification" ]
  /\ map snd weights = [0.25; 0.15; 0.20; 0.10; 0.15; 0.10; 0.05]
  /\ Qsum (map snd weights) == 1
  /\ Binary64.weights_sum = 1%float.
Proof. repeat split. Qed.

(* ================================================================== *)
(** * Further properties *)

(** ** Rows of the normalised table *)

Lemma process_wallet_data_In (wallet_data : list Wallet)
  (r : NormalizedTransaction) :
  In r (process_wallet_data wallet_data)
  <-> exists w tx, In w wallet_data /\ In tx (wallet_transactions w)
                   /\ r = processed_tx (address w) tx.
Proof.
  rewrite process_wallet_data_unfold.
  assert (H : In r (sort_values (all_transactions wallet_data))
              <-> In r (all_transactions wallet_data)).
  { split; apply Permutation_in;
      [apply Permutation_sym|]; apply sort_values_perm. }
  rewrite H. unfold all_transactions, wallet_transactions.
  rewrite in_flat_map. split.
  - intros (w & Hw & Hr). apply in_map_iff in Hr.
    destruct Hr as (tx & <- & Htx). now exists w, tx.
  - intros (w & tx & Hw & Htx & ->). exists w. split; trivial.
    now apply in_map.
Qed.

(** The table has one row per transaction of the input, no more and no
    less, whatever the order. *)
Lemma process_wallet_data_length (wallet_data : list Wallet) :
  List.length (process_wallet_data wallet_data)
  = List.length (all_transactions wallet_data).
Proof.
  rewrite process_wallet_data_unfold.
  apply Permutation_length, Permutation_sym, sort_values_perm.
Qed.

(** X1. Every row of the normalised table has an hour between 0 and 23 and
    a day of week between 0 and 6, its date is the day that contains its
    timestamp, and the hour is counted within that day; this holds for
    timestamps before the epoch too. *)
Theorem normalised_time_fields (wallet_data : list Wallet)
  (r : NormalizedTransaction) :
  In r (process_wallet_data wallet_data) ->
  (0 <= tx_hour r <= 23)%Z
  /\ (0 <= tx_day_of_week r <= 6)%Z
  /\ (86400 * tx_date r <= tx_timestamp r < 86400 * (tx_date r + 1))%Z
  /\ (3600 * tx_hour r <= tx_timestamp r - 86400 * tx_date r
      < 3600 * (tx_hour r + 1))%Z.
Proof.
  intros H. apply process_wallet_data_In in H.
  destruct H as (w & tx & _ & _ & ->).
  cbn [processed_tx tx_hour tx_day_of_week tx_date tx_timestamp].
  set (ts := dict_get (raw_timeStamp tx) 0%Z).
  pose proof (Z.mod_pos_bound ts 86400 ltac:(lia)) as Hm.
  pose proof (Z.div_mod ts 86400 ltac:(lia)) as Hd.
  pose proof (Z.mod_pos_bound (ts / 86400 + 3) 7 ltac:(lia)) as Hw.
  pose proof (Z.div_mod (ts mod 86400) 3600 ltac:(lia)) as Hh.
  pose proof (Z.mod_pos_bound (ts mod 86400) 3600 ltac:(lia)) as Hh'.
  assert (0 <= ts mod 86400 / 3600 < 24)%Z.
  { split; [apply Z.div_pos; lia|].
    apply Z.div_lt_upper_bound; lia. }
  repeat split; lia.
Qed.

Lemma normalised_time_fields_witness :
  exists r,
    In r (process_wallet_data mint_then_repay)
    /\ tx_timestamp r = 86400%Z
    /\ tx_date r = 1%Z /\ tx_hour r = 0%Z /\ tx_day_of_week r = 4%Z
    /\ (0 <= tx_hour r <= 23)%Z.
Proof.
  eexists. split; [right; left; reflexivity|].
  do 4 (split; [reflexivity|]).
  exact (proj1 (normalised_time_fields mint_then_repay _
                  (or_intror (or_introl eq_refl)))).
Defined.

Lemma lower_ascii_idempotent (c : ascii) :
  lower_ascii (lower_ascii c) = lower_ascii c.
Proof.
  destruct c as [[] [] [] [] [] [] [] []]; reflexivity.
Qed.

Lemma lower_idempotent (s : string) : lower (lower s) = lower s.
Proof.
  induction s as [|c s IH]; simpl; [trivial|].
  now rewrite lower_ascii_idempotent, IH.
Qed.

Lemma lower_length (s : string) : String.length (lower s) = String.length s.
Proof. induction s as [|c s IH]; simpl; auto. Qed.

(** X2. In every row of the normalised table the sender and the recipient
    are already in lower case, while the wallet address is the address of an
    input entry exactly as that entry spells it (it is not lowered), and the
    fee is gas used times gas price, in ether. *)
Theorem normalised_addresses (wallet_data : list Wallet)
  (r : NormalizedTransaction) :
  In r (process_wallet_data wallet_data) ->
  lower (tx_from_address r) = tx_from_address r
  /\ lower (tx_to_address r) = tx_to_address r
  /\ (exists w, In w wallet_data /\ tx_wallet_address r = address w)
  /\ tx_fee r == inject_Z (tx_gas_used r * tx_gas_price r) / 1e18.
Proof.
  intros H. apply process_wallet_data_In in H.
  destruct H as (w & tx & Hw & _ & ->).
  cbn [processed_tx tx_from_address tx_to_address tx_wallet_address tx_fee
       tx_gas_used tx_gas_price].
  rewrite !lower_idempotent.
  split; [reflexivity|]. split; [reflexivity|].
  split; [now exists w|reflexivity].
Qed.

Lemma normalised_addresses_witness :
  exists r,
    In r (process_wallet_data mint_then_repay)
    /\ tx_from_address r = "0xa1"
    /\ lower (tx_from_address r) = tx_from_address r.
Proof.
  eexists. split; [left; reflexivity|].
  split; [reflexivity|].
  exact (proj1 (normalised_addresses mint_then_repay _ (or_introl eq_refl))).
Defined.

(** ** Groups and metrics *)

Lemma string_leb_lt_or_eq (a b : string) :
  String.leb a b = true -> String.compare a b = Lt \/ a = b.
Proof.
  unfold String.leb. destruct (String.compare a b) eqn:E; intros H.
  - right. now apply String.compare_eq_iff.
  - now left.
  - discriminate.
Qed.

Lemma string_leb_trans (a b c : string) :
  String.leb a b = true -> String.leb b c = true -> String.leb a c = true.
Proof.
  intros H1 H2.
  destruct (string_leb_lt_or_eq _ _ H1) as [L1| ->]; trivial.
  destruct (string_leb_lt_or_eq _ _ H2) as [L2| <-]; trivial.
  unfold String.leb. now rewrite (string_compare_lt_trans _ _ _ L1 L2).
Qed.

Lemma unique_sorted_NoDup (l : list string) : NoDup (unique_sorted l).
Proof.
  unfold unique_sorted.
  eapply Permutation_NoDup; [apply stable_sort_perm|].
  apply NoDup_nodup.
Qed.

Lemma unique_sorted_ascending (l : list string) :
  StronglySorted (fun a b => String.compare a b = Lt) (unique_sorted l).
Proof.
  pose proof (unique_sorted_NoDup l) as Hnd.
  assert (Hs : StronglySorted (fun a b => String.leb a b = true)
                 (unique_sorted l)).
  { apply Sorted_StronglySorted.
    - intros a b c. apply string_leb_trans.
    - apply stable_sort_sorted. apply String.leb_total. }
  induction Hs as [|a t Ht IH Ha]; constructor.
  - apply IH. now inversion Hnd.
  - inversion Hnd as [|? ? Hnotin _]; subst.
    rewrite Forall_forall in *. intros b Hb.
    destruct (string_leb_lt_or_eq _ _ (Ha b Hb)) as [L| ->]; trivial.
    contradiction.
Qed.

Lemma len_cons {A : Type} (x : A) (l : list A) : len (x :: l) = (1 + len l)%Z.
Proof. unfold len. simpl List.length. lia. Qed.

Lemma Zsum_counts_cons {A : Type} (key : A -> string) (x : A) (l : list A)
  (keys : list string) :
  Zsum (map (fun k => len (filter (fun t => String.eqb (key t) k) (x :: l)))
            keys)
  = (len (filter (String.eqb (key x)) keys)
     + Zsum (map (fun k => len (filter (fun t => String.eqb (key t) k) l))
                 keys))%Z.
Proof.
  induction keys as [|k ks IH]; [reflexivity|].
  cbn [map]. unfold Zsum in *. cbn [fold_right]. rewrite IH.
  cbn [filter].
  destruct (String.eqb (key x) k); rewrite ?len_cons; lia.
Qed.

Lemma filter_eqb_notin (k : string) (keys : list string) :
  ~ In k keys -> filter (String.eqb k) keys = [].
Proof.
  induction keys as [|a t IH]; intros H; [reflexivity|].
  cbn [filter]. destruct (String.eqb k a) eqn:E.
  - apply String.eqb_eq in E. subst. exfalso. apply H. now left.
  - apply IH. intros Hin. apply H. now right.
Qed.

Lemma NoDup_count_one (k : string) (keys : list string) :
  NoDup keys -> In k keys -> len (filter (String.eqb k) keys) = 1%Z.
Proof.
  induction 1 as [|a t Hnotin Hnd IH]; intros Hin; [contradiction|].
  cbn [filter]. destruct (String.eqb k a) eqn:E.
  - apply String.eqb_eq in E. subst a.
    now rewrite (filter_eqb_notin k t Hnotin).
  - apply IH. destruct Hin as [->|Hin]; trivial.
    rewrite String.eqb_refl in E. discriminate.
Qed.

(** Counting the rows of each key over keys that are distinct and cover the
    table counts every row once. *)
Lemma Zsum_counts {A : Type} (key : A -> string) (l : list A)
  (keys : list string) :
  NoDup keys ->
  (forall t, In t l -> In (key t) keys) ->
  Zsum (map (fun k => len (filter (fun t => String.eqb (key t) k) l)) keys)
  = len l.
Proof.
  intros Hnd. induction l as [|x l IH]; intros Hcover.
  - cbn [filter]. induction keys as [|k ks IHk]; [reflexivity|].
    cbn [map]. unfold Zsum in *. cbn [fold_right].
    rewrite IHk; [reflexivity|now inversion Hnd|intros t []].
  - rewrite Zsum_counts_cons, IH by (intros; apply Hcover; now right).
    rewrite NoDup_count_one, len_cons; trivial.
    apply Hcover. now left.
Qed.

Section GroupFacts.
Variable sqrt : Q -> Q.

Lemma wallet_metrics_totals (df : list NormalizedTransaction) :
  map total_transactions (wallet_metrics sqrt df)
  = map (fun k => len (filter (fun t => String.eqb (tx_wallet_address t) k)
                              df))
        (unique_sorted (map tx_wallet_address df)).
Proof.
  unfold wallet_metrics, groupby_wallet_address.
  rewrite !map_map. reflexivity.
Qed.

(** X3. Whatever the table, the metrics aggregator produces one row per
    distinct wallet address, in strictly ascending order of address; every
    row counts at least one transaction, and the counts of all the rows add
    up to the number of rows of the table. *)
Theorem wallet_metrics_partition (df : list NormalizedTransaction) :
  StronglySorted (fun a b => String.compare a b = Lt)
                 (map wallet_address (wallet_metrics sqrt df))
  /\ (forall a, In a (map wallet_address (wallet_metrics sqrt df))
                <-> In a (map tx_wallet_address df))
  /\ Forall (fun n => (1 <= n)%Z)
            (map total_transactions (wallet_metrics sqrt df))
  /\ Zsum (map total_transactions (wallet_metrics sqrt df)) = len df.
Proof.
  rewrite wallet_metrics_addresses, wallet_metrics_totals.
  split; [apply unique_sorted_ascending|].
  split; [intros a; apply unique_sorted_In|].
  split.
  - apply Forall_forall. intros n Hn. apply in_map_iff in Hn.
    destruct Hn as (k & <- & Hk). apply -> unique_sorted_In in Hk.
    apply in_map_iff in Hk. destruct Hk as (t & Ht & Hin).
    assert (Hf : In t (filter (fun t => String.eqb (tx_wallet_address t) k)
                              df)).
    { apply filter_In. split; trivial. now apply String.eqb_eq. }
    destruct (filter _ df) as [|u l]; [contradiction|].
    rewrite len_cons. pose proof (len_nonneg l). lia.
  - apply Zsum_counts; [apply unique_sorted_NoDup|].
    intros t Ht. apply <- unique_sorted_In. now apply in_map.
Qed.

End GroupFacts.

Lemma len_filter_le {A : Type} (p : A -> bool) (l : list A) :
  (0 <= len (filter p l) <= len l)%Z.
Proof.
  unfold len. pose proof (filter_length_le p l). lia.
Qed.

Lemma true_div_unit (a b : Z) :
  (0 <= a <= b)%Z -> (0 < b)%Z -> in_unit (true_div a b).
Proof.
  intros Ha Hb. rewrite true_div_pos by trivial. simpl.
  assert (Hq : 0 < inject_Z b).
  { change 0 with (inject_Z 0). now rewrite <- Zlt_Qlt. }
  split.
  - apply Qdiv_nonneg; lia.
  - apply Qle_shift_div_r; trivial. rewrite Qmult_1_l.
    rewrite <- Zle_Qle. lia.
Qed.

(** The rows whose error flag is neither 0 nor 1. *)
Lemma filter_three_way {A : Type} (p q : A -> bool) (l : list A) :
  (forall x, p x = true -> q x = false) ->
  (len (filter p l) + len (filter q l)
   + len (filter (fun x => negb (p x) && negb (q x)) l))%Z
  = len l.
Proof.
  intros Hpq. induction l as [|x l IH]; [reflexivity|].
  cbn [filter].
  destruct (p x) eqn:Px; [rewrite (Hpq x Px)|destruct (q x)];
    cbn [negb andb]; rewrite !len_cons; lia.
Qed.

Lemma rate_in_unit {A : Type} (p : A -> bool) (l : list A) :
  in_unit (true_div (len (filter p l)) (Z.max (len l) 1)).
Proof.
  pose proof (len_nonneg l). pose proof (len_filter_le p l).
  apply true_div_unit; lia.
Qed.

(** A guarded quotient of two counts: between 0 and 1, 0 only for the
    count 0 and 1 only for the whole. *)
Lemma guarded_ratio_facts (n t : Z) :
  (0 <= n <= t)%Z ->
  in_unit (if (0 <? t)%Z then true_div n t else Num 0)
  /\ (cell_eq (if (0 <? t)%Z then true_div n t else Num 0) (Num 0)
      <-> n = 0%Z)
  /\ (cell_eq (if (0 <? t)%Z then true_div n t else Num 0) (Num 1)
      <-> (0 < t)%Z /\ n = t).
Proof.
  intros Hn. destruct (0 <? t)%Z eqn:E.
  - apply Z.ltb_lt in E.
    split; [apply true_div_unit; lia|].
    rewrite true_div_pos by trivial. cbn [cell_eq].
    assert (Ht : ~ inject_Z t == 0).
    { intros H. unfold Qeq in H. simpl in H. lia. }
    assert (Hmul : inject_Z n == inject_Z n / inject_Z t * inject_Z t)
      by (field; exact Ht).
    split; split.
    + intros H. rewrite H in Hmul. unfold Qeq in Hmul. simpl in Hmul. lia.
    + intros ->. unfold Qdiv. apply Qmult_0_l.
    + intros H. rewrite H, Qmult_1_l in Hmul.
      split; [exact E|]. unfold Qeq in Hmul. simpl in Hmul. lia.
    + intros (_ & ->). field. exact Ht.
  - apply Z.ltb_ge in E. assert (n = 0%Z) by lia. subst n.
    split; [simpl; lra|].
    split.
    + split; [reflexivity|intros _; simpl; reflexivity].
    + split; [intros H; simpl in H; discriminate H|intros (H & _); lia].
Qed.

Section MetricFacts.
Variable sqrt : Q -> Q.
Variable a : string.
Variable txs : list NormalizedTransaction.

Lemma action_ratios_are_numbers :
  is_num (supply_ratio (_calculate_single_wallet_metrics sqrt a txs))
  /\ is_num (withdraw_ratio (_calculate_single_wallet_metrics sqrt a txs))
  /\ is_num (borrow_ratio (_calculate_single_wallet_metrics sqrt a txs))
  /\ is_num (repay_ratio (_calculate_single_wallet_metrics sqrt a txs)).
Proof.
  cbn [supply_ratio withdraw_ratio borrow_ratio repay_ratio
       _calculate_single_wallet_metrics].
  destruct (0 <? _)%Z eqn:E.
  - apply Z.ltb_lt in E. rewrite !true_div_pos by trivial. repeat split.
  - repeat split.
Qed.

(** X4. For any group of transactions: total_transactions is the number of
    rows; the successful and the failed transactions, together with the rows
    whose error flag is neither 0 nor 1, make up the total; and success_rate,
    liquidation_rate, weekend_activity_ratio and night_activity_ratio are
    numbers between 0 and 1, also on the empty group. *)
Theorem metrics_counts_and_rates :
  total_transactions (_calculate_single_wallet_metrics sqrt a txs) = len txs
  /\ (successful_transactions (_calculate_single_wallet_metrics sqrt a txs)
      + failed_transactions (_calculate_single_wallet_metrics sqrt a txs)
      + len (filter (fun t => negb (Z.eqb (tx_is_error t) 0)
                              && negb (Z.eqb (tx_is_error t) 1)) txs))%Z
     = len txs
  /\ in_unit (success_rate (_calculate_single_wallet_metrics sqrt a txs))
  /\ in_unit (liquidation_rate (_calculate_single_wallet_metrics sqrt a txs))
  /\ in_unit (weekend_activity_ratio
                (_calculate_single_wallet_metrics sqrt a txs))
  /\ in_unit (night_activity_ratio
                (_calculate_single_wallet_metrics sqrt a txs)).
Proof.
  pose proof (len_nonneg txs) as Hn.
  split; [reflexivity|].
  split.
  { apply (filter_three_way (fun t => Z.eqb (tx_is_error t) 0)
             (fun t => Z.eqb (tx_is_error t) 1)).
    intros t H. apply Z.eqb_eq in H. rewrite H. reflexivity. }
  split; [apply rate_in_unit|].
  split; [apply rate_in_unit|].
  split; apply rate_in_unit.
Qed.

(** X5. Each of the four action ratios is a number between 0 and 1.  A
    ratio is 0 exactly when the wallet has none of its actions, and 1
    exactly when the wallet has counted actions and all of them are of its
    kind; the counted actions are mint, redeem, redeemUnderlying, borrow and
    repayBorrow, so that liquidations and other labels leave the ratios
    unchanged. *)
Theorem action_ratios_bounds :
  (in_unit (supply_ratio (_calculate_single_wallet_metrics sqrt a txs))
   /\ in_unit (withdraw_ratio (_calculate_single_wallet_metrics sqrt a txs))
   /\ in_unit (borrow_ratio (_calculate_single_wallet_metrics sqrt a txs))
   /\ in_unit (repay_ratio (_calculate_single_wallet_metrics sqrt a txs)))
  /\ ((cell_eq (supply_ratio (_calculate_single_wallet_metrics sqrt a txs))
               (Num 0)
       <-> mint_count (_calculate_single_wallet_metrics sqrt a txs) = 0%Z)
      /\ (cell_eq (withdraw_ratio
                     (_calculate_single_wallet_metrics sqrt a txs)) (Num 0)
          <-> (redeem_count (_calculate_single_wallet_metrics sqrt a txs)
               + redeemUnderlying_count
                   (_calculate_single_wallet_metrics sqrt a txs))%Z = 0%Z)
      /\ (cell_eq (borrow_ratio (_calculate_single_wallet_metrics sqrt a txs))
                  (Num 0)
          <-> borrow_count (_calculate_single_wallet_metrics sqrt a txs)
              = 0%Z)
      /\ (cell_eq (repay_ratio (_calculate_single_wallet_metrics sqrt a txs))
                  (Num 0)
          <-> repayBorrow_count (_calculate_single_wallet_metrics sqrt a txs)
              = 0%Z))
  /\ ((cell_eq (supply_ratio (_calculate_single_wallet_metrics sqrt a txs))
               (Num 1)
       <-> (0 < counted_actions (_calculate_single_wallet_metrics sqrt a txs))%Z
           /\ mint_count (_calculate_single_wallet_metrics sqrt a txs)
              = counted_actions (_calculate_single_wallet_metrics sqrt a txs))
      /\ (cell_eq (withdraw_ratio
                     (_calculate_single_wallet_metrics sqrt a txs)) (Num 1)
          <-> (0 < counted_actions
                     (_calculate_single_wallet_metrics sqrt a txs))%Z
              /\ (redeem_count (_calculate_single_wallet_metrics sqrt a txs)
                  + redeemUnderlying_count
                      (_calculate_single_wallet_metrics sqrt a txs))%Z
                 = counted_actions
                     (_calculate_single_wallet_metrics sqrt a txs))
      /\ (cell_eq (borrow_ratio (_calculate_single_wallet_metrics sqrt a txs))
                  (Num 1)
          <-> (0 < counted_actions
                     (_calculate_single_wallet_metrics sqrt a txs))%Z
              /\ borrow_count (_calculate_single_wallet_metrics sqrt a txs)
                 = counted_actions
                     (_calculate_single_wallet_metrics sqrt a txs))
      /\ (cell_eq (repay_ratio (_calculate_single_wallet_metrics sqrt a txs))
                  (Num 1)
          <-> (0 < counted_actions
                     (_calculate_single_wallet_metrics sqrt a txs))%Z
              /\ repayBorrow_count
                   (_calculate_single_wallet_metrics sqrt a txs)
                 = counted_actions
                     (_calculate_single_wallet_metrics sqrt a txs))).
Proof.
  unfold counted_actions.
  cbn [supply_ratio withdraw_ratio borrow_ratio repay_ratio mint_count
       redeem_count redeemUnderlying_count borrow_count repayBorrow_count
       _calculate_single_wallet_metrics].
  set (m := count_action "mint" txs).
  set (rd := count_action "redeem" txs).
  set (ru := count_action "redeemUnderlying" txs).
  set (bo := count_action "borrow" txs).
  set (rp := count_action "repayBorrow" txs).
  assert (Hc : forall k, (0 <= count_action k txs)%Z).
  { intros k. unfold count_action. apply len_nonneg. }
  pose proof (Hc "mint") as Hm. pose proof (Hc "redeem") as Hrd.
  pose proof (Hc "redeemUnderlying") as Hru. pose proof (Hc "borrow") as Hbo.
  pose proof (Hc "repayBorrow") as Hrp.
  fold m rd ru bo rp in Hm, Hrd, Hru, Hbo, Hrp.
  clearbody m rd ru bo rp. clear Hc.
  destruct (guarded_ratio_facts m (m + rd + ru + bo + rp)) as (S1 & S2 & S3);
    [lia|].
  destruct (guarded_ratio_facts (rd + ru) (m + rd + ru + bo + rp))
    as (W1 & W2 & W3); [lia|].
  destruct (guarded_ratio_facts bo (m + rd + ru + bo + rp)) as (B1 & B2 & B3);
    [lia|].
  destruct (guarded_ratio_facts rp (m + rd + ru + bo + rp)) as (R1 & R2 & R3);
    [lia|].
  exact (conj (conj S1 (conj W1 (conj B1 R1)))
              (conj (conj S2 (conj W2 (conj B2 R2)))
                    (conj S3 (conj W3 (conj B3 R3))))).
Qed.

End MetricFacts.

Lemma fold_min_spec (t : list Z) (x : Z) :
  (fold_left Z.min t x <= x)%Z
  /\ Forall (fun y => (fold_left Z.min t x <= y)%Z) t.
Proof.
  revert x. induction t as [|y t IH]; intros x; cbn [fold_left].
  - split; [lia|constructor].
  - destruct (IH (Z.min x y)) as (H1 & H2).
    split; [lia|]. constructor; [lia|exact H2].
Qed.

Lemma fold_max_spec (t : list Z) (x : Z) :
  (x <= fold_left Z.max t x)%Z
  /\ Forall (fun y => (y <= fold_left Z.max t x)%Z) t.
Proof.
  revert x. induction t as [|y t IH]; intros x; cbn [fold_left].
  - split; [lia|constructor].
  - destruct (IH (Z.max x y)) as (H1 & H2).
    split; [lia|]. constructor; [lia|exact H2].
Qed.

Lemma Zminimum_maximum (l : list Z) :
  Forall (fun y => (Zminimum l 0 <= y <= Zmaximum l 0)%Z) l.
Proof.
  destruct l as [|x t]; [constructor|].
  cbn [Zminimum Zmaximum].
  destruct (fold_min_spec t x) as (H1 & H2).
  destruct (fold_max_spec t x) as (H3 & H4).
  constructor; [lia|].
  rewrite Forall_forall in *. intros y Hy.
  specialize (H2 y Hy). specialize (H4 y Hy). lia.
Qed.

Section AgeFacts.
Variable sqrt : Q -> Q.
Variable a : string.
Variable txs : list NormalizedTransaction.

(** X6. For any group of transactions, in any order: first_tx_date and
    last_tx_date bracket the timestamp of every row, and account_age_days is
    the number (last - first) / 86400, never negative and never NaN. *)
Theorem account_age_nonnegative :
  (first_tx_date (_calculate_single_wallet_metrics sqrt a txs)
   <= last_tx_date (_calculate_single_wallet_metrics sqrt a txs))%Z
  /\ Forall (fun t =>
               (first_tx_date (_calculate_single_wallet_metrics sqrt a txs)
                <= tx_timestamp t
                <= last_tx_date (_calculate_single_wallet_metrics sqrt a txs))%Z)
            txs
  /\ exists q,
       account_age_days (_calculate_single_wallet_metrics sqrt a txs) = Num q
       /\ 0 <= q
       /\ q == inject_Z
                 (last_tx_date (_calculate_single_wallet_metrics sqrt a txs)
                  - first_tx_date
                      (_calculate_single_wallet_metrics sqrt a txs))
               / 86400.
Proof.
  cbn [first_tx_date last_tx_date account_age_days
       _calculate_single_wallet_metrics].
  pose proof (Zminimum_maximum (map tx_timestamp txs)) as H.
  destruct txs as [|t l] eqn:E.
  - cbn. split; [lia|]. split; [constructor|].
    exists 0. split; [reflexivity|]. split; [lra|reflexivity].
  - rewrite <- E in *.
    assert (Hpos : (0 <? len txs)%Z = true).
    { subst txs. rewrite len_cons. pose proof (len_nonneg l).
      apply Z.ltb_lt. lia. }
    rewrite Hpos.
    set (lo := Zminimum (map tx_timestamp txs) 0) in *.
    set (hi := Zmaximum (map tx_timestamp txs) 0) in *.
    assert (Hle : (lo <= hi)%Z).
    { rewrite E in H. cbn [map] in H. inversion H; subst. lia. }
    split; [exact Hle|]. split.
    + rewrite Forall_forall in *. intros u Hu. apply H. now apply in_map.
    + rewrite true_div_pos by lia. eexists. split; [reflexivity|].
      split; [apply Qdiv_nonneg; lia|reflexivity].
Qed.

End AgeFacts.

(** X7. A wallet with exactly two transactions at different times has a
    single inter-transaction gap: its mean is a positive number, but its
    sample standard deviation is NaN, and so is activity_regularity (the
    guards of the metric only cover the wallets with fewer than two
    transactions and a zero mean), whatever the square root. *)
Theorem two_transactions_regularity_nan (sqrt : Q -> Q) (a : string)
  (t1 t2 : NormalizedTransaction) :
  (tx_timestamp t1 < tx_timestamp t2)%Z ->
  std_time_between_txs (_calculate_single_wallet_metrics sqrt a [t1; t2])
  = NaN
  /\ activity_regularity (_calculate_single_wallet_metrics sqrt a [t1; t2])
     = NaN
  /\ exists gap,
       avg_time_between_txs
         (_calculate_single_wallet_metrics sqrt a [t1; t2]) = Num gap
       /\ 0 < gap.
Proof.
  intros Hlt.
  cbn [std_time_between_txs activity_regularity avg_time_between_txs
       _calculate_single_wallet_metrics].
  change (1 <? len [t1; t2])%Z with true. cbn iota.
  cbn [map diff]. unfold std. cbn [var mean List.length Qsum fold_right].
  set (d := (tx_timestamp t2 - tx_timestamp t1)%Z).
  assert (Hd : 0 < inject_Z d).
  { change 0 with (inject_Z 0). rewrite <- Zlt_Qlt. subst d. lia. }
  assert (Hgap : 0 < (inject_Z d / 3600 + 0) / inject_Z (Z.of_nat 1)).
  { change (inject_Z (Z.of_nat 1)) with 1.
    apply Qlt_shift_div_l; [reflexivity|].
    rewrite Qmult_0_l, Qplus_0_r.
    apply Qlt_shift_div_l; [reflexivity|]. now rewrite Qmult_0_l. }
  split; [reflexivity|].
  split.
  - unfold fgtb, Qlt_bool.
    destruct (Qle_bool _ 0) eqn:E; [|reflexivity].
    apply Qle_bool_iff in E. exfalso. revert E. apply Qlt_not_le. exact Hgap.
  - eexists. split; [reflexivity|exact Hgap].
Qed.

(** X7, on the wallet of the worked example. *)
Lemma two_transactions_regularity_nan_witness :
  activity_regularity
    (_calculate_single_wallet_metrics Qsqrt53 "0xb"
       (process_wallet_data mint_then_repay))
  = NaN.
Proof.
  change (process_wallet_data mint_then_repay)
    with [processed_tx "0xb" (sample_tx 0 "mint");
          processed_tx "0xb" (sample_tx 86400 "repayBorrow")].
  apply (two_transactions_regularity_nan Qsqrt53 "0xb").
  reflexivity.
Defined.

(** ** Groups of the normalised table *)

Lemma StronglySorted_filter {A : Type} (R : A -> A -> Prop) (p : A -> bool)
  (l : list A) :
  StronglySorted R l -> StronglySorted R (filter p l).
Proof.
  induction 1 as [|x l Hl IH Hx]; cbn [filter]; [constructor|].
  destruct (p x); trivial.
  constructor; trivial.
  rewrite Forall_forall in *. intros y Hy.
  apply filter_In in Hy. now apply Hx.
Qed.

Lemma StronglySorted_diff (l : list Z) :
  StronglySorted Z.le l -> Forall (fun d => (0 <= d)%Z) (diff l).
Proof.
  induction 1 as [|x l Hl IH Hx]; [constructor|].
  destruct l as [|y t]; [constructor|].
  cbn [diff]. constructor; [|exact IH].
  inversion Hx; subst. lia.
Qed.

Lemma StronglySorted_map {A B : Type} (R : B -> B -> Prop) (f : A -> B)
  (l : list A) :
  StronglySorted (fun x y => R (f x) (f y)) l -> StronglySorted R (map f l).
Proof.
  induction 1 as [|x l Hl IH Hx]; cbn [map]; constructor; trivial.
  rewrite Forall_forall in *. intros y Hy.
  apply in_map_iff in Hy. destruct Hy as (u & <- & Hu). now apply Hx.
Qed.

(** X8. Every group that the aggregator receives from the normalised table
    is non-empty, holds the rows of one wallet address, and lists them in
    ascending order of timestamp, so that no inter-transaction gap is
    negative. *)
Theorem groups_chronological (wallet_data : list Wallet) (a : string)
  (g : list NormalizedTransaction) :
  In (a, g) (groupby_wallet_address (process_wallet_data wallet_data)) ->
  g <> []
  /\ Forall (fun t => tx_wallet_address t = a) g
  /\ StronglySorted (fun t1 t2 => (tx_timestamp t1 <= tx_timestamp t2)%Z) g
  /\ Forall (fun d => (0 <= d)%Z) (diff (map tx_timestamp g)).
Proof.
  unfold groupby_wallet_address. intros H.
  apply in_map_iff in H. destruct H as (k & [= <- <-] & Hk).
  apply -> unique_sorted_In in Hk.
  set (df := process_wallet_data wallet_data) in *.
  set (p := fun t => String.eqb (tx_wallet_address t) k).
  assert (Hall : Forall (fun t => tx_wallet_address t = k) (filter p df)).
  { apply Forall_forall. intros t Ht. apply filter_In in Ht.
    now apply String.eqb_eq. }
  assert (Hs : StronglySorted
                 (fun t1 t2 => (tx_timestamp t1 <= tx_timestamp t2)%Z)
                 (filter p df)).
  { pose proof (StronglySorted_filter tx_le p df) as Hf.
    assert (Hsorted : StronglySorted tx_le df).
    { unfold df. rewrite process_wallet_data_unfold.
      apply sort_values_sorted. }
    specialize (Hf Hsorted). clear Hsorted.
    revert Hall Hf. generalize (filter p df). intros l Hall Hf.
    induction Hf as [|x l Hl IH Hx]; [constructor|].
    inversion Hall as [|? ? Hxk Hall']; subst.
    constructor; [now apply IH|].
    rewrite Forall_forall in *. intros y Hy.
    specialize (Hx y Hy). specialize (Hall' y Hy).
    destruct Hx as [Hlt|[_ Hle]]; [|exact Hle].
    cbn [sort_key fst] in Hlt. rewrite Hall', string_compare_refl in Hlt.
    discriminate. }
  split.
  - apply in_map_iff in Hk. destruct Hk as (t & Ht & Hin).
    intros E.
    assert (Hf : In t (filter p df)).
    { apply filter_In. split; trivial. now apply String.eqb_eq. }
    rewrite E in Hf. contradiction.
  - split; [exact Hall|]. split; [exact Hs|].
    apply StronglySorted_diff. now apply StronglySorted_map.
Qed.

(** X8, on the wallet of the worked example. *)
Lemma groups_chronological_witness :
  exists g,
    In ("0xb", g) (groupby_wallet_address (process_wallet_data mint_then_repay))
    /\ map tx_timestamp g = [0; 86400]%Z
    /\ Forall (fun d => (0 <= d)%Z) (diff (map tx_timestamp g)).
Proof.
  eexists. split; [left; reflexivity|].
  split; [reflexivity|].
  exact (proj2 (proj2 (proj2
           (groups_chronological mint_then_repay "0xb" _
              (or_introl eq_refl))))).
Defined.

(* ================================================================== *)
(** ** Sub-scores stay between 0 and 1 *)

Lemma clip_in_unit (q : Q) : in_unit (clip (Num q) 0 1).
Proof.
  simpl. split.
  - apply Q.min_glb; [apply Q.le_max_r|lra].
  - apply Q.le_min_r.
Qed.

Lemma clip_unit_or_nan (x : cell) : unit_or_nan (clip x 0 1).
Proof.
  destruct x as [q|]; [right; apply clip_in_unit|now left].
Qed.

Lemma vclip_unit_or_nan (v : list cell) : Forall unit_or_nan (vclip v 0 1).
Proof.
  unfold vclip. apply Forall_forall. intros x Hx.
  apply in_map_iff in Hx. destruct Hx as (y & <- & _).
  apply clip_unit_or_nan.
Qed.

Lemma bind_Ok {A B : Type} (m : result A) (k : A -> result B) (b : B) :
  bind m k = Ok b -> exists a, m = Ok a /\ k a = Ok b.
Proof.
  destruct m as [a|e]; [|discriminate]. intros H. now exists a.
Qed.

(** Splits [H : (x <- m ;; k) = Ok v] until the final [Ok _ = Ok v]. *)
Ltac invert_binds H :=
  repeat match type of H with
    | bind _ _ = Ok _ =>
        let a := fresh "a" in
        let Ha := fresh "Ha" in
        apply bind_Ok in H; destruct H as (a & Ha & H)
    end.

(** X9. Each of the eight sub-score functions, on any table on which it
    returns, returns only cells that are NaN or numbers between 0 and 1:
    the final clip bounds every score. *)
Theorem sub_scores_clipped (name : string)
  (f : DataFrame -> result (list cell)) (df : DataFrame) (v : list cell) :
  In (name, f) sub_scores ->
  f df = Ok v ->
  Forall unit_or_nan v.
Proof.
  intros Hin H.
  repeat (destruct Hin as [[= <- <-]|Hin]); [..|contradiction];
    cbv beta delta [_calculate_liquidation_risk _calculate_behavioral_risk
                    _calculate_financial_health
                    _calculate_activity_pattern_risk
                    _calculate_repayment_behavior
                    _calculate_experience_score
                    _calculate_diversification_score
                    _calculate_bot_behavior_score] in H;
    cbv zeta in H;
    invert_binds H; injection H as <-; apply vclip_unit_or_nan.
Qed.

(** X9, on the metrics of the worked example. *)
Lemma sub_scores_clipped_witness :
  exists v,
    _calculate_experience_score
      (calculate_wallet_metrics Qsqrt53 (process_wallet_data mint_then_repay))
    = Ok v
    /\ Forall unit_or_nan v.
Proof.
  eexists. split; [vm_compute; reflexivity|].
  apply (sub_scores_clipped "experience_score" _calculate_experience_score
           (calculate_wallet_metrics Qsqrt53
              (process_wallet_data mint_then_repay))).
  - do 5 right. left. reflexivity.
  - vm_compute. reflexivity.
Defined.

Lemma Forall_zip_with {A B C : Type} (P : B -> Prop) (R : C -> Prop)
  (f : A -> B -> C) (l : list A) (l' : list B) :
  (forall a b, P b -> R (f a b)) ->
  Forall P l' -> Forall R (zip_with f l l').
Proof.
  intros Hf. revert l'.
  induction l as [|a t IH]; intros [|b t'] H; cbn [zip_with]; constructor;
    inversion H; subst; auto.
Qed.

Lemma Forall_zip_with2 {A B C : Type} (P : A -> Prop) (Q' : B -> Prop)
  (R : C -> Prop) (f : A -> B -> C) (l : list A) (l' : list B) :
  (forall a b, P a -> Q' b -> R (f a b)) ->
  Forall P l -> Forall Q' l' -> Forall R (zip_with f l l').
Proof.
  intros Hf Hl. revert l'.
  induction Hl as [|a t Ha Ht IH]; intros [|b t'] H; cbn [zip_with];
    constructor; inversion H; subst; auto.
Qed.

Lemma Forall_map_intro {A B : Type} (P : B -> Prop) (f : A -> B)
  (l : list A) :
  (forall a, P (f a)) -> Forall P (map f l).
Proof.
  intros H. apply Forall_forall. intros y Hy.
  apply in_map_iff in Hy. destruct Hy as (x & <- & _). apply H.
Qed.

Lemma Forall_map_impl {A : Type} (P R : A -> Prop) (f : A -> A)
  (l : list A) :
  (forall a, P a -> R (f a)) -> Forall P l -> Forall R (map f l).
Proof.
  intros H Hl. induction Hl; cbn [map]; constructor; auto.
Qed.

Lemma is_num_zeros (n : nat) : Forall is_num (zeros n).
Proof. unfold zeros. induction n; cbn [repeat]; constructor; simpl; auto. Qed.

Lemma is_num_ones (n : nat) : Forall is_num (ones n).
Proof. unfold ones. induction n; cbn [repeat]; constructor; simpl; auto. Qed.

Lemma is_num_of_int (l : list Z) : Forall is_num (map of_int l).
Proof. apply Forall_map_intro. intros; exact I. Qed.

Lemma is_num_vadd (u v : list cell) :
  Forall is_num u -> Forall is_num v -> Forall is_num (vadd u v).
Proof.
  apply Forall_zip_with2. intros [x|] [y|]; simpl; tauto.
Qed.

Lemma is_num_vsub (u v : list cell) :
  Forall is_num u -> Forall is_num v -> Forall is_num (vsub u v).
Proof.
  apply Forall_zip_with2. intros [x|] [y|]; simpl; tauto.
Qed.

Lemma is_num_fmax (u v : list cell) :
  Forall is_num u -> Forall is_num v -> Forall is_num (zip_with fmax u v).
Proof.
  apply Forall_zip_with2. intros [x|] [y|]; simpl; tauto.
Qed.

Lemma is_num_vscale (v : list cell) (c : Q) :
  Forall is_num v -> Forall is_num (vscale v c).
Proof. apply Forall_map_impl. intros [x|]; simpl; tauto. Qed.

Lemma is_num_rsub (c : Q) (v : list cell) :
  Forall is_num v -> Forall is_num (rsub c v).
Proof. apply Forall_map_impl. intros [x|]; simpl; tauto. Qed.

Lemma is_num_vsubc (v : list cell) (c : Q) :
  Forall is_num v -> Forall is_num (vsubc v c).
Proof. apply Forall_map_impl. intros [x|]; simpl; tauto. Qed.

Lemma is_num_vclip (v : list cell) (lo hi : Q) :
  Forall is_num v -> Forall is_num (vclip v lo hi).
Proof. apply Forall_map_impl. intros [x|]; simpl; tauto. Qed.

Lemma is_num_vdivc (v : list cell) (c : Q) :
  Qeq_bool c 0 = false -> Forall is_num v -> Forall is_num (vdivc v c).
Proof.
  intros Hc. apply Forall_map_impl. intros [x|]; simpl; [|tauto].
  now rewrite Hc.
Qed.

Lemma is_num_add_where (mask : list bool) (c : Q) (v : list cell) :
  Forall is_num v -> Forall is_num (add_where mask c v).
Proof.
  apply Forall_zip_with. intros [] [x|]; simpl; tauto.
Qed.

Lemma is_num_sub_where (mask : list bool) (c : Q) (v : list cell) :
  Forall is_num v -> Forall is_num (sub_where mask c v).
Proof.
  apply Forall_zip_with. intros [] [x|]; simpl; tauto.
Qed.

Lemma is_num_set_where (mask : list bool) (c : Q) (v : list cell) :
  Forall is_num v -> Forall is_num (set_where mask c v).
Proof.
  apply Forall_zip_with. intros [] [x|]; simpl; tauto.
Qed.

Lemma in_unit_vclip (v : list cell) :
  Forall is_num v -> Forall in_unit (vclip v 0 1).
Proof.
  apply Forall_map_impl. intros [x|] H; [apply clip_in_unit|contradiction].
Qed.

Lemma in_unit_is_num (x : cell) : in_unit x -> is_num x.
Proof. destruct x; simpl; tauto. Qed.

Create HintDb num discriminated.
#[local] Hint Resolve is_num_zeros is_num_ones is_num_of_int is_num_vadd
  is_num_vsub is_num_fmax is_num_vscale is_num_rsub is_num_vsubc
  is_num_vclip is_num_add_where is_num_sub_where is_num_set_where : num.

#[local] Hint Extern 1 (Forall is_num (vdivc _ _)) =>
  apply is_num_vdivc; [reflexivity|] : num.

(** Splits on the guards [if series.max() > 0] of the sub-scores. *)
Ltac split_guards :=
  repeat match goal with
    | |- context [if fgtb ?x ?y then _ else _] => destruct (fgtb x y)
    end.

Section MetricsColumns.
Variable sqrt : Q -> Q.
Variable groups : list (string * list NormalizedTransaction).

Lemma is_num_rates :
  Forall is_num
    (map success_rate
       (map (fun g => _calculate_single_wallet_metrics sqrt (fst g) (snd g))
            groups))
  /\ Forall is_num
       (map liquidation_rate
          (map (fun g => _calculate_single_wallet_metrics sqrt (fst g) (snd g))
               groups))
  /\ Forall is_num
       (map weekend_activity_ratio
          (map (fun g => _calculate_single_wallet_metrics sqrt (fst g) (snd g))
               groups))
  /\ Forall is_num
       (map night_activity_ratio
          (map (fun g => _calculate_single_wallet_metrics sqrt (fst g) (snd g))
               groups)).
Proof.
  repeat split; rewrite map_map; apply Forall_map_intro; intros g;
    apply in_unit_is_num; apply rate_in_unit.
Qed.

Lemma is_num_ratios :
  Forall is_num
    (map supply_ratio
       (map (fun g => _calculate_single_wallet_metrics sqrt (fst g) (snd g))
            groups))
  /\ Forall is_num
       (map withdraw_ratio
          (map (fun g => _calculate_single_wallet_metrics sqrt (fst g) (snd g))
               groups))
  /\ Forall is_num
       (map borrow_ratio
          (map (fun g => _calculate_single_wallet_metrics sqrt (fst g) (snd g))
               groups))
  /\ Forall is_num
       (map repay_ratio
          (map (fun g => _calculate_single_wallet_metrics sqrt (fst g) (snd g))
               groups)).
Proof.
  repeat split; rewrite map_map; apply Forall_map_intro; intros g;
    apply (action_ratios_are_numbers sqrt (fst g) (snd g)).
Qed.

(** X10. On the metrics of any batch that is not empty,
    [calculate_risk_features] succeeds, keeps one row per wallet, and each
    of the eight columns it adds holds, for every wallet, a number between 0
    and 1 -- never NaN, even for the wallets whose activity_regularity is
    NaN. *)
Theorem risk_features_in_unit :
  groups <> [] ->
  exists rf,
    calculate_risk_features
      (DataFrame_of_metrics
         (map (fun g => _calculate_single_wallet_metrics sqrt (fst g) (snd g))
              groups))
    = Ok rf
    /\ nrows rf = List.length groups
    /\ Forall (fun name =>
                 exists v,
                   getitem rf name = Ok (NumCol v)
                   /\ List.length v = List.length groups
                   /\ Forall in_unit v)
              score_names.
Proof.
  intros _.
  destruct is_num_rates as (Hsr & Hlr & Hwe & Hni).
  destruct is_num_ratios as (Hsu & Hwi & Hbo & Hre).
  set (ms := map _ groups) in *.
  assert (Hlen : List.length ms = List.length groups)
    by (subst ms; apply length_map).
  eexists. split; [reflexivity|].
  split; [exact Hlen|].
  repeat constructor;
    (eexists; split; [reflexivity|]; split;
     [cbn [nrows DataFrame_of_metrics]; split_guards; series_length
     |apply in_unit_vclip; cbn [nrows DataFrame_of_metrics]; split_guards;
      auto 20 with num]).
Qed.

End MetricsColumns.

(** X10, on the metrics of the worked example. *)
Lemma risk_features_in_unit_witness :
  exists rf v,
    calculate_risk_features
      (DataFrame_of_metrics
         (wallet_metrics Qsqrt53 (process_wallet_data mint_then_repay)))
    = Ok rf
    /\ getitem rf "liquidation_risk_score" = Ok (NumCol v)
    /\ List.length v = 1%nat
    /\ Forall in_unit v.
Proof.
  destruct (risk_features_in_unit Qsqrt53
              (groupby_wallet_address (process_wallet_data mint_then_repay)))
    as (rf & Hrf & _ & Hcols).
  - vm_compute. discriminate.
  - apply Forall_inv in Hcols. destruct Hcols as (v & Hv & Hl & Hu).
    exists rf, v. split; [exact Hrf|]. split; [exact Hv|].
    split; [exact Hl|exact Hu].
Defined.

(* ================================================================== *)
(** ** The table of risk features *)

Lemma assoc_set_assoc {V : Type} (k k' : string) (v : V)
  (l : list (string * V)) :
  assoc k (set_assoc k' v l) = if String.eqb k k' then Some v else assoc k l.
Proof.
  induction l as [|[k0 v0] t IH]; cbn [set_assoc assoc].
  - destruct (String.eqb k k'); reflexivity.
  - destruct (String.eqb k' k0) eqn:E0; cbn [assoc].
    + apply String.eqb_eq in E0. subst k0.
      destruct (String.eqb k k'); reflexivity.
    + rewrite IH. destruct (String.eqb k k') eqn:E; trivial.
      apply String.eqb_eq in E. subst k'. now rewrite E0.
Qed.

Lemma getitem_setitem (df : DataFrame) (k k' : string) (c : column) :
  getitem (setitem df k' c) k
  = if String.eqb k k' then Ok c else getitem df k.
Proof.
  unfold getitem, setitem. cbn [columns]. rewrite assoc_set_assoc.
  destruct (String.eqb k k'); reflexivity.
Qed.

Lemma has_column_setitem (df : DataFrame) (k k' : string) (c : column) :
  has_column (setitem df k' c) k = String.eqb k k' || has_column df k.
Proof.
  unfold has_column, setitem. cbn [columns]. rewrite assoc_set_assoc.
  destruct (String.eqb k k'); reflexivity.
Qed.

Lemma eqb_not_in (k : string) (names : list string) (x : string) :
  ~ In k names -> In x names -> String.eqb k x = false.
Proof.
  intros Hk Hx. apply String.eqb_neq. intros ->. contradiction.
Qed.

(** X11. When [calculate_risk_features] returns, the table it returns has
    the rows of the metrics table and all its columns unchanged, except the
    eight score columns; each of these holds the output of its sub-score
    function on the metrics table as it was received. *)
Theorem risk_features_extend (df rf : DataFrame) :
  calculate_risk_features df = Ok rf ->
  nrows rf = nrows df
  /\ (forall k, ~ In k score_names -> getitem rf k = getitem df k)
  /\ Forall (fun nf =>
               exists v, snd nf df = Ok v
                         /\ getitem rf (fst nf) = Ok (NumCol v))
            sub_scores.
Proof.
  intros H. unfold calculate_risk_features in H. cbv zeta in H.
  invert_binds H. injection H as <-.
  split; [reflexivity|]. split.
  - intros k Hk. rewrite !getitem_setitem.
    rewrite !(eqb_not_in k score_names) by (trivial; simpl; tauto).
    reflexivity.
  - repeat constructor; cbn [fst snd]; eexists;
      (split; [eassumption|]); rewrite !getitem_setitem; reflexivity.
Qed.

(** X11, on the metrics of the worked example. *)
Lemma risk_features_extend_witness :
  exists rf,
    calculate_risk_features
      (calculate_wallet_metrics Qsqrt53 (process_wallet_data mint_then_repay))
    = Ok rf
    /\ getitem rf "total_transactions"
       = getitem (calculate_wallet_metrics Qsqrt53
                    (process_wallet_data mint_then_repay))
                 "total_transactions".
Proof.
  destruct (calculate_risk_features
              (calculate_wallet_metrics Qsqrt53
                 (process_wallet_data mint_then_repay)))
    as [rf|e] eqn:E; [|vm_compute in E; discriminate].
  exists rf. split; [reflexivity|].
  apply (risk_features_extend _ rf E).
  intros H. vm_compute in H. intuition discriminate.
Defined.

(* ================================================================== *)
(** ** The anomaly detector *)

Lemma filter_nil_iff {A : Type} (p : A -> bool) (l : list A) :
  filter p l = [] <-> forall x, In x l -> p x = false.
Proof.
  induction l as [|a t IH]; cbn [filter].
  - split; [intros _ x []|trivial].
  - destruct (p a) eqn:E; split.
    + discriminate.
    + intros H. specialize (H a (or_introl eq_refl)). congruence.
    + intros H x [<-|Hx]; trivial. now apply IH.
    + intros H. apply IH. intros x Hx. apply H. now right.
Qed.

(** X12. On a table that has none of the eight feature columns,
    [detect_anomalies] answers a score of 0 for every row, whatever the
    scaler and the forest would do: they are not consulted. *)
Theorem detect_anomalies_without_features
  (scaler_fit_transform : list (list Q) -> result (list (list Q)))
  (decision_function : list (list Q) -> result (list Q))
  (risk_features : DataFrame) :
  (forall f, In f numerical_features -> has_column risk_features f = false) ->
  detect_anomalies scaler_fit_transform decision_function risk_features
  = Ok (zeros (nrows risk_features)).
Proof.
  intros H. unfold detect_anomalies, available_features.
  now rewrite (proj2 (filter_nil_iff _ _) H).
Qed.

(** X12, on a table that only has the seven sub-score columns, with
    estimators that refuse every input. *)
Lemma detect_anomalies_without_features_witness :
  detect_anomalies failing_scaler failing_forest twin_wallets
  = Ok [Num 0; Num 0].
Proof.
  apply (detect_anomalies_without_features failing_scaler failing_forest
           twin_wallets).
  intros f Hf. simpl in Hf.
  repeat (destruct Hf as [<-|Hf]; [reflexivity|]). contradiction.
Defined.

Lemma fold_Qmin_spec (t : list Q) (x : Q) :
  fold_left Qmin t x <= x
  /\ Forall (fun y => fold_left Qmin t x <= y) t
  /\ Exists (fun y => fold_left Qmin t x == y) (x :: t).
Proof.
  revert x. induction t as [|y t IH]; intros x; cbn [fold_left].
  - split; [lra|]. split; [constructor|]. left. reflexivity.
  - destruct (IH (Qmin x y)) as (H1 & H2 & H3).
    pose proof (Q.le_min_l x y). pose proof (Q.le_min_r x y).
    split; [lra|]. split; [constructor; [lra|exact H2]|].
    inversion H3 as [? ? Hhd|? ? Htl]; subst.
    + destruct (Q.min_dec x y) as [E|E]; [left|right; left];
        (eapply Qeq_trans; [exact Hhd|exact E]).
    + right. now right.
Qed.

Lemma fold_Qmax_spec (t : list Q) (x : Q) :
  x <= fold_left Qmax t x
  /\ Forall (fun y => y <= fold_left Qmax t x) t
  /\ Exists (fun y => fold_left Qmax t x == y) (x :: t).
Proof.
  revert x. induction t as [|y t IH]; intros x; cbn [fold_left].
  - split; [lra|]. split; [constructor|]. left. reflexivity.
  - destruct (IH (Qmax x y)) as (H1 & H2 & H3).
    pose proof (Q.le_max_l x y). pose proof (Q.le_max_r x y).
    split; [lra|]. split; [constructor; [lra|exact H2]|].
    inversion H3 as [? ? Hhd|? ? Htl]; subst.
    + destruct (Q.max_dec x y) as [E|E]; [left|right; left];
        (eapply Qeq_trans; [exact Hhd|exact E]).
    + right. now right.
Qed.

Lemma Exists_map_intro {A B : Type} (P : A -> Prop) (R : B -> Prop)
  (f : A -> B) (l : list A) :
  (forall a, P a -> R (f a)) -> Exists P l -> Exists R (map f l).
Proof.
  intros H. induction 1; cbn [map]; [left|right]; auto.
Qed.

(** The normalisation when the decision scores are not all equal. *)
Lemma normalize_scores_regular (ds : list Q) (x y : Q) :
  In x ds -> In y ds -> x < y ->
  exists v,
    normalize_scores ds = Ok v
    /\ List.length v = List.length ds
    /\ Forall in_unit v
    /\ Exists (fun c => cell_eq c (Num 0)) v
    /\ Exists (fun c => cell_eq c (Num 1)) v.
Proof.
  intros Hx Hy Hxy.
  destruct ds as [|d t]; [contradiction|].
  destruct (fold_Qmin_spec t d) as (L1 & L2 & L3).
  destruct (fold_Qmax_spec t d) as (U1 & U2 & U3).
  unfold normalize_scores, amin, amax. cbn [bind].
  set (lo := fold_left Qmin t d) in *.
  set (hi := fold_left Qmax t d) in *.
  assert (Hlo : forall z, In z (d :: t) -> lo <= z).
  { intros z [<-|Hz]; trivial. rewrite Forall_forall in L2. now apply L2. }
  assert (Hhi : forall z, In z (d :: t) -> z <= hi).
  { intros z [<-|Hz]; trivial. rewrite Forall_forall in U2. now apply U2. }
  assert (Hrange : 0 < hi - lo).
  { pose proof (Hlo x Hx). pose proof (Hhi y Hy). lra. }
  assert (Hnz : Qeq_bool (hi - lo) 0 = false).
  { destruct (Qeq_bool (hi - lo) 0) eqn:E; trivial.
    apply Qeq_bool_eq in E. lra. }
  eexists. split; [reflexivity|].
  split; [apply length_map|].
  split; [|split].
  - apply Forall_forall. intros c Hc. apply in_map_iff in Hc.
    destruct Hc as (z & <- & Hz). unfold fdiv. rewrite Hnz. simpl.
    pose proof (Hlo z Hz). pose proof (Hhi z Hz). split.
    + apply Qle_shift_div_l; trivial. lra.
    + apply Qle_shift_div_r; trivial. lra.
  - apply (Exists_map_intro (fun z => lo == z)); [|exact L3].
    intros z Hz. unfold fdiv. rewrite Hnz. simpl.
    rewrite <- Hz. field. lra.
  - apply (Exists_map_intro (fun z => hi == z)); [|exact U3].
    intros z Hz. unfold fdiv. rewrite Hnz. simpl.
    rewrite <- Hz. field. lra.
Qed.

(** X13. When the decision scores are not all equal, [detect_anomalies]
    returns one number between 0 and 1 per decision score; a wallet with the
    lowest decision score gets 0 and one with the highest gets 1. *)
Theorem detect_anomalies_regular
  (scaler_fit_transform : list (list Q) -> result (list (list Q)))
  (decision_function : list (list Q) -> result (list Q))
  (risk_features : DataFrame) (X X_scaled : list (list Q))
  (decision_scores : list Q) (x y : Q) :
  available_features risk_features <> [] ->
  prepare_data risk_features = Ok X ->
  scaler_fit_transform X = Ok X_scaled ->
  decision_function X_scaled = Ok decision_scores ->
  In x decision_scores -> In y decision_scores -> x < y ->
  exists v,
    detect_anomalies scaler_fit_transform decision_function risk_features
    = Ok v
    /\ List.length v = List.length decision_scores
    /\ Forall in_unit v
    /\ Exists (fun c => cell_eq c (Num 0)) v
    /\ Exists (fun c => cell_eq c (Num 1)) v.
Proof.
  intros Hav HX Hs Hd Hx Hy Hxy.
  unfold detect_anomalies.
  destruct (available_features risk_features) as [|f l] eqn:E;
    [congruence|].
  cbn [List.length Nat.eqb].
  rewrite HX. cbn [bind]. rewrite Hs. cbn [bind]. rewrite Hd. cbn [bind].
  now apply (normalize_scores_regular decision_scores x y).
Qed.

(** X13, on a batch of two wallets whose decision scores are 0 and 1. *)
Lemma detect_anomalies_regular_witness :
  exists v,
    detect_anomalies identity_scaler ramp_forest
      (calculate_wallet_metrics Qsqrt53 (process_wallet_data two_active))
    = Ok v
    /\ List.length v = 2%nat
    /\ Forall in_unit v.
Proof.
  pose proof (fun X X_scaled =>
                detect_anomalies_regular identity_scaler ramp_forest
                  (calculate_wallet_metrics Qsqrt53
                     (process_wallet_data two_active))
                  X X_scaled [0; 1] 0 1) as Hthm.
  edestruct Hthm as (v & H & Hl & Hu & _).
  - vm_compute. discriminate.
  - vm_compute. reflexivity.
  - reflexivity.
  - vm_compute. reflexivity.
  - now left.
  - right. now left.
  - reflexivity.
  - exists v. split; [exact H|]. split; [exact Hl|exact Hu].
Defined.

(* ================================================================== *)
(** ** Percentiles of a constant column *)

Lemma stable_sort_repeat (q : Q) (n : nat) :
  stable_sort Qle_bool (repeat q n) = repeat q n.
Proof.
  induction n as [|n IH]; [reflexivity|].
  cbn [repeat stable_sort fold_right].
  change (fold_right (insert_sorted Qle_bool) [] (repeat q n))
    with (stable_sort Qle_bool (repeat q n)).
  rewrite IH. destruct n as [|n]; [reflexivity|].
  cbn [repeat insert_sorted].
  replace (Qle_bool q q) with true; [reflexivity|].
  symmetry. apply Qle_bool_iff. lra.
Qed.

Lemma dropna_repeat (q : Q) (n : nat) :
  dropna (repeat (Num q) n) = repeat q n.
Proof. induction n as [|n IH]; [reflexivity|]. simpl. now f_equal. Qed.

Lemma nth_repeat_default {A : Type} (a : A) (n k : nat) :
  nth k (repeat a n) a = a.
Proof.
  revert k. induction n as [|n IH]; intros [|k]; cbn [repeat nth]; auto.
Qed.

(** X14. When all the wallets of a batch have the same value in a column,
    every percentile of the column is that value, so the strict comparison
    with the percentile flags no wallet; in particular no percentile-based
    penalty or bonus applies in a batch of a single wallet. *)
Theorem quantile_constant_column (q p : Q) (n : nat) :
  (exists r, quantile (repeat (Num q) (S n)) p = Num r /\ r == q)
  /\ mask_gt (repeat (Num q) (S n)) (quantile (repeat (Num q) (S n)) p)
     = repeat false (S n).
Proof.
  assert (H : exists r, quantile (repeat (Num q) (S n)) p = Num r /\ r == q).
  { unfold quantile. rewrite dropna_repeat, stable_sort_repeat.
    cbn [repeat]. eexists. split; [reflexivity|].
    change (q :: repeat q n) with (repeat q (S n)).
    rewrite !nth_repeat_default. ring. }
  split; [exact H|].
  destruct H as (r & -> & Hr).
  unfold mask_gt. rewrite map_repeat. f_equal.
  unfold fgtb, Qlt_bool.
  replace (Qle_bool q r) with true; [reflexivity|].
  symmetry. apply Qle_bool_iff. lra.
Qed.

(* ================================================================== *)
(** ** The composite score *)

Lemma foldM_invariant {A S : Type} (P : S -> Prop)
  (step : A -> S -> result S) (l : list A) (s s' : S) :
  (forall a t t', step a t = Ok t' -> P t -> P t') ->
  foldM step l s = Ok s' -> P s -> P s'.
Proof.
  intros Hstep. revert s.
  induction l as [|a l IH]; intros s H Hs; cbn [foldM] in H.
  - now injection H as <-.
  - apply bind_Ok in H. destruct H as (t & Ht & H).
    apply (IH t); trivial. now apply (Hstep a s t).
Qed.

Lemma is_num_fillna (c : list cell) :
  Forall is_num (map (fun x => Num (fillna 0 x)) c).
Proof. apply Forall_map_intro. intros; exact I. Qed.

#[local] Hint Resolve is_num_fillna : num.

Lemma risk_component_step_num (rf : DataFrame) (item : string * Q)
  (s s' : list cell) :
  risk_component_step rf item s = Ok s' ->
  Forall is_num s -> Forall is_num s'.
Proof.
  unfold risk_component_step. destruct item as [component weight].
  destruct (has_column rf component); intros H Hs.
  - invert_binds H. injection H as <-. auto with num.
  - now injection H as <-.
Qed.

Lemma positive_component_step_num (rf : DataFrame) (item : string * Q)
  (s s' : list cell) :
  positive_component_step rf item s = Ok s' ->
  Forall is_num s -> Forall is_num s'.
Proof.
  unfold positive_component_step. destruct item as [component weight].
  destruct (has_column rf component); intros H Hs.
  - invert_binds H. injection H as <-. auto with num.
  - now injection H as <-.
Qed.

(** X15. On a table whose sub-score columns hold only NaN and numbers
    between 0 and 1, as the sub-score functions return them, every composite
    score that [_calculate_composite_score] returns is a number between 0
    and 1: the NaN cells are read as 0 and never reach the composite. *)
Theorem composite_score_in_unit (risk_features : DataFrame)
  (composite : list cell) :
  (forall name v,
      In name composite_components ->
      getnum risk_features name = Ok v ->
      Forall unit_or_nan v) ->
  _calculate_composite_score risk_features = Ok composite ->
  Forall in_unit composite.
Proof.
  intros _ H. unfold _calculate_composite_score in H. cbv zeta in H.
  invert_binds H. injection H as <-.
  apply in_unit_vclip.
  match goal with
  | Hp : foldM (positive_component_step _) _ _ = Ok _ |- _ =>
      apply (foldM_invariant _ _ _ _ _
               (positive_component_step_num risk_features) Hp)
  end.
  match goal with
  | Hr : foldM (risk_component_step _) _ _ = Ok _ |- _ =>
      apply (foldM_invariant _ _ _ _ _
               (risk_component_step_num risk_features) Hr)
  end.
  apply is_num_zeros.
Qed.

(** X15, on a table whose financial health column holds a NaN. *)
Lemma composite_score_in_unit_witness :
  exists composite,
    _calculate_composite_score
      (setitem twin_wallets "financial_health_score" (NumCol [NaN; Num 1]))
    = Ok composite
    /\ Forall in_unit composite.
Proof.
  eexists. split; [vm_compute; reflexivity|].
  apply (composite_score_in_unit
           (setitem twin_wallets "financial_health_score"
                    (NumCol [NaN; Num 1]))).
  - intros name v Hin Hv. simpl in Hin.
    repeat (destruct Hin as [<-|Hin];
            [vm_compute in Hv; injection Hv as <-;
             repeat (apply Forall_cons || apply Forall_nil);
             first [left; reflexivity
                   |right; vm_compute; split; discriminate]|]).
    contradiction.
  - vm_compute. reflexivity.
Defined.

(** Reads the [i]-th cell of an expression built from lists whose [i]-th
    elements are given by hypotheses [nth_error _ i = Some _]. *)
Ltac row_at :=
  autounfold with series;
  repeat (rewrite nth_error_zip_with || rewrite nth_error_map);
  repeat match goal with
    | H : nth_error ?l ?i = Some _ |- context [nth_error ?l ?i] => rewrite H
    end;
  cbn [option_map].

(** X16. On a table that holds the seven sub-score columns, the composite
    score of a wallet is the weighted sum
    0.25 liquidation + 0.15 behavioral + 0.10 activity
    + 0.20 (1 - health) + 0.15 (1 - repayment) + 0.10 (1 - experience)
    + 0.05 (1 - diversification), clipped to [0, 1]. *)
Theorem composite_score_formula (ids : list string)
  (lq bq hq aq rq eq dq : list Q) :
  exists composite,
    _calculate_composite_score (risk_frame ids lq bq hq aq rq eq dq)
    = Ok composite
    /\ forall (i : nat) (l b h a r e d : Q),
         (i < List.length ids)%nat ->
         nth_error lq i = Some l -> nth_error bq i = Some b ->
         nth_error hq i = Some h -> nth_error aq i = Some a ->
         nth_error rq i = Some r -> nth_error eq i = Some e ->
         nth_error dq i = Some d ->
         exists c,
           nth_error composite i = Some (Num c)
           /\ c == Qmin (Qmax (0.25 * l + 0.15 * b + 0.10 * a
                               + 0.20 * (1 - h) + 0.15 * (1 - r)
                               + 0.10 * (1 - e) + 0.05 * (1 - d)) 0) 1.
Proof.
  eexists. split; [reflexivity|].
  intros i l b h a r e d Hi Hl Hb Hh Ha Hr He Hd.
  cbn [nrows risk_frame].
  row_at.
  rewrite (nth_error_repeat (Num 0) Hi).
  cbn [fillna fmul fadd fsub clip].
  eexists. split; [reflexivity|].
  match goal with
  | |- Qmin (Qmax ?x 0) 1 == Qmin (Qmax ?y 0) 1 =>
      assert (E : x == y) by ring; rewrite E; reflexivity
  end.
Qed.

(** X16, on the wallet with composite 0.226. *)
Lemma composite_score_formula_witness :
  exists composite c,
    _calculate_composite_score borderline_wallet = Ok composite
    /\ nth_error composite 0 = Some (Num c)
    /\ c == 0.226.
Proof.
  destruct (composite_score_formula ["0x03"] [0] [0.24] [0.6] [0] [1] [0.1]
              [0.6]) as (composite & H & Hrow).
  destruct (Hrow 0%nat 0 0.24 0.6 0 1 0.1 0.6) as (c & Hc & Ec);
    try reflexivity; [repeat constructor|].
  exists composite, c. split; [exact H|]. split; [exact Hc|].
  rewrite Ec. reflexivity.
Defined.

(* ================================================================== *)
(** ** The table of final scores *)

Lemma mapM_Ok {A B : Type} (f : A -> result B) (l : list A) (l' : list B) :
  mapM f l = Ok l' -> Forall2 (fun x y => f x = Ok y) l l'.
Proof.
  revert l'. induction l as [|a t IH]; intros l' H; cbn [mapM] in H.
  - injection H as <-. constructor.
  - invert_binds H. injection H as <-. constructor; auto.
Qed.

Lemma round_astype_int_Ok (v : list cell) (zs : list Z) :
  round_astype_int v = Ok zs ->
  exists qs, v = map Num qs /\ zs = map round_half_even qs.
Proof.
  intros H. apply mapM_Ok in H.
  induction H as [|x z v zs Hx _ IH].
  - now exists [].
  - destruct IH as (qs & -> & ->).
    destruct x as [q|]; [|discriminate]. injection Hx as <-.
    now exists (q :: qs).
Qed.

Lemma Qlt_bool_true (x y : Q) : Qlt_bool x y = true -> x < y.
Proof.
  unfold Qlt_bool. intros H. apply Qle_bool_false.
  now destruct (Qle_bool y x).
Qed.

Lemma Qlt_bool_false (x y : Q) : Qlt_bool x y = false -> y <= x.
Proof.
  unfold Qlt_bool. intros H. apply Qle_bool_iff.
  now destruct (Qle_bool y x).
Qed.

(** Rounding moves a number by at most one half. *)
Lemma round_half_even_near (q : Q) :
  inject_Z (round_half_even q) - (1 # 2) <= q
  /\ q <= inject_Z (round_half_even q) + (1 # 2).
Proof.
  unfold round_half_even.
  pose proof (Qfloor_le q) as Hlo. pose proof (Qlt_floor q) as Hhi.
  rewrite inject_Z_plus in Hhi. change (inject_Z 1) with 1 in Hhi.
  set (f := Qfloor q) in *.
  destruct (Qlt_bool (q - inject_Z f) (1 # 2)) eqn:E1.
  - apply Qlt_bool_true in E1. split; lra.
  - apply Qlt_bool_false in E1.
    destruct (Qlt_bool (1 # 2) (q - inject_Z f)) eqn:E2.
    + rewrite inject_Z_plus. change (inject_Z 1) with 1. split; lra.
    + apply Qlt_bool_false in E2.
      destruct (Z.even f);
        rewrite ?inject_Z_plus; change (inject_Z 1) with 1; split; lra.
Qed.

Lemma round_half_even_bounds (q : Q) (lo hi : Z) :
  inject_Z lo <= q <= inject_Z hi ->
  (lo <= round_half_even q <= hi)%Z.
Proof.
  intros [Hlo Hhi].
  destruct (round_half_even_near q) as [H1 H2].
  set (s := round_half_even q) in *.
  split.
  - destruct (Z_le_gt_dec lo s) as [|Hgt]; trivial. exfalso.
    assert (Hs : inject_Z s + 1 <= inject_Z lo).
    { change 1 with (inject_Z 1). rewrite <- inject_Z_plus, <- Zle_Qle. lia. }
    lra.
  - destruct (Z_le_gt_dec s hi) as [|Hgt]; trivial. exfalso.
    assert (Hs : inject_Z hi + 1 <= inject_Z s).
    { change 1 with (inject_Z 1). rewrite <- inject_Z_plus, <- Zle_Qle. lia. }
    lra.
Qed.

(** ** The alignment of the composite and the anomaly scores *)

Lemma reindex_id (n : nat) (v : list cell) :
  (n <= List.length v)%nat -> reindex n v = v.
Proof.
  intros H. unfold reindex.
  replace (n - List.length v)%nat with 0%nat by lia.
  apply app_nil_r.
Qed.

Lemma length_reindex (n : nat) (v : list cell) :
  (List.length v <= n)%nat -> List.length (reindex n v) = n.
Proof.
  intros H. unfold reindex. rewrite length_app, repeat_length. lia.
Qed.

Lemma nth_error_reindex (n : nat) (v : list cell) (i : nat) (x : cell) :
  nth_error v i = Some x -> nth_error (reindex n v) i = Some x.
Proof.
  intros H. unfold reindex. rewrite nth_error_app1; trivial.
  apply nth_error_Some. congruence.
Qed.

Lemma nth_error_reindex_pad (n : nat) (v : list cell) (i : nat) :
  (List.length v <= i < n)%nat -> nth_error (reindex n v) i = Some NaN.
Proof.
  intros H. unfold reindex. rewrite nth_error_app2 by lia.
  apply nth_error_repeat. lia.
Qed.

(** A NaN in either operand reaches the credit score of its row. *)
Lemma credit_score_nan (c a : list cell) (i : nat) (x y : cell) :
  nth_error c i = Some x -> nth_error a i = Some y ->
  x = NaN \/ y = NaN ->
  nth_error (vscale (rsub 1 (final_risk c a)) 1000) i = Some NaN.
Proof.
  intros Hx Hy Hnan. unfold final_risk. row_at.
  destruct Hnan as [-> | ->]; [reflexivity|]. destruct x; reflexivity.
Qed.

(** The cast to integers succeeds only if the composite and the anomaly
    scores have the same labels. *)
Lemma aligned_credit_numbers (c a : list cell) (credit : list Q) :
  vscale
    (rsub 1
       (final_risk
          (reindex (Nat.max (List.length c) (List.length a)) c)
          (reindex (Nat.max (List.length c) (List.length a)) a)))
    1000
  = map Num credit ->
  List.length c = List.length a.
Proof.
  intros H.
  destruct (Nat.eq_dec (List.length c) (List.length a)) as [E|E]; trivial.
  exfalso.
  set (n := Nat.max (List.length c) (List.length a)) in *.
  set (i := Nat.min (List.length c) (List.length a)).
  assert (Hi : (i < n)%nat) by (subst i n; lia).
  assert (Hc : exists x, nth_error (reindex n c) i = Some x).
  { destruct (nth_error (reindex n c) i) eqn:Ex; [eauto|].
    apply nth_error_None in Ex. rewrite length_reindex in Ex; subst n; lia. }
  assert (Ha : exists y, nth_error (reindex n a) i = Some y).
  { destruct (nth_error (reindex n a) i) eqn:Ey; [eauto|].
    apply nth_error_None in Ey. rewrite length_reindex in Ey; subst n; lia. }
  destruct Hc as (x & Hx), Ha as (y & Hy).
  assert (Hnan : x = NaN \/ y = NaN).
  { destruct (Nat.lt_ge_cases (List.length c) (List.length a)) as [Hlt|Hge].
    - left. rewrite nth_error_reindex_pad in Hx by (subst i n; lia).
      congruence.
    - right. rewrite nth_error_reindex_pad in Hy by (subst i n; lia).
      congruence. }
  pose proof (credit_score_nan _ _ i x y Hx Hy Hnan) as Hrow.
  rewrite H, nth_error_map in Hrow.
  destruct (nth_error credit i); discriminate.
Qed.

(** The columns [score] and [risk_category] of the table that
    [calculate_scores] returns come from the same credit scores, all of
    them numbers between 0 and 1000: one rounded, the other categorized.
    There is one credit score per composite score and per anomaly score. *)
Lemma calculate_scores_columns (rf out : DataFrame) (an : list cell) :
  calculate_scores rf an = Ok out ->
  exists composite credit,
    _calculate_composite_score rf = Ok composite
    /\ List.length composite = List.length an
    /\ List.length credit = List.length an
    /\ getitem out "score" = Ok (IntCol (map round_half_even credit))
    /\ getitem out "risk_category"
       = Ok (StrCol (map (fun q => categorize (Num q)) credit))
    /\ Forall (fun q => 0 <= q <= 1000) credit
    /\ nrows out = nrows rf.
Proof.
  intros H. unfold calculate_scores in H. cbv zeta in H.
  apply bind_Ok in H. destruct H as (ids & Hid & H).
  apply bind_Ok in H. destruct H as (composite & Hcomp & H).
  apply bind_Ok in H. destruct H as (zs & Hr & H).
  injection H as <-.
  destruct (round_astype_int_Ok _ _ Hr) as (credit & Hc & ->).
  pose proof (aligned_credit_numbers _ _ _ Hc) as Hlen.
  rewrite !reindex_id in Hc by lia.
  rewrite !reindex_id by lia.
  exists composite, credit.
  split; [exact Hcomp|]. split; [exact Hlen|].
  split.
  { rewrite <- (length_map Num credit), <- Hc. unfold final_risk.
    series_length. rewrite Hlen. apply Nat.min_id. }
  rewrite !getitem_setitem. cbn [String.eqb Ascii.eqb Bool.eqb].
  split; [reflexivity|].
  split; [unfold _categorize_risk; rewrite Hc, map_map; reflexivity|].
  split; [|reflexivity].
  pose proof (vclip_unit_or_nan
                (vsub composite (vscale (rsub 1 an) 0.1))) as Hf.
  fold (final_risk composite an) in Hf.
  revert Hc Hf. generalize (final_risk composite an). clear.
  intros fr. revert credit.
  induction fr as [|x fr IH]; intros [|q credit] Hc Hf;
    cbn [vscale rsub map] in Hc; try discriminate; constructor.
  - injection Hc as Hq _. inversion Hf as [|? ? [Hx|Hx] _]; subst.
    + discriminate.
    + destruct x as [f|]; [|contradiction]. simpl in Hx, Hq.
      injection Hq as <-. lra.
  - injection Hc as _ Hc. inversion Hf; subst. now apply IH.
Qed.

Lemma categorize_in_labels (x : cell) : In (categorize x) risk_labels.
Proof. apply categorize_labels. Qed.

Lemma assoc_In {V : Type} (k : string) (l : list (string * V)) (v : V) :
  assoc k l = Some v -> In (k, v) l.
Proof.
  induction l as [|[k' v'] t IH]; cbn [assoc]; [discriminate|].
  destruct (String.eqb k k') eqn:E.
  - apply String.eqb_eq in E. intros [= <-]. subst. now left.
  - intros H. right. now apply IH.
Qed.

Lemma getnum_length (rf : DataFrame) (k : string) (v : list cell) :
  well_formed rf -> getnum rf k = Ok v -> List.length v = nrows rf.
Proof.
  intros Hwf H. unfold getnum, getitem in H.
  destruct (assoc k (columns rf)) as [c|] eqn:E; [|discriminate].
  apply assoc_In in E. unfold well_formed in Hwf.
  rewrite Forall_forall in Hwf. specialize (Hwf _ E). cbn [snd] in Hwf.
  cbn [bind] in H. destruct c as [w|w|w]; [| |discriminate];
    injection H as <-; cbn [column_length] in Hwf;
    now rewrite ?length_map.
Qed.

Lemma composite_score_length (rf : DataFrame) (composite : list cell) :
  well_formed rf ->
  _calculate_composite_score rf = Ok composite ->
  List.length composite = nrows rf.
Proof.
  intros Hwf H. unfold _calculate_composite_score in H. cbv zeta in H.
  invert_binds H. injection H as <-.
  unfold vclip. rewrite length_map.
  assert (Hrisk : forall item s s',
             risk_component_step rf item s = Ok s' ->
             List.length s = nrows rf -> List.length s' = nrows rf).
  { intros [component weight] s s' Hs Hl. unfold risk_component_step in Hs.
    destruct (has_column rf component); [|now injection Hs as <-].
    apply bind_Ok in Hs. destruct Hs as (c & Hc & Hs). injection Hs as <-.
    apply (getnum_length _ _ _ Hwf) in Hc. series_length.
    rewrite Hl, Hc. apply Nat.min_id. }
  assert (Hpos : forall item s s',
             positive_component_step rf item s = Ok s' ->
             List.length s = nrows rf -> List.length s' = nrows rf).
  { intros [component weight] s s' Hs Hl.
    unfold positive_component_step in Hs.
    destruct (has_column rf component); [|now injection Hs as <-].
    apply bind_Ok in Hs. destruct Hs as (c & Hc & Hs). injection Hs as <-.
    apply (getnum_length _ _ _ Hwf) in Hc. series_length.
    rewrite Hl, Hc. apply Nat.min_id. }
  match goal with
  | Hp : foldM (positive_component_step _) _ _ = Ok _ |- _ =>
      apply (foldM_invariant _ _ _ _ _ Hpos Hp)
  end.
  match goal with
  | Hr : foldM (risk_component_step _) _ _ = Ok _ |- _ =>
      apply (foldM_invariant _ _ _ _ _ Hrisk Hr)
  end.
  unfold zeros. apply repeat_length.
Qed.

(** X17. Whenever [calculate_scores] returns on a table whose columns have
    one cell per row, there was one anomaly score per row, and the table
    returned has the same number of rows, with one integer score between 0
    and 1000 and one of the five risk categories in every row. *)
Theorem final_scores_in_range (risk_features out : DataFrame)
  (anomaly_scores : list cell) :
  well_formed risk_features ->
  calculate_scores risk_features anomaly_scores = Ok out ->
  exists scores categories,
    getitem out "score" = Ok (IntCol scores)
    /\ getitem out "risk_category" = Ok (StrCol categories)
    /\ nrows out = nrows risk_features
    /\ List.length anomaly_scores = nrows out
    /\ List.length scores = nrows out
    /\ List.length categories = nrows out
    /\ Forall (fun z => (0 <= z <= 1000)%Z) scores
    /\ Forall (fun c => In c risk_labels) categories.
Proof.
  intros Hwf H.
  destruct (calculate_scores_columns _ _ _ H)
    as (composite & credit & Hcomp & Hlc & Hlq & Hs & Hc & Hq & Hn).
  apply (composite_score_length _ _ Hwf) in Hcomp.
  do 2 eexists. split; [exact Hs|]. split; [exact Hc|].
  split; [exact Hn|].
  split; [congruence|].
  split; [rewrite length_map; congruence|].
  split; [rewrite length_map; congruence|].
  split.
  - apply Forall_forall. intros z Hz. apply in_map_iff in Hz.
    destruct Hz as (q & <- & Hin). rewrite Forall_forall in Hq.
    apply round_half_even_bounds. exact (Hq q Hin).
  - apply Forall_map_intro. intros q. apply categorize_in_labels.
Qed.

(** X17, on the two wallets with equal sub-scores. *)
Lemma final_scores_in_range_witness :
  exists out scores,
    calculate_scores twin_wallets [Num 0; Num 1] = Ok out
    /\ getitem out "score" = Ok (IntCol scores)
    /\ List.length scores = 2%nat
    /\ Forall (fun z => (0 <= z <= 1000)%Z) scores.
Proof.
  destruct (calculate_scores twin_wallets [Num 0; Num 1]) as [out|e] eqn:E;
    [|vm_compute in E; discriminate].
  assert (Hwf : well_formed twin_wallets) by (repeat constructor).
  destruct (final_scores_in_range _ _ _ Hwf E)
    as (scores & categories & Hs & _ & Hn & _ & Hl & _ & Hr & _).
  exists out, scores. split; [reflexivity|]. split; [exact Hs|].
  split; [|exact Hr].
  rewrite Hl, Hn. reflexivity.
Defined.

Lemma mapM_raises {A B : Type} (f : A -> result B) (e : exn) (l : list A) :
  Forall (fun x => (exists b, f x = Ok b) \/ f x = Raise e) l ->
  Exists (fun x => f x = Raise e) l ->
  mapM f l = Raise e.
Proof.
  intros Hall Hex.
  induction l as [|a t IH]; [inversion Hex|].
  inversion Hall as [|? ? Ha Ht]; subst. cbn [mapM].
  destruct Ha as [(b & Hb)|Ha]; [|now rewrite Ha].
  rewrite Hb. cbn [bind].
  inversion Hex as [? ? Hhd|? ? Htl]; subst; [congruence|].
  now rewrite (IH Ht Htl).
Qed.

Lemma round_astype_int_nan (v : list cell) :
  In NaN v ->
  round_astype_int v
  = Raise (ValueError "Cannot convert non-finite values to integer").
Proof.
  intros H. unfold round_astype_int.
  apply mapM_raises.
  - apply Forall_forall. intros [q|] _; [left; eauto|now right].
  - apply Exists_exists. exists NaN. split; trivial.
Qed.

(** X18. If the anomaly score of a scored wallet is NaN, [calculate_scores]
    raises ValueError instead of returning a table: the NaN goes through
    the adjustment, the clip and the inversion, and the cast of the credit
    scores to integers refuses it. *)
Theorem calculate_scores_nan_anomaly (risk_features : DataFrame)
  (anomaly_scores composite : list cell) (ids : column) (i : nat) :
  getitem risk_features "wallet_address" = Ok ids ->
  _calculate_composite_score risk_features = Ok composite ->
  (i < List.length composite)%nat ->
  nth_error anomaly_scores i = Some NaN ->
  calculate_scores risk_features anomaly_scores
  = Raise (ValueError "Cannot convert non-finite values to integer").
Proof.
  intros Hid Hc Hi Hnan.
  unfold calculate_scores. cbv zeta. rewrite Hid. cbn [bind].
  rewrite Hc. cbn [bind].
  rewrite round_astype_int_nan; [reflexivity|].
  apply nth_error_Some in Hi.
  destruct (nth_error composite i) as [c|] eqn:Ec; [|congruence].
  apply (nth_error_In _ i).
  apply (credit_score_nan _ _ i c NaN); [| |now right];
    now apply nth_error_reindex.
Qed.

(** X18, on the two wallets with equal sub-scores. *)
Lemma calculate_scores_nan_anomaly_witness :
  calculate_scores twin_wallets [Num 1; NaN]
  = Raise (ValueError "Cannot convert non-finite values to integer").
Proof.
  eapply (calculate_scores_nan_anomaly twin_wallets [Num 1; NaN] _ _ 1).
  - reflexivity.
  - vm_compute. reflexivity.
  - repeat constructor.
  - reflexivity.
Defined.

Lemma inject_Z_le (a b : Z) : (a <= b)%Z -> inject_Z a <= inject_Z b.
Proof. intros H. now rewrite <- Zle_Qle. Qed.

(** The category of a credit score against the bands of its rounded
    value: they differ only when the rounded value is a threshold that
    the credit score itself has not reached. *)
Lemma categorize_rounded (q : Q) :
  categorize (Num q) = categorize (of_int (round_half_even q))
  \/ (In (round_half_even q) [800; 600; 400; 200]%Z
      /\ q < inject_Z (round_half_even q)
      /\ categorize (Num q) = categorize (of_int (round_half_even q - 1))).
Proof.
  destruct (round_half_even_near q) as [H1 H2].
  set (s := round_half_even q) in *. clearbody s.
  destruct (categorize_bands q) as (B8 & B6 & B4 & B2 & B0).
  destruct (categorize_bands (inject_Z s)) as (S8 & S6 & S4 & S2 & S0).
  destruct (categorize_bands (inject_Z (s - 1))) as (P8 & P6 & P4 & P2 & P0).
  unfold of_int.
  assert (Hpred : inject_Z (s - 1) == inject_Z s - 1).
  { unfold Z.sub. rewrite inject_Z_plus. reflexivity. }
  assert (Hcase : (s <= 199 \/ s = 200 \/ 201 <= s <= 399 \/ s = 400
                   \/ 401 <= s <= 599 \/ s = 600 \/ 601 <= s <= 799
                   \/ s = 800 \/ 801 <= s)%Z) by lia.
  assert (Hle : forall a b : Z, (a <= b)%Z -> inject_Z a <= inject_Z b)
    by (intros; now apply inject_Z_le).
  destruct Hcase as [C|[C|[C|[C|[C|[C|[C|[C|C]]]]]]]].
  - left. assert (inject_Z s <= inject_Z 199) by (apply Hle; lia).
    change (inject_Z 199) with 199 in *.
    rewrite B0, S0 by lra. reflexivity.
  - subst s. change (inject_Z 200) with 200 in *.
    destruct (Qlt_le_dec q 200) as [L|L].
    + right. split; [simpl; auto 6|]. split; [exact L|].
      rewrite B0, P0 by (rewrite ?Hpred; lra). reflexivity.
    + left. rewrite B2, S2 by lra. reflexivity.
  - left. destruct C as [C1 C2].
    assert (inject_Z 201 <= inject_Z s) by (apply Hle; lia).
    assert (inject_Z s <= inject_Z 399) by (apply Hle; lia).
    change (inject_Z 201) with 201 in *. change (inject_Z 399) with 399 in *.
    rewrite B2, S2 by lra. reflexivity.
  - subst s. change (inject_Z 400) with 400 in *.
    destruct (Qlt_le_dec q 400) as [L|L].
    + right. split; [simpl; auto 6|]. split; [exact L|].
      rewrite B2, P2 by (rewrite ?Hpred; lra). reflexivity.
    + left. rewrite B4, S4 by lra. reflexivity.
  - left. destruct C as [C1 C2].
    assert (inject_Z 401 <= inject_Z s) by (apply Hle; lia).
    assert (inject_Z s <= inject_Z 599) by (apply Hle; lia).
    change (inject_Z 401) with 401 in *. change (inject_Z 599) with 599 in *.
    rewrite B4, S4 by lra. reflexivity.
  - subst s. change (inject_Z 600) with 600 in *.
    destruct (Qlt_le_dec q 600) as [L|L].
    + right. split; [simpl; auto 6|]. split; [exact L|].
      rewrite B4, P4 by (rewrite ?Hpred; lra). reflexivity.
    + left. rewrite B6, S6 by lra. reflexivity.
  - left. destruct C as [C1 C2].
    assert (inject_Z 601 <= inject_Z s) by (apply Hle; lia).
    assert (inject_Z s <= inject_Z 799) by (apply Hle; lia).
    change (inject_Z 601) with 601 in *. change (inject_Z 799) with 799 in *.
    rewrite B6, S6 by lra. reflexivity.
  - subst s. change (inject_Z 800) with 800 in *.
    destruct (Qlt_le_dec q 800) as [L|L].
    + right. split; [simpl; auto 6|]. split; [exact L|].
      rewrite B6, P6 by (rewrite ?Hpred; lra). reflexivity.
    + left. rewrite B8, S8 by lra. reflexivity.
  - left. assert (inject_Z 801 <= inject_Z s) by (apply Hle; lia).
    change (inject_Z 801) with 801 in *.
    rewrite B8, S8 by lra. reflexivity.
Qed.

(** X19. In every row of the table of final scores, the risk category is
    the band of the reported integer score, except possibly when that score
    is exactly 800, 600, 400 or 200: there the category can be the one of
    the band just below, since it is read on the credit score before
    rounding. *)
Theorem category_follows_score (risk_features out : DataFrame)
  (anomaly_scores : list cell) :
  calculate_scores risk_features anomaly_scores = Ok out ->
  exists scores categories,
    getitem out "score" = Ok (IntCol scores)
    /\ getitem out "risk_category" = Ok (StrCol categories)
    /\ Forall2 (fun z c =>
                  c = categorize (of_int z)
                  \/ (In z [800; 600; 400; 200]%Z
                      /\ c = categorize (of_int (z - 1))))
               scores categories.
Proof.
  intros H.
  destruct (calculate_scores_columns _ _ _ H)
    as (composite & credit & _ & _ & _ & Hs & Hc & _ & _).
  do 2 eexists. split; [exact Hs|]. split; [exact Hc|].
  clear. induction credit as [|q credit IH]; cbn [map]; constructor; trivial.
  destruct (categorize_rounded q) as [E|(Hin & _ & E)]; [now left|].
  right. now split.
Qed.

(** X19, on the wallet with credit score 799.8. *)
Lemma category_follows_score_witness :
  exists out,
    calculate_scores borderline_wallet [Num 0.742] = Ok out
    /\ getitem out "score" = Ok (IntCol [800%Z])
    /\ getitem out "risk_category"
       = Ok (StrCol [categorize (of_int (800 - 1))]).
Proof.
  destruct (calculate_scores borderline_wallet [Num 0.742]) as [out|e] eqn:E;
    [|vm_compute in E; discriminate].
  destruct (category_follows_score _ _ _ E) as (scores & cats & Hs & Hc & _).
  exists out. split; [reflexivity|].
  vm_compute in E. injection E as <-. split; reflexivity.
Defined.

(* ================================================================== *)
(** ** The distribution of the scores *)

Lemma count_between_split (l : list Z) (a b c : Z) :
  (a <= b <= c)%Z ->
  (count_between l a b + count_between l b c)%Z = count_between l a c.
Proof.
  intros H. unfold count_between.
  induction l as [|z l IH]; [reflexivity|].
  cbn [filter].
  destruct (a <=? z)%Z eqn:Ea, (z <? b)%Z eqn:Eb, (b <=? z)%Z eqn:Eb',
    (z <? c)%Z eqn:Ec; cbn [andb]; rewrite ?len_cons; lia.
Qed.

Lemma count_between_closed (l : list Z) (a b c : Z) :
  (a <= b <= c)%Z ->
  (count_between l a b
   + len (filter (fun s => (b <=? s)%Z && (s <=? c)%Z) l))%Z
  = len (filter (fun s => (a <=? s)%Z && (s <=? c)%Z) l).
Proof.
  intros H. unfold count_between.
  induction l as [|z l IH]; [reflexivity|].
  cbn [filter].
  destruct (a <=? z)%Z eqn:Ea, (z <? b)%Z eqn:Eb, (b <=? z)%Z eqn:Eb',
    (z <=? c)%Z eqn:Ec; cbn [andb]; rewrite ?len_cons; lia.
Qed.

Lemma filter_all {A : Type} (p : A -> bool) (l : list A) :
  Forall (fun x => p x = true) l -> filter p l = l.
Proof.
  induction 1 as [|x l Hx _ IH]; cbn [filter]; [reflexivity|].
  now rewrite Hx, IH.
Qed.

(** The ten ranges count every score between 0 and 1000 once. *)
Lemma score_ranges_total (scores : list Z) :
  Forall (fun z => (0 <= z <= 1000)%Z) scores ->
  Zsum (map snd (score_ranges_of scores)) = len scores.
Proof.
  intros H. unfold score_ranges_of, Zsum. cbn [map snd fold_right].
  rewrite Z.add_0_r.
  pose proof (count_between_split scores 0 100 200 ltac:(lia)) as E1.
  pose proof (count_between_split scores 0 200 300 ltac:(lia)) as E2.
  pose proof (count_between_split scores 0 300 400 ltac:(lia)) as E3.
  pose proof (count_between_split scores 0 400 500 ltac:(lia)) as E4.
  pose proof (count_between_split scores 0 500 600 ltac:(lia)) as E5.
  pose proof (count_between_split scores 0 600 700 ltac:(lia)) as E6.
  pose proof (count_between_split scores 0 700 800 ltac:(lia)) as E7.
  pose proof (count_between_split scores 0 800 900 ltac:(lia)) as E8.
  pose proof (count_between_closed scores 0 900 1000 ltac:(lia)) as E9.
  rewrite (filter_all (fun s => (0 <=? s)%Z && (s <=? 1000)%Z)) in E9.
  - lia.
  - apply Forall_forall. intros z Hz. rewrite Forall_forall in H.
    specialize (H z Hz). apply andb_true_iff.
    split; apply Z.leb_le; lia.
Qed.

Lemma value_counts_total (l : list string) :
  Zsum (map snd (value_counts l)) = len l.
Proof.
  unfold value_counts. rewrite map_map. cbn [snd].
  rewrite <- (Zsum_counts (fun s : string => s) l
                (rev (nodup string_dec (rev l)))).
  - f_equal. apply map_ext. intros k. f_equal. apply filter_ext.
    intros s. apply String.eqb_sym.
  - apply NoDup_rev, NoDup_nodup.
  - intros t Ht. apply -> in_rev. apply nodup_In. now apply -> in_rev.
Qed.

Lemma fold_min_lower (lo : Z) (t : list Z) (x : Z) :
  (lo <= x)%Z -> Forall (fun y => (lo <= y)%Z) t ->
  (lo <= fold_left Z.min t x)%Z.
Proof.
  revert x. induction t as [|y t IH]; intros x Hx Ht; cbn [fold_left];
    [trivial|].
  inversion Ht; subst. apply IH; trivial. lia.
Qed.

Lemma fold_max_upper (hi : Z) (t : list Z) (x : Z) :
  (x <= hi)%Z -> Forall (fun y => (y <= hi)%Z) t ->
  (fold_left Z.max t x <= hi)%Z.
Proof.
  revert x. induction t as [|y t IH]; intros x Hx Ht; cbn [fold_left];
    [trivial|].
  inversion Ht; subst. apply IH; trivial. lia.
Qed.

(** X20. For a table whose scores lie between 0 and 1000, the distribution
    that [get_score_distribution] returns counts every wallet in exactly one
    of the ten score ranges (1000 falls in the last one) and in exactly one
    risk category, and its minimum and maximum are ordered and lie between
    0 and 1000. *)
Theorem distribution_counts_every_wallet (sqrt : Q -> Q) (df : DataFrame)
  (scores : list Z) (categories : list string) (d : Distribution) :
  score_column df = Ok scores ->
  category_column df = Ok categories ->
  Forall (fun z => (0 <= z <= 1000)%Z) scores ->
  get_score_distribution sqrt (Some df) = Ok d ->
  total_wallets d = len scores
  /\ Zsum (map snd (score_ranges d)) = total_wallets d
  /\ Zsum (map snd (risk_categories d)) = len categories
  /\ (0 <= min_score d <= max_score d)%Z
  /\ (max_score d <= 1000)%Z.
Proof.
  intros Hs Hc Hr H. unfold get_score_distribution in H.
  rewrite Hs in H. cbn [bind] in H.
  destruct scores as [|z t]; [discriminate|].
  cbn [int_min int_max bind] in H. rewrite Hc in H. cbn [bind] in H.
  injection H as <-.
  cbn [total_wallets score_ranges risk_categories min_score max_score].
  split; [reflexivity|].
  split; [now apply score_ranges_total|].
  split; [apply value_counts_total|].
  inversion Hr as [|? ? Hz Ht]; subst.
  destruct (fold_min_spec t z) as (L1 & _).
  destruct (fold_max_spec t z) as (U1 & _).
  pose proof (fold_min_lower 0 t z) as L2.
  pose proof (fold_max_upper 1000 t z) as U2.
  assert (Forall (fun y => (0 <= y)%Z) t /\ Forall (fun y => (y <= 1000)%Z) t)
    as [T1 T2].
  { split; eapply Forall_impl; try exact Ht; cbv beta; intros; lia. }
  specialize (L2 ltac:(lia) T1). specialize (U2 ltac:(lia) T2). lia.
Qed.

(** X20, on the scores of the two wallets with equal sub-scores. *)
Lemma distribution_counts_every_wallet_witness :
  exists out d,
    calculate_scores twin_wallets [Num 0; Num 1] = Ok out
    /\ get_score_distribution Qsqrt53 (Some out) = Ok d
    /\ total_wallets d = 2%Z
    /\ Zsum (map snd (score_ranges d)) = total_wallets d.
Proof.
  destruct (calculate_scores twin_wallets [Num 0; Num 1]) as [out|e] eqn:E;
    [|vm_compute in E; discriminate].
  assert (Hs : score_column out = Ok [600; 500]%Z)
    by (vm_compute in E; injection E as <-; reflexivity).
  assert (Hc : category_column out
               = Ok ["Medium-Low Risk"; "Medium Risk"])
    by (vm_compute in E; injection E as <-; reflexivity).
  assert (Hd : exists d, get_score_distribution Qsqrt53 (Some out) = Ok d)
    by (vm_compute in E; injection E as <-; eexists; vm_compute;
        reflexivity).
  destruct Hd as (d & Hd).
  assert (Hr : Forall (fun z => (0 <= z <= 1000)%Z) [600; 500]%Z)
    by (repeat constructor; lia).
  destruct (distribution_counts_every_wallet Qsqrt53 out _ _ d Hs Hc Hr Hd)
    as (Ht & Hsum & _).
  exists out, d. split; [reflexivity|]. split; [exact Hd|].
  split; [exact Ht|exact Hsum].
Defined.

(** X21. [get_score_distribution] raises ValueError as long as no scores
    were calculated, and also on a table of scores without rows: the
    minimum of no score is NaN, which the conversion to an integer
    refuses. *)
Theorem distribution_needs_scores (sqrt : Q -> Q) (df : DataFrame) :
  score_column df = Ok [] ->
  get_score_distribution sqrt (Some df)
  = Raise (ValueError "cannot convert float NaN to integer")
  /\ get_score_distribution sqrt None
     = Raise (ValueError "Scores must be calculated first").
Proof.
  intros H. unfold get_score_distribution. rewrite H. split; reflexivity.
Qed.

(** X21, on the scores of a table of risk features without any wallet. *)
Lemma distribution_needs_scores_witness :
  exists out,
    calculate_scores no_wallet [] = Ok out
    /\ get_score_distribution Qsqrt53 (Some out)
       = Raise (ValueError "cannot convert float NaN to integer").
Proof.
  destruct (calculate_scores no_wallet []) as [out|e] eqn:E;
    [|vm_compute in E; discriminate].
  exists out. split; [reflexivity|].
  apply (distribution_needs_scores Qsqrt53 out).
  vm_compute in E. injection E as <-. reflexivity.
Defined.

(* ================================================================== *)
(** ** The explanation of a score *)

Lemma first_true_None {A : Type} (p : A -> bool) (l : list A) :
  (forall x, In x l -> p x = false) -> first_true (map p l) = None.
Proof.
  induction l as [|a t IH]; intros H; cbn [map first_true]; [reflexivity|].
  rewrite (H a (or_introl eq_refl)).
  rewrite IH; [reflexivity|]. intros x Hx. apply H. now right.
Qed.

Lemma first_true_Some {A : Type} (p : A -> bool) (l : list A) (i : nat) :
  first_true (map p l) = Some i ->
  (exists x, nth_error l i = Some x /\ p x = true)
  /\ forall j x, (j < i)%nat -> nth_error l j = Some x -> p x = false.
Proof.
  revert i. induction l as [|a t IH]; intros i H; cbn [map first_true] in H;
    [discriminate|].
  destruct (p a) eqn:E.
  - injection H as <-. split; [now exists a|]. intros j x Hj. lia.
  - destruct (first_true (map p t)) as [k|] eqn:Ek; [|discriminate].
    injection H as <-. destruct (IH k eq_refl) as ((x & Hx & Hp) & Hbefore).
    split; [now exists x|].
    intros [|j] y Hj Hy; cbn [nth_error] in Hy.
    + now injection Hy as <-.
    + apply (Hbefore j); trivial. lia.
Qed.

(** X22. [explain_score] lowers the address it is asked about and compares
    it with the stored ids as they are: when no stored id equals the lowered
    address it raises ValueError, even if a row carries the address in its
    original spelling.  A wallet whose id has an upper-case letter can thus
    not be explained. *)
Theorem explain_score_not_found (df : DataFrame) (ids : list string)
  (wallet_address : string) :
  getitem df "wallet_id" = Ok (StrCol ids) ->
  ~ In (lower wallet_address) ids ->
  explain_score (Some df) wallet_address
  = Raise (ValueError ("Wallet " ++ wallet_address ++ " not found")).
Proof.
  intros Hid Hnot. unfold explain_score. rewrite Hid. cbn [bind mask_is].
  rewrite first_true_None; [reflexivity|].
  intros s Hs. apply String.eqb_neq. intros ->. contradiction.
Qed.

(** X22, on a wallet scored under the id 0xAB and asked about under that
    very id. *)
Lemma explain_score_not_found_witness :
  exists out,
    calculate_scores mixed_case_wallet [Num 1] = Ok out
    /\ getitem out "wallet_id" = Ok (StrCol ["0xAB"])
    /\ explain_score (Some out) "0xAB"
       = Raise (ValueError "Wallet 0xAB not found").
Proof.
  destruct (calculate_scores mixed_case_wallet [Num 1]) as [out|e] eqn:E;
    [|vm_compute in E; discriminate].
  assert (Hid : getitem out "wallet_id" = Ok (StrCol ["0xAB"]))
    by (vm_compute in E; injection E as <-; reflexivity).
  exists out. split; [reflexivity|]. split; [exact Hid|].
  apply (explain_score_not_found out ["0xAB"] "0xAB" Hid).
  intros [H|[]]. discriminate.
Defined.

(** X23. When [explain_score] returns, the explanation is that of the first
    row whose id is the lowered address: it carries the integer score of
    that row, the interpretation of that integer against the thresholds
    800, 600, 400 and 200, and the address as it was asked. *)
Theorem explain_score_first_match (df : DataFrame) (ids : list string)
  (scores : list Z) (wallet_address : string) (e : Explanation) :
  getitem df "wallet_id" = Ok (StrCol ids) ->
  getitem df "score" = Ok (IntCol scores) ->
  explain_score (Some df) wallet_address = Ok e ->
  exists i z,
    nth_error ids i = Some (lower wallet_address)
    /\ (forall j, (j < i)%nat ->
                  nth_error ids j <> Some (lower wallet_address))
    /\ nth_error scores i = Some z
    /\ ex_score e = z
    /\ ex_interpretation e = interpretation z
    /\ ex_wallet_id e = wallet_address.
Proof.
  intros Hid Hsc H. unfold explain_score in H. rewrite Hid in H.
  cbn [bind mask_is] in H.
  destruct (first_true _) as [i|] eqn:Ei; [|discriminate].
  apply first_true_Some in Ei. destruct Ei as ((s & Hs & Es) & Hbefore).
  apply String.eqb_eq in Es. subst s.
  unfold row_getitem at 1 in H. rewrite Hsc in H. cbn [bind value_at] in H.
  destruct (nth_error scores i) as [z|] eqn:Ez; cbn [option_map] in H;
    [|discriminate].
  cbn [bind to_int interpret] in H.
  invert_binds H. injection H as <-.
  exists i, z. split; [exact Hs|]. split.
  - intros j Hj Hc. specialize (Hbefore j _ Hj Hc).
    rewrite String.eqb_refl in Hbefore. discriminate.
  - repeat split; trivial.
Qed.

(** X23, on the scores of the two wallets with equal sub-scores. *)
Lemma explain_score_first_match_witness :
  exists out e,
    calculate_scores twin_wallets [Num 0; Num 1] = Ok out
    /\ explain_score (Some out) "0x02" = Ok e
    /\ ex_score e = 500%Z
    /\ ex_interpretation e = interpretation 500.
Proof.
  destruct (calculate_scores twin_wallets [Num 0; Num 1]) as [out|e0] eqn:E;
    [|vm_compute in E; discriminate].
  assert (Hid : getitem out "wallet_id" = Ok (StrCol ["0x01"; "0x02"]))
    by (vm_compute in E; injection E as <-; reflexivity).
  assert (Hs : getitem out "score" = Ok (IntCol [600; 500]%Z))
    by (vm_compute in E; injection E as <-; reflexivity).
  assert (He : exists e, explain_score (Some out) "0x02" = Ok e)
    by (vm_compute in E; injection E as <-; eexists; vm_compute;
        reflexivity).
  destruct He as (e & He).
  destruct (explain_score_first_match out _ _ "0x02" e Hid Hs He)
    as (i & z & Hi & _ & Hz & Hsc & Hin & _).
  assert (i = 1%nat) as ->.
  { destruct i as [|[|i]]; [discriminate|reflexivity|].
    destruct i; discriminate. }
  injection Hz as <-.
  exists out, e. split; [reflexivity|]. split; [exact He|].
  split; [exact Hsc|exact Hin].
Defined.

(* ================================================================== *)
(** ** The fetcher: classification and filtering *)

Lemma method_signatures_labels (k : string) :
  assoc k method_signatures = None
  \/ exists label,
       assoc k method_signatures = Some label
       /\ In label [ "mint"; "redeem"; "redeemUnderlying"; "borrow";
                     "repayBorrow"; "repayBorrowBehalf"; "liquidateBorrow";
                     "enterMarkets"; "exitMarket" ].
Proof.
  unfold method_signatures. cbn [assoc].
  repeat (match goal with
          | |- context [String.eqb k ?s] => destruct (String.eqb k s)
          end;
          [right; eexists; split; [reflexivity|simpl; auto 12]|]).
  now left.
Qed.

Ltac in_list := simpl; repeat (first [left; reflexivity | right]).

Lemma classify_labels_closed (input_data : string) (tx : RawTransaction) :
  In (_classify_compound_action input_data tx) action_labels.
Proof.
  unfold _classify_compound_action.
  destruct (_ || _); [in_list|].
  destruct (method_signatures_labels (substring 0 10 input_data))
    as [Hn|(label & Hl & Hin)].
  - rewrite Hn. cbn [dict_get]. cbn [String.eqb Ascii.eqb Bool.eqb].
    destruct (0 <? dict_get (raw_value tx) 0)%Z; in_list.
  - rewrite Hl. cbn [dict_get]. simpl in Hin.
    repeat (destruct Hin as [<-|Hin]; [cbn; auto 12|]).
    contradiction.
Qed.

(** X24. [_classify_compound_action] answers one of twelve labels.  It
    answers unknown exactly when the input data is empty or the bare prefix
    0x; a selector that is not in the table is never labelled unknown but
    supply_eth or interact, and these two labels are given to no selector of
    the table. *)
Theorem classify_compound_action_labels (input_data : string)
  (tx : RawTransaction) :
  In (_classify_compound_action input_data tx) action_labels
  /\ (_classify_compound_action input_data tx = "unknown"
      <-> input_data = "" \/ input_data = "0x")
  /\ (In (_classify_compound_action input_data tx) ["supply_eth"; "interact"]
      <-> input_data <> "" /\ input_data <> "0x"
          /\ assoc (substring 0 10 input_data) method_signatures = None).
Proof.
  split; [apply classify_labels_closed|].
  unfold _classify_compound_action.
  destruct (String.eqb input_data "") eqn:E1.
  { apply String.eqb_eq in E1. subst. cbn.
    split; [split; auto|].
    split; [intros [H|[H|[]]]; discriminate|intros (H & _); congruence]. }
  destruct (String.eqb input_data "0x") eqn:E2.
  { apply String.eqb_eq in E2. subst. cbn.
    split; [split; auto|].
    split; [intros [H|[H|[]]]; discriminate|intros (_ & H & _); congruence]. }
  apply String.eqb_neq in E1, E2. cbn [orb].
  destruct (method_signatures_labels (substring 0 10 input_data))
    as [Hn|(label & Hl & Hin)].
  - rewrite Hn. cbn [dict_get]. cbn [String.eqb Ascii.eqb Bool.eqb].
    destruct (0 <? dict_get (raw_value tx) 0)%Z.
    + split; [split; [discriminate|intros [H|H]; contradiction]|].
      split; [auto|intros _; now left].
    + split; [split; [discriminate|intros [H|H]; contradiction]|].
      split; [auto|intros _; right; now left].
  - rewrite Hl. cbn [dict_get].
    simpl in Hin.
    repeat (destruct Hin as [<-|Hin];
            [cbn;
             split; [split; [discriminate|intros [H|H]; contradiction]|];
             split; [intros [H|[H|[]]]; discriminate
                    |intros (_ & _ & H); discriminate]|]).
    contradiction.
Qed.

Lemma filter_compound_transactions_spec
  (transactions : list EtherscanTransaction) (wallet_address : string) :
  filter_compound_transactions transactions wallet_address
  = map (annotate wallet_address) (filter involves_compound transactions).
Proof.
  induction transactions as [|tx rest IH]; [reflexivity|].
  cbn [filter_compound_transactions filter].
  destruct (involves_compound tx); cbn [map]; now rewrite IH.
Qed.

Lemma involves_compound_annotate (wallet_address : string)
  (tx : EtherscanTransaction) :
  involves_compound (annotate wallet_address tx) = involves_compound tx.
Proof. reflexivity. Qed.

Lemma annotate_annotate (a b : string) (tx : EtherscanTransaction) :
  annotate b (annotate a tx) = annotate b tx.
Proof. reflexivity. Qed.

(** X25. [filter_compound_transactions] keeps, in their order, the
    transactions whose recipient, sender or contract address is one of the
    seven Compound contracts, each with its two annotations.  Every
    transaction it returns passes the test again, carries the lowered wallet
    address and one of the twelve action labels; filtering the result once
    more, for any wallet, returns what filtering the original list for that
    wallet gives. *)
Theorem filter_compound_transactions_kept
  (transactions : list EtherscanTransaction) (a b : string) :
  Forall (fun tx =>
            involves_compound tx = true
            /\ etx_wallet_address tx = Some (lower a)
            /\ exists label,
                 raw_compound_action (etx_fields tx) = Some label
                 /\ In label action_labels)
         (filter_compound_transactions transactions a)
  /\ filter_compound_transactions transactions a
     = map (annotate a) (filter involves_compound transactions)
  /\ filter_compound_transactions
       (filter_compound_transactions transactions a) b
     = filter_compound_transactions transactions b.
Proof.
  rewrite !filter_compound_transactions_spec.
  split; [|split].
  - apply Forall_forall. intros tx' Hin.
    apply in_map_iff in Hin. destruct Hin as (tx & <- & Hin).
    apply filter_In in Hin. destruct Hin as (_ & Hc).
    rewrite involves_compound_annotate.
    split; [exact Hc|]. split; [reflexivity|].
    eexists. split; [reflexivity|].
    apply classify_labels_closed.
  - reflexivity.
  - rewrite filter_all.
    + rewrite map_map. apply map_ext. intros tx. apply annotate_annotate.
    + apply Forall_forall. intros tx' Hin.
      apply in_map_iff in Hin. destruct Hin as (tx & <- & Hin).
      apply filter_In in Hin. now rewrite involves_compound_annotate.
Qed.

(* ================================================================== *)
(** ** From the fetcher to the normalised table *)

Lemma fetched_wallet_transactions (wallet_address : string)
  (txs : list EtherscanTransaction) :
  wallet_transactions (fetched_wallet wallet_address txs)
  = map (fun tx =>
           set_compound_action (etx_fields tx)
             (_classify_compound_action (dict_get (etx_input tx) "")
                                        (etx_fields tx)))
        (filter involves_compound txs).
Proof.
  unfold wallet_transactions, fetched_wallet. cbn [transactions dict_get].
  rewrite filter_compound_transactions_spec, map_map. reflexivity.
Qed.

(** X26. The normalised table of a wallet as [fetch_wallet_data] builds it
    has one row per fetched transaction that involves a Compound contract.
    Each row carries the wallet address as it was asked for (not the lowered
    copy that the filter stores in the transaction), the timestamp of its
    transaction and the label that [_classify_compound_action] gives to the
    input data of that transaction -- one of the twelve labels, never the
    default of the normaliser for a missing key. *)
Theorem fetched_wallet_rows (wallet_address : string)
  (txs : list EtherscanTransaction) :
  List.length (process_wallet_data [fetched_wallet wallet_address txs])
  = List.length (filter involves_compound txs)
  /\ forall r,
       In r (process_wallet_data [fetched_wallet wallet_address txs]) ->
       tx_wallet_address r = wallet_address
       /\ In (tx_compound_action r) action_labels
       /\ exists tx,
            In tx txs
            /\ involves_compound tx = true
            /\ tx_compound_action r
               = _classify_compound_action (dict_get (etx_input tx) "")
                                           (etx_fields tx)
            /\ tx_timestamp r = dict_get (raw_timeStamp (etx_fields tx)) 0%Z.
Proof.
  split.
  - rewrite process_wallet_data_length. unfold all_transactions.
    cbn [flat_map]. rewrite app_nil_r, length_map.
    change (dict_get (transactions (fetched_wallet wallet_address txs)) [])
      with (wallet_transactions (fetched_wallet wallet_address txs)).
    now rewrite fetched_wallet_transactions, length_map.
  - intros r Hr. apply process_wallet_data_In in Hr.
    destruct Hr as (w & raw & [<-|[]] & Hraw & ->).
    rewrite fetched_wallet_transactions in Hraw.
    apply in_map_iff in Hraw. destruct Hraw as (tx & <- & Htx).
    apply filter_In in Htx. destruct Htx as (Hin & Hc).
    cbn [processed_tx tx_wallet_address tx_compound_action tx_timestamp
         fetched_wallet address set_compound_action raw_compound_action
         raw_timeStamp dict_get].
    split; [reflexivity|]. split; [apply classify_labels_closed|].
    exists tx. repeat split; trivial.
Qed.

(* ================================================================== *)
(** ** The pipeline: from the wallet data to the final scores *)

Lemma in_nil_iff_false {A : Type} (l : list A) :
  (forall x, ~ In x l) -> l = [].
Proof.
  destruct l as [|x t]; [reflexivity|]. intros H. destruct (H x). now left.
Qed.

Lemma NoDup_single {A : Type} (l : list A) (a : A) :
  NoDup l -> In a l -> (forall b, In b l -> b = a) -> List.length l = 1%nat.
Proof.
  intros Hnd Ha Hall.
  destruct l as [|x [|y t]]; [contradiction|reflexivity|].
  exfalso. inversion Hnd as [|? ? Hx _]; subst. apply Hx.
  rewrite (Hall x) by (now left). rewrite (Hall y) by (right; now left).
  now left.
Qed.

Lemma NoDup_two {A : Type} (l : list A) (a b : A) :
  NoDup l -> In a l -> In b l -> a <> b -> (2 <= List.length l)%nat.
Proof.
  intros _ Ha Hb Hab.
  destruct l as [|x [|y t]]; [contradiction| |simpl; lia].
  destruct Ha as [<-|[]], Hb as [<-|[]]. congruence.
Qed.

Section PipelineFacts.
Variable sqrt : Q -> Q.

Lemma metrics_rows_active (wallet_data : list Wallet) (a : string) :
  In a (map wallet_address
          (wallet_metrics sqrt (process_wallet_data wallet_data)))
  <-> active wallet_data a.
Proof.
  unfold active. rewrite <- all_transactions_addresses.
  rewrite wallet_metrics_addresses, unique_sorted_In.
  assert (Hperm : Permutation (all_transactions wallet_data)
                              (process_wallet_data wallet_data)).
  { rewrite process_wallet_data_unfold. apply sort_values_perm. }
  split; apply Permutation_in, Permutation_map;
    [apply Permutation_sym|]; exact Hperm.
Qed.

Lemma metrics_rows_NoDup (wallet_data : list Wallet) :
  NoDup (map wallet_address
           (wallet_metrics sqrt (process_wallet_data wallet_data))).
Proof. rewrite wallet_metrics_addresses. apply unique_sorted_NoDup. Qed.

Lemma active_metrics_table (wallet_data : list Wallet) (a : string) :
  active wallet_data a ->
  calculate_wallet_metrics sqrt (process_wallet_data wallet_data)
  = DataFrame_of_metrics
      (wallet_metrics sqrt (process_wallet_data wallet_data)).
Proof.
  intros Ha. apply calculate_wallet_metrics_rows.
  intros E. apply metrics_rows_active in Ha. rewrite E in Ha.
  contradiction.
Qed.

Variable ms : list WalletMetrics.

(** On a metrics table, the stages up to the estimators and the composite
    score all succeed (the list is not empty wherever the lemma is used). *)
Lemma risk_features_of_metrics :
  exists rf X composite,
    calculate_risk_features (DataFrame_of_metrics ms) = Ok rf
    /\ nrows rf = List.length ms
    /\ getitem rf "wallet_address" = Ok (StrCol (map wallet_address ms))
    /\ available_features rf = numerical_features
    /\ prepare_data rf = Ok X
    /\ n_samples X = List.length ms
    /\ _calculate_composite_score rf = Ok composite
    /\ List.length composite = List.length ms
    /\ Forall is_num composite.
Proof.
  do 3 eexists.
  split; [reflexivity|].
  split; [reflexivity|].
  split; [reflexivity|].
  split; [reflexivity|].
  split; [reflexivity|].
  split; [unfold n_samples; cbn [hd]; series_length|].
  split; [reflexivity|].
  split.
  - cbn [nrows setitem DataFrame_of_metrics]. split_guards; series_length.
  - apply is_num_vclip. auto 20 with num.
Qed.

End PipelineFacts.

(** X27. If none of the fetched transactions involves a Compound contract,
    every wallet reaches the pipeline with an empty transaction list and the
    run ends with KeyError in the risk analysis, whatever the estimators: no
    table of scores, not even an empty one, is produced. *)
Theorem score_wallets_without_compound_activity (sqrt : Q -> Q)
  (scaler_fit_transform : list (list Q) -> result (list (list Q)))
  (decision_function : list (list Q) -> result (list Q))
  (fetched : list (string * list EtherscanTransaction)) :
  (forall a txs tx,
      In (a, txs) fetched -> In tx txs -> involves_compound tx = false) ->
  score_wallets sqrt scaler_fit_transform decision_function
    (map (fun p => fetched_wallet (fst p) (snd p)) fetched)
  = Raise (KeyError "liquidation_count").
Proof.
  intros H. unfold score_wallets.
  rewrite no_transaction_no_row; [reflexivity|].
  intros w Hw. apply in_map_iff in Hw. destruct Hw as ([a txs] & <- & Hin).
  rewrite fetched_wallet_transactions. cbn [fst snd].
  replace (filter involves_compound txs) with (@nil EtherscanTransaction);
    [reflexivity|].
  symmetry. apply in_nil_iff_false. intros tx Htx.
  apply filter_In in Htx. destruct Htx as (Hi & Hc).
  rewrite (H a txs tx Hin Hi) in Hc. discriminate.
Qed.

(** X27, on a wallet whose only transaction is a transfer between two
    accounts. *)
Lemma score_wallets_without_compound_activity_witness :
  score_wallets Qsqrt53 identity_scaler ramp_forest
    (map (fun p => fetched_wallet (fst p) (snd p))
         [("0xA1", [plain_transfer])])
  = Raise (KeyError "liquidation_count").
Proof.
  apply (score_wallets_without_compound_activity Qsqrt53 identity_scaler
           ramp_forest [("0xA1", [plain_transfer])]).
  intros a txs tx [E|[]] Htx. injection E as <- <-.
  destruct Htx as [<-|[]]. reflexivity.
Defined.

Lemma length_one {A : Type} (l : list A) :
  List.length l = 1%nat -> exists x, l = [x].
Proof.
  destruct l as [|x [|y t]]; try discriminate. intros _. now exists x.
Qed.

(** X28. A batch in which a single address has transactions is never
    scored.  With estimators that return one row and one decision score per
    sample, the only decision score is its own minimum and maximum, the
    normalisation yields NaN and the cast of the credit score to an integer
    raises ValueError -- unless the scaler or the forest has raised
    before. *)
Theorem single_address_batch_not_scored (sqrt : Q -> Q)
  (scaler_fit_transform : list (list Q) -> result (list (list Q)))
  (decision_function : list (list Q) -> result (list Q))
  (wallet_data : list Wallet) (a : string) :
  active wallet_data a ->
  (forall b, active wallet_data b -> b = a) ->
  (forall X X', scaler_fit_transform X = Ok X' ->
                n_samples X' = n_samples X) ->
  (forall X' ds, decision_function X' = Ok ds ->
                 List.length ds = n_samples X') ->
  (exists X e,
      scaler_fit_transform X = Raise e
      /\ score_wallets sqrt scaler_fit_transform decision_function
           wallet_data = Raise e)
  \/ (exists X' e,
         decision_function X' = Raise e
         /\ score_wallets sqrt scaler_fit_transform decision_function
              wallet_data = Raise e)
  \/ score_wallets sqrt scaler_fit_transform decision_function wallet_data
     = Raise (ValueError "Cannot convert non-finite values to integer").
Proof.
  intros Ha Hone Hscaler Hforest. unfold score_wallets.
  rewrite (active_metrics_table sqrt wallet_data a Ha).
  assert (Hrows : List.length
                    (wallet_metrics sqrt (process_wallet_data wallet_data))
                  = 1%nat).
  { rewrite <- (length_map wallet_address).
    apply (NoDup_single _ a).
    - apply metrics_rows_NoDup.
    - now apply metrics_rows_active.
    - intros b Hb. apply Hone. now apply metrics_rows_active in Hb. }
  destruct (risk_features_of_metrics
              (wallet_metrics sqrt (process_wallet_data wallet_data)))
    as (rf & X & composite & Hrf & _ & Hid & Hav & HX & Hn & Hc & Hlen & _).
  rewrite Hrf. cbn [bind]. unfold detect_anomalies.
  rewrite Hav. cbn [numerical_features List.length Nat.eqb].
  rewrite HX. cbn [bind].
  destruct (scaler_fit_transform X) as [X'|e] eqn:Es;
    [|left; exists X, e; split; [exact Es|reflexivity]].
  cbn [bind].
  destruct (decision_function X') as [ds|e] eqn:Ef;
    [|right; left; exists X', e; split; [exact Ef|reflexivity]].
  cbn [bind]. right; right.
  apply Hforest in Ef. rewrite (Hscaler _ _ Es), Hn, Hrows in Ef.
  apply length_one in Ef. destruct Ef as (d & ->).
  rewrite Hrows in Hlen. apply length_one in Hlen.
  destruct Hlen as (c & ->).
  rewrite (normalize_scores_constant d [d]);
    [|discriminate|repeat constructor; reflexivity].
  cbn [bind List.length repeat].
  unfold calculate_scores. cbv zeta. rewrite Hid. cbn [bind].
  rewrite Hc. cbn [bind].
  rewrite round_astype_int_nan; [reflexivity|].
  destruct c; left; reflexivity.
Qed.

(** X28, on the wallet of the worked example. *)
Lemma single_address_batch_not_scored_witness :
  score_wallets Qsqrt53 identity_scaler (flat_forest 0) mint_then_repay
  = Raise (ValueError "Cannot convert non-finite values to integer").
Proof.
  destruct (single_address_batch_not_scored Qsqrt53 identity_scaler
              (flat_forest 0) mint_then_repay "0xb")
    as [(X & e & H & _)|[(X & e & H & _)|H]].
  - exists (mkWallet "0xb"
              (Some [sample_tx 0 "mint"; sample_tx 86400 "repayBorrow"])).
    split; [now left|]. split; [reflexivity|discriminate].
  - intros b (w & [<-|[]] & <- & _). reflexivity.
  - intros X X' H. now injection H as <-.
  - intros X' ds H. injection H as <-. apply length_map.
  - discriminate.
  - discriminate.
  - exact H.
Defined.

Lemma is_num_map_Num (v : list cell) :
  Forall is_num v -> exists qs, v = map Num qs.
Proof.
  induction 1 as [|x t Hx _ (qs & ->)]; [now exists []|].
  destruct x as [q|]; [|contradiction]. now exists (q :: qs).
Qed.

Lemma round_astype_int_numbers (qs : list Q) :
  round_astype_int (map Num qs) = Ok (map round_half_even qs).
Proof.
  unfold round_astype_int.
  induction qs as [|q t IH]; cbn [map mapM]; [reflexivity|].
  cbn [bind]. now rewrite IH.
Qed.

(** On numbers, one anomaly score per composite score, [calculate_scores]
    returns; the ids are those of the risk features. *)
Lemma calculate_scores_numbers (rf : DataFrame) (ids : column)
  (composite an : list cell) :
  getitem rf "wallet_address" = Ok ids ->
  _calculate_composite_score rf = Ok composite ->
  List.length composite = List.length an ->
  Forall is_num composite ->
  Forall is_num an ->
  exists out, calculate_scores rf an = Ok out.
Proof.
  intros Hid Hc Hlen Hnc Hna.
  assert (Hcredit : Forall is_num
                      (vscale (rsub 1 (final_risk composite an)) 1000))
    by (unfold final_risk; auto 20 with num).
  apply is_num_map_Num in Hcredit. destruct Hcredit as (qs & Hqs).
  unfold calculate_scores. cbv zeta. rewrite Hid. cbn [bind].
  rewrite Hc. cbn [bind]. rewrite !reindex_id by lia.
  rewrite Hqs, round_astype_int_numbers. cbn [bind].
  eexists. reflexivity.
Qed.

(** The ids of the table of final scores are the addresses of the metrics
    table. *)
Lemma calculate_scores_wallet_id (rf out : DataFrame) (an : list cell) :
  calculate_scores rf an = Ok out ->
  getitem out "wallet_id" = getitem rf "wallet_address".
Proof.
  intros H. unfold calculate_scores in H. cbv zeta in H.
  apply bind_Ok in H. destruct H as (ids & Hid & H).
  invert_binds H. injection H as <-. rewrite Hid. reflexivity.
Qed.

Lemma risk_features_need_rows (sqrt : Q -> Q) (wallet_data : list Wallet)
  (rf : DataFrame) :
  calculate_risk_features
    (calculate_wallet_metrics sqrt (process_wallet_data wallet_data)) = Ok rf ->
  process_wallet_data wallet_data <> [].
Proof.
  intros H E. rewrite E in H. discriminate H.
Qed.

Lemma score_wallets_ids (sqrt : Q -> Q)
  (scaler_fit_transform : list (list Q) -> result (list (list Q)))
  (decision_function : list (list Q) -> result (list Q))
  (wallet_data : list Wallet) (out : DataFrame) :
  score_wallets sqrt scaler_fit_transform decision_function wallet_data
  = Ok out ->
  getitem out "wallet_id"
  = Ok (StrCol (map wallet_address
                  (wallet_metrics sqrt (process_wallet_data wallet_data)))).
Proof.
  intros H. unfold score_wallets in H.
  apply bind_Ok in H. destruct H as (rf & Hrf & H).
  apply bind_Ok in H. destruct H as (an & _ & H).
  pose proof (risk_features_need_rows _ _ _ Hrf) as Hne.
  rewrite (calculate_wallet_metrics_rows sqrt _ Hne) in Hrf.
  destruct (risk_features_of_metrics
              (wallet_metrics sqrt (process_wallet_data wallet_data)))
    as (rf0 & _ & _ & Hrf0 & _ & Hid & _).
  rewrite Hrf0 in Hrf. injection Hrf as <-.
  now rewrite (calculate_scores_wallet_id _ _ _ H).
Qed.

(** X29. When, on the matrix prepared from a batch, the scaler and the
    forest answer with one decision score per wallet and two of the decision
    scores differ, the batch is scored: the table of final scores has one
    row per address with transactions, each address once, with an integer
    score between 0 and 1000. *)
Theorem score_wallets_scores_active_addresses (sqrt : Q -> Q)
  (scaler_fit_transform : list (list Q) -> result (list (list Q)))
  (decision_function : list (list Q) -> result (list Q))
  (wallet_data : list Wallet) (risk_features : DataFrame)
  (X X_scaled : list (list Q)) (decision_scores : list Q) (x y : Q) :
  calculate_risk_features
    (calculate_wallet_metrics sqrt (process_wallet_data wallet_data))
  = Ok risk_features ->
  prepare_data risk_features = Ok X ->
  scaler_fit_transform X = Ok X_scaled ->
  decision_function X_scaled = Ok decision_scores ->
  List.length decision_scores = nrows risk_features ->
  In x decision_scores -> In y decision_scores -> x < y ->
  exists out ids scores,
    score_wallets sqrt scaler_fit_transform decision_function wallet_data
    = Ok out
    /\ getitem out "wallet_id" = Ok (StrCol ids)
    /\ getitem out "score" = Ok (IntCol scores)
    /\ (forall c, In c ids <-> active wallet_data c)
    /\ NoDup ids
    /\ List.length scores = List.length ids
    /\ Forall (fun z => (0 <= z <= 1000)%Z) scores.
Proof.
  intros Hrf HX Es Ef El Hx Hy Hxy.
  pose proof (risk_features_need_rows _ _ _ Hrf) as Hne.
  set (ms := wallet_metrics sqrt (process_wallet_data wallet_data)).
  assert (Hrun : exists out an,
             score_wallets sqrt scaler_fit_transform decision_function
               wallet_data = Ok out
             /\ calculate_scores risk_features an = Ok out
             /\ List.length an = List.length ms).
  { unfold score_wallets. rewrite Hrf. cbn [bind].
    rewrite (calculate_wallet_metrics_rows sqrt _ Hne) in Hrf.
    destruct (risk_features_of_metrics ms)
      as (rf0 & X0 & composite & Hrf0 & Hrows & Hid & Hav & _ & _ & Hc
          & Hlen & Hnum).
    fold ms in Hrf. rewrite Hrf0 in Hrf. injection Hrf as <-.
    unfold detect_anomalies.
    rewrite Hav. cbn [numerical_features List.length Nat.eqb].
    rewrite HX. cbn [bind]. rewrite Es. cbn [bind]. rewrite Ef. cbn [bind].
    destruct (normalize_scores_regular decision_scores x y Hx Hy Hxy)
      as (an & Hnorm & Hlan & Hunit & _).
    rewrite Hnorm. cbn [bind].
    assert (Hnan : Forall is_num an).
    { revert Hunit. apply Forall_impl. apply in_unit_is_num. }
    destruct (calculate_scores_numbers rf0 _ composite an Hid Hc
                ltac:(congruence) Hnum Hnan) as (out & Hout).
    exists out, an. split; [exact Hout|]. split; [exact Hout|congruence]. }
  destruct Hrun as (out & an & Hrun & Hscores & Hlan).
  pose proof (score_wallets_ids _ _ _ _ _ Hrun) as Hwid.
  destruct (calculate_scores_columns _ _ _ Hscores)
    as (composite & credit & _ & _ & Hlq & Hscore & _ & Hrange & _).
  exists out, (map wallet_address ms), (map round_half_even credit).
  split; [exact Hrun|]. split; [exact Hwid|]. split; [exact Hscore|].
  split; [intros c; apply metrics_rows_active|].
  split; [apply metrics_rows_NoDup|].
  split.
  - rewrite !length_map. congruence.
  - apply Forall_forall. intros z Hz.
    apply in_map_iff in Hz. destruct Hz as (q & <- & Hin).
    rewrite Forall_forall in Hrange.
    apply round_half_even_bounds. exact (Hrange q Hin).
Qed.

(** X29, on a batch of three wallets, with a forest that ranks them. *)
Lemma score_wallets_scores_active_addresses_witness :
  exists out scores,
    score_wallets Qsqrt53 identity_scaler ramp_forest three_active = Ok out
    /\ getitem out "wallet_id" = Ok (StrCol ["0xb"; "0xd"; "0xe"])
    /\ getitem out "score" = Ok (IntCol scores)
    /\ List.length scores = 3%nat
    /\ Forall (fun z => (0 <= z <= 1000)%Z) scores.
Proof.
  pose proof (fun rf X X_scaled =>
                score_wallets_scores_active_addresses Qsqrt53
                  identity_scaler ramp_forest three_active rf X X_scaled
                  [0; 1; 2] 0 1) as Hthm.
  edestruct Hthm as (out & ids & scores & Hout & Hid & Hs & _ & _ & Hl & Hr).
  - vm_compute. reflexivity.
  - vm_compute. reflexivity.
  - reflexivity.
  - vm_compute. reflexivity.
  - reflexivity.
  - now left.
  - right. now left.
  - reflexivity.
  - assert (E : getitem out "wallet_id" = Ok (StrCol ["0xb"; "0xd"; "0xe"])).
    { revert Hout. vm_compute. intros H. injection H as <-. reflexivity. }
    rewrite E in Hid. injection Hid as <-.
    exists out, scores. repeat split; trivial.
Defined.

(* ================================================================== *)
(** ** The wallet without transactions *)

(** C5. A wallet of the batch whose transaction list is empty, and whose
    address has no transaction under another entry either, is absent from
    every table of the pipeline: no row of the normalised table carries its
    address, the metrics table has no row for it and, whenever the pipeline
    returns, the table of final scores has none.  The metric function is
    nevertheless prepared for such a wallet: on an empty group it gives
    total_transactions = 0 and success_rate = 0, a row that the grouping
    never lets through. *)
Theorem idle_wallet_is_dropped (sqrt : Q -> Q)
  (scaler_fit_transform : list (list Q) -> result (list (list Q)))
  (decision_function : list (list Q) -> result (list Q))
  (wallet_data : list Wallet) (w : Wallet) :
  In w wallet_data ->
  (forall w', In w' wallet_data -> address w' = address w ->
              wallet_transactions w' = []) ->
  (forall r, In r (process_wallet_data wallet_data) ->
             tx_wallet_address r <> address w)
  /\ (forall ids,
         getitem (calculate_wallet_metrics sqrt
                    (process_wallet_data wallet_data)) "wallet_address"
         = Ok (StrCol ids) ->
         ~ In (address w) ids)
  /\ (forall out ids,
         score_wallets sqrt scaler_fit_transform decision_function
           wallet_data = Ok out ->
         getitem out "wallet_id" = Ok (StrCol ids) ->
         ~ In (address w) ids)
  /\ total_transactions (_calculate_single_wallet_metrics sqrt (address w) [])
     = 0%Z
  /\ cell_eq (success_rate
                (_calculate_single_wallet_metrics sqrt (address w) []))
             (Num 0).
Proof.
  intros Hw Hidle.
  assert (Hna : ~ active wallet_data (address w)).
  { intros (w' & Hin & Ha & Hne). apply Hne. now apply Hidle. }
  split; [|split; [|split; [|apply metrics_of_no_transaction]]].
  - intros r Hr E. apply Hna. apply (metrics_rows_active sqrt).
    rewrite wallet_metrics_addresses. apply <- unique_sorted_In.
    rewrite <- E. now apply in_map.
  - intros ids Hids Hin. apply Hna. apply (metrics_rows_active sqrt).
    destruct (process_wallet_data wallet_data) as [|t df] eqn:E;
      [discriminate Hids|].
    rewrite calculate_wallet_metrics_rows in Hids by discriminate.
    rewrite wallet_address_column in Hids. now injection Hids as <-.
  - intros out ids Hout Hids Hin. apply Hna.
    apply (metrics_rows_active sqrt).
    rewrite (score_wallets_ids _ _ _ _ _ Hout) in Hids.
    now injection Hids as <-.
Qed.

(** C5, on a batch of three wallets with transactions and one without: the
    pipeline returns three scores, none for the wallet without
    transactions. *)
Lemma idle_wallet_is_dropped_witness :
  exists out,
    In (mkWallet "0xa" (Some [])) idle_among_active
    /\ score_wallets Qsqrt53 identity_scaler ramp_forest idle_among_active
       = Ok out
    /\ getitem out "wallet_id" = Ok (StrCol ["0xb"; "0xd"; "0xe"])
    /\ ~ In "0xa" ["0xb"; "0xd"; "0xe"].
Proof.
  destruct (score_wallets Qsqrt53 identity_scaler ramp_forest
              idle_among_active) as [out|e] eqn:E;
    [|vm_compute in E; discriminate].
  assert (Hid : getitem out "wallet_id" = Ok (StrCol ["0xb"; "0xd"; "0xe"]))
    by (vm_compute in E; injection E as <-; reflexivity).
  exists out. split; [now left|]. split; [reflexivity|].
  split; [exact Hid|].
  destruct (idle_wallet_is_dropped Qsqrt53 identity_scaler ramp_forest
              idle_among_active (mkWallet "0xa" (Some [])))
    as (_ & _ & H & _).
  - now left.
  - intros w' Hin Ha. simpl in Hin.
    destruct Hin as [<-|[<-|[<-|[<-|[]]]]]; try reflexivity; discriminate.
  - exact (H out _ E Hid).
Defined.
